(** * Table extraction: a shallow embedding of [table_extraction.py]

    The development follows the Python module: the class [TableRange], the
    sweep [find_all_table_range] and the rectangle-growth routine
    [_find_table_range_from_boolean_array_starting_at].  Python integers are
    [Z]; a call that can raise returns an [outcome]; the numpy array that the
    sweep mutates is threaded through the loops as explicit state. *)

From Stdlib Require Import Ascii String ZArith List Bool Lia.
Import ListNotations.

Local Open Scope Z_scope.

(** ** Outcomes of a Python call *)

Inductive exn : Type :=
| ValueError
| IndexError
| TypeError.

Inductive outcome (A : Type) : Type :=
| Returns (a : A)
| Raises (e : exn).

Arguments Returns {A} a.
Arguments Raises {A} e.

Definition bind {A B : Type} (m : outcome A) (k : A -> outcome B) : outcome B :=
  match m with
  | Returns a => k a
  | Raises e => Raises e
  end.

Notation "x <- m ;; k" := (bind m (fun x => k))
  (at level 61, m at next level, right associativity).

(** [for x in xs: st = body(st, x)], stopping at the first exception. *)
Fixpoint for_each {S : Type} (body : S -> Z -> outcome S) (xs : list Z) (st : S)
  : outcome S :=
  match xs with
  | [] => Returns st
  | x :: rest => st' <- body st x ;; for_each body rest st'
  end.

(** ** Python sequences: [range], indexing and slicing *)

(** [range(lo, hi)]: the integers [lo, lo+1, ..., hi-1], empty when [hi <= lo]. *)
Definition range (lo hi : Z) : list Z :=
  map (fun k => lo + Z.of_nat k) (seq 0 (Z.to_nat (hi - lo))).

(** An integer index into an axis of length [n]: a negative index counts from
    the end, and an index outside [-n, n) raises [IndexError]. *)
Definition norm_index (i : Z) (n : nat) : outcome nat :=
  if i <? - Z.of_nat n then Raises IndexError
  else if i <? 0 then Returns (Z.to_nat (i + Z.of_nat n))
  else if i <? Z.of_nat n then Returns (Z.to_nat i)
  else Raises IndexError.

(** A slice bound on an axis of length [n]: a negative bound counts from the
    end, and the result is clamped to [0, n].  A slice never raises. *)
Definition clamp_bound (i : Z) (n : nat) : Z :=
  let i' := if i <? 0 then i + Z.of_nat n else i in
  if i' <? 0 then 0
  else if Z.of_nat n <? i' then Z.of_nat n
  else i'.

(** Whether position [k] of an axis of length [n] lies in [start:stop]. *)
Definition in_slice (start stop : Z) (n : nat) (k : nat) : bool :=
  (clamp_bound start n <=? Z.of_nat k) && (Z.of_nat k <? clamp_bound stop n).

(** [l[start:stop]] *)
Definition slice {A : Type} (start stop : Z) (l : list A) : list A :=
  let s := clamp_bound start (length l) in
  let e := clamp_bound stop (length l) in
  firstn (Z.to_nat (e - s)) (skipn (Z.to_nat s) l).

(** [l[start:stop] = f(old)] element by element, in place. *)
Fixpoint update_slice_from {A : Type} (k : nat) (start stop : Z) (n : nat)
  (f : A -> A) (l : list A) : list A :=
  match l with
  | [] => []
  | x :: rest =>
      (if in_slice start stop n k then f x else x)
        :: update_slice_from (S k) start stop n f rest
  end.

Definition update_slice {A : Type} (start stop : Z) (f : A -> A) (l : list A)
  : list A :=
  update_slice_from 0 start stop (length l) f l.

(** ** numpy boolean arrays of dimension two *)

(** The arrays of this module all have [dtype=bool]; the element type records
    it, so the [dtype] guard of the growth routine (which raises [TypeError]
    on any other element type) can never fire on a value of this type. *)
Record ndarray : Type := mk_ndarray {
  shape : nat * nat;
  data : list (list bool)
}.

Definition n_rows (a : ndarray) : nat := fst (shape a).
Definition n_cols (a : ndarray) : nat := snd (shape a).

(** The buffer agrees with the declared shape. *)
Definition well_shaped (a : ndarray) : bool :=
  (length (data a) =? n_rows a)%nat
  && forallb (fun r => (length r =? n_cols a)%nat) (data a).

(** [a[r, c]] *)
Definition getitem (a : ndarray) (r c : Z) : outcome bool :=
  i <- norm_index r (n_rows a) ;;
  j <- norm_index c (n_cols a) ;;
  match nth_error (data a) i with
  | Some line =>
      match nth_error line j with
      | Some b => Returns b
      | None => Raises IndexError
      end
  | None => Raises IndexError
  end.

(** [a[r, start:stop]] *)
Definition getitem_row_slice (a : ndarray) (r start stop : Z) : outcome (list bool) :=
  i <- norm_index r (n_rows a) ;;
  match nth_error (data a) i with
  | Some line => Returns (slice start stop line)
  | None => Raises IndexError
  end.

(** [np.logical_not(a)]: a fresh array, the argument is left alone. *)
Definition logical_not (a : ndarray) : ndarray :=
  mk_ndarray (shape a) (map (map negb) (data a)).

(** [v.all()] on a one-dimensional boolean array. *)
Definition all (v : list bool) : bool := forallb (fun b => b) v.

(** [a[r0:r1, c0:c1] = value] *)
Definition setitem_slices (a : ndarray) (r0 r1 c0 c1 : Z) (value : bool) : ndarray :=
  mk_ndarray (shape a)
    (update_slice r0 r1 (update_slice c0 c1 (fun _ => value)) (data a)).

(** ** pandas data frames *)

(** A cell of a frame.  [NaN] is [np.nan] and [PyNone] is [None], the two
    missing values; a finite float is [mantissa * 2^exponent]. *)
Inductive cell : Type :=
| NaN
| PyNone
| Str (s : string)
| Int (n : Z)
| Float (mantissa exponent : Z).

Record DataFrame : Type := mk_DataFrame {
  index : list Z;
  columns : list Z;
  values : list (list cell)
}.

Definition df_shape (df : DataFrame) : nat * nat :=
  (length (index df), length (columns df)).

Definition well_shaped_df (df : DataFrame) : bool :=
  (length (values df) =? length (index df))%nat
  && forallb (fun r => (length r =? length (columns df))%nat) (values df).

(** [pd.DataFrame(rows)] on a list of lists: default integer labels, and short
    rows padded with missing values.  The cells are kept as they are given;
    pandas brings each column to one dtype, which can turn an integer into a
    float and leaves every cell missing or not as it was. *)
Definition pad (w : nat) (r : list cell) : list cell :=
  r ++ repeat NaN (w - length r).

Definition pd_DataFrame (rows : list (list cell)) : DataFrame :=
  let w := fold_right (fun r m => Nat.max (length r) m) 0%nat rows in
  mk_DataFrame (range 0 (Z.of_nat (length rows))) (range 0 (Z.of_nat w))
    (map (pad w) rows).

(** [pd.notna] on a scalar. *)
Definition notna_cell (x : cell) : bool :=
  match x with
  | NaN | PyNone => false
  | _ => true
  end.

(** [df.notna().to_numpy()]: a boolean array of the frame's shape, computed
    from the frame and sharing nothing with it.  This is the content of the
    array.  Whether the array may be written is pandas's choice: the release
    that the docstring of [find_all_table_range] links to hands out a writable
    array, while a release with copy-on-write hands out a read-only view when
    the frame is held in one block, and [fill_inplace] then raises
    [ValueError] at the first range that the sweep accepts.  The sweep below
    is the sweep on a writable array, and what is proved of its result is
    stated for the calls that return; the array as an object with its flag,
    and the error, are in the part on calls on a frame that the caller
    keeps. *)
Definition notna_to_numpy (df : DataFrame) : ndarray :=
  mk_ndarray (df_shape df) (map (map notna_cell) (values df)).

(** [df.iloc[r0:r1, c0:c1]]: positional slicing keeps the labels of the rows
    and columns it selects; slices that reach past the frame are cut at its
    edge. *)
Definition iloc_slices (df : DataFrame) (r0 r1 c0 c1 : Z) : outcome DataFrame :=
  Returns (mk_DataFrame (slice r0 r1 (index df)) (slice c0 c1 (columns df))
             (map (slice c0 c1) (slice r0 r1 (values df)))).

(** The cell of a frame at a position, when there is one. *)
Definition cell_at (df : DataFrame) (r c : Z) : option cell :=
  if (r <? 0) || (c <? 0) then None
  else match nth_error (values df) (Z.to_nat r) with
       | Some line => nth_error line (Z.to_nat c)
       | None => None
       end.

(** ** The class [TableRange] *)

Module TableRange.

Record t : Type := mk {
  start_row : Z;
  start_col : Z;
  stop_row : Z;
  stop_col : Z
}.

(** [TableRange(start_pos, stop_pos)]: the positions are any sequences. *)
Definition __init__ (start_pos stop_pos : list Z) : outcome t :=
  if negb (length start_pos =? 2)%nat || negb (length stop_pos =? 2)%nat
  then Raises ValueError
  else
    match start_pos, stop_pos with
    | [r0; c0], [r1; c1] => Returns (mk r0 c0 r1 c1)
    | _, _ => Raises ValueError
    end.

Definition __eq__ (self other : t) : bool :=
  (start_row self =? start_row other) && (start_col self =? start_col other)
  && (stop_row self =? stop_row other) && (stop_col self =? stop_col other).

Definition start_pos (self : t) : Z * Z := (start_row self, start_col self).
Definition stop_pos (self : t) : Z * Z := (stop_row self, stop_col self).

Definition fill_inplace (self : t) (array : ndarray) (value : bool) : ndarray :=
  setitem_slices array (start_row self) (stop_row self)
    (start_col self) (stop_col self) value.

Definition to_dataframe (self : t) (df : DataFrame) : outcome DataFrame :=
  iloc_slices df (start_row self) (stop_row self) (start_col self) (stop_col self).

Definition has_min_size (self : t) (min_n_rows min_n_cols : Z) : bool :=
  if stop_row self - start_row self <? min_n_rows then false
  else if stop_col self - start_col self <? min_n_cols then false
  else true.

End TableRange.

Abbreviation TableRange := TableRange.t.

(** ** The rectangle-growth routine *)

(** First loop: [for col in range(start_col, last_col)], leaving at the first
    absent cell of the anchor row; the value is [stop_col] after the loop. *)
Fixpoint scan_cols (array_is_false_at : ndarray) (start_row : Z)
  (cols : list Z) (stop_col : Z) : outcome Z :=
  match cols with
  | [] => Returns stop_col
  | col :: rest =>
      absent <- getitem array_is_false_at start_row col ;;
      if absent then Returns stop_col
      else scan_cols array_is_false_at start_row rest (col + 1)
  end.

(** Second loop: [for row in range(start_row, last_row)], leaving at the first
    row that is absent all over the column span. *)
Fixpoint scan_rows (array_is_false_at : ndarray) (start_col stop_col : Z)
  (rows : list Z) (stop_row : Z) : outcome Z :=
  match rows with
  | [] => Returns stop_row
  | row :: rest =>
      line <- getitem_row_slice array_is_false_at row start_col stop_col ;;
      if all line then Returns stop_row
      else scan_rows array_is_false_at start_col stop_col rest (row + 1)
  end.

(** The routine itself.  Its first statement, the guard that raises
    [TypeError] unless [boolean_array.dtype] is [bool], holds by the type of
    [boolean_array]; the routine reads the array and never writes to it. *)
Definition _find_table_range_from_boolean_array_starting_at
  (start_pos : Z * Z) (boolean_array : ndarray) : outcome TableRange :=
  let '(start_row, start_col) := start_pos in
  let '(last_row, last_col) :=
    (Z.of_nat (n_rows boolean_array), Z.of_nat (n_cols boolean_array)) in
  let array_is_false_at := logical_not boolean_array in
  let '(stop_row, stop_col) := start_pos in
  stop_col <- scan_cols array_is_false_at start_row (range start_col last_col) stop_col ;;
  stop_row <- scan_rows array_is_false_at start_col stop_col (range start_row last_row) stop_row ;;
  TableRange.__init__ [start_row; start_col] [stop_row; stop_col].

(** ** The sweep *)

(** The state of the sweep: the ranges found so far and the working array. *)
Definition sweep_state : Type := list TableRange * ndarray.

(** The body of the inner loop at position [(row, col)]. *)
Definition visit (min_n_rows min_n_cols : Z) (row : Z) (st : sweep_state) (col : Z)
  : outcome sweep_state :=
  let '(list_table_range, value_exists_at) := st in
  present <- getitem value_exists_at row col ;;
  if present then
    table_range <-
      _find_table_range_from_boolean_array_starting_at (row, col) value_exists_at ;;
    if TableRange.has_min_size table_range min_n_rows min_n_cols then
      Returns (list_table_range ++ [table_range],
               TableRange.fill_inplace table_range value_exists_at false)
    else Returns st
  else Returns st.

(** The two nested loops, from a given state. *)
Definition sweep (min_n_rows min_n_cols : Z) (last_row last_col : Z)
  (st : sweep_state) : outcome sweep_state :=
  for_each
    (fun st row => for_each (visit min_n_rows min_n_cols row) (range 0 last_col) st)
    (range 0 last_row) st.

Definition find_all_table_range (df : DataFrame) (min_n_rows min_n_cols : Z)
  : outcome (list TableRange) :=
  let value_exists_at := notna_to_numpy df in
  let '(last_row, last_col) :=
    (Z.of_nat (n_rows value_exists_at), Z.of_nat (n_cols value_exists_at)) in
  st <- sweep min_n_rows min_n_cols last_row last_col ([], value_exists_at) ;;
  Returns (fst st).

(** [result == answer] on lists of ranges, as the tests compare them: the same
    length and [__eq__] element by element. *)
Fixpoint list_eq (l1 l2 : list TableRange) : bool :=
  match l1, l2 with
  | [], [] => true
  | p :: l1', q :: l2' => TableRange.__eq__ p q && list_eq l1' l2'
  | _, _ => false
  end.

(** [assertEqual(result, answer)] on the outcome of a call. *)
Definition list_eq_outcome (result : outcome (list TableRange))
  (answer : list TableRange) : bool :=
  match result with
  | Returns l => list_eq l answer
  | Raises _ => false
  end.

(** ** The arrays and frames of the module's tests *)

Definition T : bool := true.
Definition F : bool := false.

Definition test_boolean_array : ndarray :=
  mk_ndarray (5%nat, 4%nat)
    [[F; T; T; F];
     [F; F; T; F];
     [F; T; F; F];
     [F; F; F; T];
     [F; F; F; F]].

(** A frame whose first anchor grows a candidate that is too narrow. *)
Definition staircase_df : DataFrame :=
  pd_DataFrame
    [[Str "x"; NaN];
     [Int 1; Int 2]].

Definition test_df : DataFrame :=
  pd_DataFrame
    [[Str "a"; Str "b"; NaN; NaN; NaN];
     [Int 0; Float 5 1; NaN; Str "c"; Str "d"];
     [NaN; NaN; NaN; NaN; Int (-4)]].


(** ** Calls on a frame that the caller keeps *)

(** The objects that a call of [find_all_table_range] works on, each under a
    reference: the frames that the caller holds, and the arrays that
    [to_numpy] hands out.  A frame comes with pandas's choice for it, whether
    [df.notna().to_numpy()] is a read-only view; an array comes with its flag
    [writeable].  A store holds an object under every reference and knows the
    reference that the next new array gets. *)
Record frame_object : Type := mk_frame_object {
  frame : DataFrame;
  notna_read_only : bool
}.

Record array_object : Type := mk_array_object {
  array : ndarray;
  writeable : bool
}.

Record store : Type := mk_store {
  frames : nat -> frame_object;
  arrays : nat -> array_object;
  next_array : nat
}.

(** A new array object, under the next reference. *)
Definition new_array (o : array_object) (h : store) : nat * store :=
  (next_array h,
   mk_store (frames h)
     (fun r => if Nat.eqb r (next_array h) then o else arrays h r)
     (S (next_array h))).

(** The object under a reference of an array is replaced. *)
Definition set_array (ref : nat) (o : array_object) (h : store) : store :=
  mk_store (frames h) (fun r => if Nat.eqb r ref then o else arrays h r)
    (next_array h).

(** [df.notna().to_numpy()] for the frame under the reference [df]: the
    frame is read, and the array is a new object. *)
Definition notna_to_numpy_of (df : nat) (h : store) : nat * store :=
  let o := frames h df in
  new_array (mk_array_object (notna_to_numpy (frame o)) (negb (notna_read_only o))) h.

(** [self.fill_inplace(array, value)], that is
    [array[start_row:stop_row, start_col:stop_col] = value], on the array
    under a reference: the object is written in place, and numpy raises
    [ValueError] when the array is read-only. *)
Definition fill_inplace_of (self : TableRange) (array_ref : nat) (value : bool)
  (h : store) : outcome unit * store :=
  let o := arrays h array_ref in
  if writeable o
  then (Returns tt,
        set_array array_ref
          (mk_array_object (TableRange.fill_inplace self (array o) value)
             (writeable o)) h)
  else (Raises ValueError, h).

(** [for x in xs: st = body(st, x)] over a store, stopping at the first
    exception; the store stays as the exception found it. *)
Fixpoint for_each_of {S : Type} (body : S -> Z -> store -> outcome S * store)
  (xs : list Z) (st : S) (h : store) : outcome S * store :=
  match xs with
  | [] => (Returns st, h)
  | x :: rest =>
      match body st x h with
      | (Returns st', h') => for_each_of body rest st' h'
      | (Raises e, h') => (Raises e, h')
      end
  end.

(** The body of the inner loop of [find_all_table_range], with the working
    array under the reference [value_exists_at].  The growth routine is given
    the array and only reads it. *)
Definition visit_of (min_n_rows min_n_cols : Z) (value_exists_at : nat) (row : Z)
  (list_table_range : list TableRange) (col : Z) (h : store)
  : outcome (list TableRange) * store :=
  match getitem (array (arrays h value_exists_at)) row col with
  | Raises e => (Raises e, h)
  | Returns false => (Returns list_table_range, h)
  | Returns true =>
      match _find_table_range_from_boolean_array_starting_at (row, col)
              (array (arrays h value_exists_at)) with
      | Raises e => (Raises e, h)
      | Returns table_range =>
          if TableRange.has_min_size table_range min_n_rows min_n_cols then
            match fill_inplace_of table_range value_exists_at false h with
            | (Returns _, h') => (Returns (list_table_range ++ [table_range]), h')
            | (Raises e, h') => (Raises e, h')
            end
          else (Returns list_table_range, h)
      end
  end.

(** [find_all_table_range(df, min_n_rows, min_n_cols)] for the frame under
    the reference [df]: the outcome of the call, and the store it leaves. *)
Definition find_all_table_range_of (df : nat) (min_n_rows min_n_cols : Z)
  (h : store) : outcome (list TableRange) * store :=
  let '(value_exists_at, h) := notna_to_numpy_of df h in
  let '(last_row, last_col) :=
    (Z.of_nat (n_rows (array (arrays h value_exists_at))),
     Z.of_nat (n_cols (array (arrays h value_exists_at)))) in
  for_each_of
    (fun list_table_range row =>
       for_each_of (visit_of min_n_rows min_n_cols value_exists_at row)
         (range 0 last_col) list_table_range)
    (range 0 last_row) [] h.

(** A store that holds the frame [df] under every reference of a frame, with
    pandas's choice [read_only] for it, and no array yet. *)
Definition store_of (df : DataFrame) (read_only : bool) : store :=
  mk_store (fun _ => mk_frame_object df read_only)
    (fun _ => mk_array_object (mk_ndarray (0%nat, 0%nat) []) true) 0.

(** The frame [pd.DataFrame([[1, 2], [3, 4]])], which pandas holds in one
    block. *)
Definition one_block_df : DataFrame :=
  pd_DataFrame [[Int 1; Int 2]; [Int 3; Int 4]].

(** * The module [logger] *)

(** What the module takes from the [colorama] package: the constants it
    names, and the stream that [colorama.init()] puts in place of
    [sys.stdout].  [AnsiToWin32_write] is what that stream passes on of a
    text written to it: the text as it is on a terminal that takes the
    codes, the text without its codes on a stream that is no terminal. *)
Record colorama : Type := mk_colorama {
  Fore_RED : string;
  Style_RESET_ALL : string;
  AnsiToWin32_write : string -> string
}.

(** What the module does to the outside: the text that has reached the
    standard output of the program, the class attribute
    [Logger._colorama_initializeed], and the calls made to [colorama] and to
    the file opened by [save_log], in order since the program started. *)
Inductive call : Type :=
| colorama_init
| colorama_deinit
| open_file (path mode : string)
| write (text : string)
| close_file
| remove_file (path : string).

Record world : Type := mk_world {
  stdout : string;
  _colorama_initializeed : bool;
  calls : list call
}.

(** The stream that [sys.stdout] names after a sequence of calls, as the
    number of wrappers of [colorama] around the standard output of the
    program.  [colorama.init()] remembers the stream in place in
    [orig_stdout] and puts its wrapper around it; [colorama.deinit()] puts
    the stream that [orig_stdout] remembers back in place, if any. *)
Fixpoint sys_stdout_from (current : nat) (orig_stdout : option nat)
  (cs : list call) : nat :=
  match cs with
  | [] => current
  | colorama_init :: rest => sys_stdout_from (S current) (Some current) rest
  | colorama_deinit :: rest =>
      sys_stdout_from
        (match orig_stdout with Some stream => stream | None => current end)
        orig_stdout rest
  | _ :: rest => sys_stdout_from current orig_stdout rest
  end.

Definition sys_stdout (cs : list call) : nat := sys_stdout_from 0 None cs.

(** [sys.stdout.write(text)]: the text goes through the wrappers in place,
    and what they pass on reaches the standard output. *)
Definition sys_stdout_write (c : colorama) (text : string) (w : world) : world :=
  mk_world
    (stdout w ++ Nat.iter (sys_stdout (calls w)) (AnsiToWin32_write c) text)%string
    (_colorama_initializeed w) (calls w).

(** An argument that may be a string, a message, or something else. *)
Inductive py_object (M : Type) : Type :=
| PyStr (s : string)
| PyMsg (m : M)
| PyInt (n : Z).

Arguments PyStr {M} s.
Arguments PyMsg {M} m.
Arguments PyInt {M} n.

Module ColorMsg.

Record t : Type := mk {
  _text : string;
  _color : string;
  _style : string;
  _background_color : string
}.

Definition __init__ (text color style background_color : string) : t :=
  mk text color style background_color.

Definition __str__ (c : colorama) (self : t) : string :=
  (_style self ++ _color self ++ _background_color self ++ _text self
   ++ Style_RESET_ALL c)%string.

Definition text (self : t) : string := _text self.

Definition __eq__ (self : t) (other : py_object t) : bool :=
  match other with
  | PyMsg other =>
      let text_eq := String.eqb (text self) (text other) in
      let color_eq := String.eqb (_color self) (_color other) in
      let style_eq := String.eqb (_style self) (_style other) in
      let background_eq :=
        String.eqb (_background_color self) (_background_color other) in
      text_eq && color_eq && style_eq && background_eq
  | _ => false
  end.

(** [print(str(self), end='')]: the text is written to [sys.stdout], and
    nothing after it. *)
Definition print (c : colorama) (self : t) (w : world) : world :=
  sys_stdout_write c (__str__ c self) w.

End ColorMsg.

Module Logger.

Record t : Type := mk {
  _log : list ColorMsg.t;
  print_on_append : bool;
  alert_color : string;
  alert_style : string;
  alert_background_color : string
}.

Definition __init__ (print_on_append : bool)
  (alert_color alert_style alert_background_color : string) (w : world)
  : t * world :=
  let w :=
    if negb (_colorama_initializeed w)
    then mk_world (stdout w) true (calls w ++ [colorama_init])
    else w in
  (mk [] print_on_append alert_color alert_style alert_background_color, w).

Definition clear_log (self : t) : t :=
  mk [] (print_on_append self) (alert_color self) (alert_style self)
    (alert_background_color self).

Definition __del__ (self : t) (w : world) : t * world :=
  let w :=
    if _colorama_initializeed w
    then mk_world (stdout w) (_colorama_initializeed w) (calls w ++ [colorama_deinit])
    else w in
  (clear_log self, w).

Definition last_msg (self : t) : ColorMsg.t :=
  if (length (_log self) =? 0)%nat then ColorMsg.__init__ EmptyString EmptyString EmptyString EmptyString
  else last (_log self) (ColorMsg.__init__ EmptyString EmptyString EmptyString EmptyString).

(** The logger and the world after the call come with its outcome, since an
    exception leaves both to the caller. *)
Definition append (c : colorama) (self : t) (msg_or_str : py_object ColorMsg.t)
  (w : world) : outcome unit * t * world :=
  let msg :=
    match msg_or_str with
    | PyStr text => PyMsg (ColorMsg.__init__ text EmptyString EmptyString EmptyString)
    | _ => msg_or_str
    end in
  match msg with
  | PyMsg msg =>
      let self' :=
        mk (_log self ++ [msg]) (print_on_append self) (alert_color self)
          (alert_style self) (alert_background_color self) in
      if print_on_append self then (Returns tt, self', ColorMsg.print c msg w)
      else (Returns tt, self', w)
  | _ => (Raises TypeError, self, w)
  end.

Definition append_alert (c : colorama) (self : t) (text : py_object ColorMsg.t)
  (w : world) : outcome unit * t * world :=
  match text with
  | PyStr text =>
      append c self
        (PyMsg (ColorMsg.__init__ text (alert_color self) (alert_style self)
                  (alert_background_color self))) w
  | _ => (Raises TypeError, self, w)
  end.

(** [with open(path, 'w') as f: for msg in self._log: f.write(msg._text)] *)
Definition save_log (self : t) (path : string) (w : world) : world :=
  let w := mk_world (stdout w) (_colorama_initializeed w)
             (calls w ++ [open_file path "w"]) in
  let w :=
    fold_left
      (fun w msg =>
         mk_world (stdout w) (_colorama_initializeed w)
           (calls w ++ [write (ColorMsg._text msg)]))
      (_log self) w in
  mk_world (stdout w) (_colorama_initializeed w) (calls w ++ [close_file]).

End Logger.

(** The text that a sequence of calls leaves in the file it opens last: a file
    opened for writing starts empty and holds what is written to it. *)
Fixpoint file_content_from (content : string) (cs : list call) : string :=
  match cs with
  | [] => content
  | open_file _ _ :: rest => file_content_from EmptyString rest
  | write text :: rest => file_content_from (content ++ text) rest
  | _ :: rest => file_content_from content rest
  end.

Definition file_content (cs : list call) : string := file_content_from EmptyString cs.

(** The life of loggers in a program: creations, deletions and appends. *)
Inductive logger_event : Type :=
| created (print_on_append : bool)
    (alert_color alert_style alert_background_color : string)
| deleted.

Definition logger_step (w : world) (e : logger_event) : world :=
  match e with
  | created p c s b => snd (Logger.__init__ p c s b w)
  | deleted => snd (Logger.__del__ (Logger.mk [] false EmptyString EmptyString EmptyString) w)
  end.

(** * The module [excel_table_conversion] *)

(** ** Python strings *)

(** [s.startswith(prefix)] *)
Definition startswith (s prefix : string) : bool := String.prefix prefix s.

(** [s.endswith(suffix)]: the suffix is no longer than [s] and equals the
    end of [s] of the same length. *)
Definition endswith (s suffix : string) : bool :=
  (String.length suffix <=? String.length s)%nat
  && String.eqb
       (substring (String.length s - String.length suffix)
          (String.length suffix) s)
       suffix.

(** ** The class [ExcelTableFormat] *)

Module ExcelTableFormat.

Record t : Type := mk {
  min_n_rows : Z;
  min_n_cols : Z;
  header_row_offset : Z;
  header_in_sheet_name : string;
  header_in_filename : string
}.

Definition acceptable_sheet_name (self : t) (sheet_name : string) : bool :=
  startswith sheet_name (header_in_sheet_name self).

Definition acceptable_excel_filename (self : t) (filename : string) : bool :=
  startswith filename (header_in_filename self) && endswith filename ".xlsx".

Definition acceptable_csv_filename (self : t) (filename : string) : bool :=
  startswith filename (header_in_filename self) && endswith filename ".csv".

End ExcelTableFormat.

(** [merge._acceptable_csv_filename] *)
Definition _acceptable_csv_filename
  (filename header_in_csv_filename tail_in_csv_filename : string) : bool :=
  startswith filename header_in_csv_filename
  && endswith filename (tail_in_csv_filename ++ ".csv").

(** ** Frames with a header *)

(** A frame whose column labels are cells, as a frame is once a row of cells
    has been made its header; [DataFrame] above is the frame with the integer
    labels that reading a sheet without header gives. *)
Record Table : Type := mk_Table {
  t_index : list Z;
  t_columns : list cell;
  t_values : list (list cell)
}.

(** [l[start:]] *)
Definition slice_from {A : Type} (start : Z) (l : list A) : list A :=
  slice start (Z.of_nat (length l)) l.

(** The cells of a frame are the values that pandas holds.  Reading a row as
    a Series brings its cells to one dtype, the common dtype of the columns:
    an integer becomes a float when the other columns of the row hold floats
    and nothing but numbers.  A string, a float and [np.nan] come back as
    they are, whatever the other columns hold; these are the cells that the
    statements on rows read as a Series speak of. *)
Definition dtype_stable (x : cell) : bool :=
  match x with
  | Str _ | Float _ _ | NaN => true
  | Int _ | PyNone => false
  end.

(** [df.iloc[i, :]]: the cells of row [i]; an integer position outside the
    frame raises [IndexError], a negative one counts from the end.  pandas
    makes the row a Series of one dtype, the common dtype of the columns; the
    cells are given here as the frame has them, which is what the Series
    holds at every cell that is [dtype_stable]. *)
Definition iloc_row (df : DataFrame) (i : Z) : outcome (list cell) :=
  k <- norm_index i (length (index df)) ;;
  match nth_error (values df) k with
  | Some line => Returns line
  | None => Raises IndexError
  end.

(** [df.iloc[i, j]] *)
Definition iloc_cell (df : DataFrame) (i j : Z) : outcome cell :=
  k <- norm_index i (length (index df)) ;;
  l <- norm_index j (length (columns df)) ;;
  match nth_error (values df) k with
  | Some line =>
      match nth_error line l with
      | Some x => Returns x
      | None => Raises IndexError
      end
  | None => Raises IndexError
  end.

(** Whether a column label is the string [name]. *)
Definition is_label (name : string) (label : cell) : bool :=
  match label with
  | Str s => String.eqb name s
  | _ => false
  end.

(** [table.insert(loc, column, value)] with a scalar value, in place:
    [ValueError] when the label is already a column, [IndexError] when [loc]
    is not a position between the columns. *)
Definition insert (table : Table) (loc : nat) (column : string) (value : cell)
  : outcome Table :=
  if existsb (is_label column) (t_columns table) then Raises ValueError
  else if (length (t_columns table) <? loc)%nat then Raises IndexError
  else
    Returns
      (mk_Table (t_index table)
         (firstn loc (t_columns table) ++ Str column :: skipn loc (t_columns table))
         (map (fun line => firstn loc line ++ value :: skipn loc line)
            (t_values table))).

(** [len(df.columns)] *)
Definition n_columns (df : DataFrame) : nat := length (columns df).

(** [ExcelTableConverter._get_table], with the converter's format.  The
    assignment to [table.columns] raises [ValueError] when the header has
    not as many cells as the table has columns. *)
Definition _get_table (table_format : ExcelTableFormat.t) (df : DataFrame)
  (table_range : TableRange) : outcome Table :=
  table <- TableRange.to_dataframe table_range df ;;
  columns <- iloc_row table (ExcelTableFormat.header_row_offset table_format) ;;
  let body :=
    slice_from (ExcelTableFormat.header_row_offset table_format + 1) (values table) in
  if negb (length columns =? n_columns table)%nat
  then Raises ValueError
  else Returns (mk_Table (range 0 (Z.of_nat (length body))) columns body).

Definition identity_transform (df : DataFrame) (table_range : TableRange)
  (table : Table) : outcome Table :=
  Returns table.

Definition add_longname_and_shortname (df : DataFrame) (table_range : TableRange)
  (table : Table) : outcome Table :=
  let LONGNAME_ROW_OFFSET := -2 in
  let SHORTNAME_ROW_OFFSET := -1 in
  longname <-
    iloc_cell df (TableRange.start_row table_range + LONGNAME_ROW_OFFSET)
      (TableRange.start_col table_range) ;;
  shortname <-
    iloc_cell df (TableRange.start_row table_range + SHORTNAME_ROW_OFFSET)
      (TableRange.start_col table_range) ;;
  table <- insert table 0 "longname" longname ;;
  table <- insert table 1 "shortname" shortname ;;
  Returns table.

(** ** Paths *)

(** [s.rfind(c)] for a character [c]: its last position in [s], or -1. *)
Fixpoint rfind_from (c : Ascii.ascii) (s : string) (i found : Z) : Z :=
  match s with
  | EmptyString => found
  | String a rest => rfind_from c rest (i + 1) (if Ascii.eqb a c then i else found)
  end.

Definition rfind (s : string) (c : Ascii.ascii) : Z := rfind_from c s 0 (-1).

(** [s[start:stop]] for positions inside the string. *)
Definition str_slice (s : string) (start stop : Z) : string :=
  substring (Z.to_nat start) (Z.to_nat (stop - start)) s.

(** The separators of [os.path]: [sep] and, on some systems, [altsep]. *)
Record os_path : Type := mk_os_path {
  sep : Ascii.ascii;
  altsep : option Ascii.ascii
}.

(** The loop of [genericpath._splitext] over the positions between the last
    separator and the last dot: it leaves, splitting at the dot, at the first
    character that is not a dot. *)
Fixpoint skip_leading_dots (p : string) (extsep : Ascii.ascii) (dotIndex : Z)
  (filenameIndexes : list Z) : option (string * string) :=
  match filenameIndexes with
  | [] => None
  | filenameIndex :: rest =>
      if negb (String.eqb (str_slice p filenameIndex (filenameIndex + 1))
                 (String extsep EmptyString))
      then Some (str_slice p 0 dotIndex,
                 str_slice p dotIndex (Z.of_nat (String.length p)))
      else skip_leading_dots p extsep dotIndex rest
  end.

(** [genericpath._splitext(p, sep, altsep, extsep)], which [os.path.splitext]
    calls with the separators of the system and the dot. *)
Definition _splitext (p : string) (sep : Ascii.ascii) (altsep : option Ascii.ascii)
  (extsep : Ascii.ascii) : string * string :=
  let sepIndex := rfind p sep in
  let sepIndex :=
    match altsep with
    | Some altsep => Z.max sepIndex (rfind p altsep)
    | None => sepIndex
    end in
  let dotIndex := rfind p extsep in
  let split :=
    if dotIndex >? sepIndex
    then skip_leading_dots p extsep dotIndex (range (sepIndex + 1) dotIndex)
    else None in
  match split with
  | Some parts => parts
  | None => (p, EmptyString)
  end.

Definition splitext (os : os_path) (p : string) : string * string :=
  _splitext p (sep os) (altsep os) "."%char.

Definition _convert_to_csv_filepath (os : os_path) (filepath tail_in_csv_filename : string)
  : string :=
  let '(filename_wo_ext, ext) := splitext os filepath in
  (filename_wo_ext ++ tail_in_csv_filename ++ ".csv")%string.

(** Whether a character occurs in a string, and whether a string is made of
    dots only. *)
Fixpoint occurs (c : Ascii.ascii) (s : string) : bool :=
  match s with
  | EmptyString => false
  | String a rest => Ascii.eqb a c || occurs c rest
  end.

Fixpoint only_dots (s : string) : bool :=
  match s with
  | EmptyString => true
  | String a rest => Ascii.eqb a "."%char && only_dots rest
  end.

(** The directory part of a path: empty, or ending in a separator of the
    system. *)
Definition directory_part (os : os_path) (dir : string) : Prop :=
  dir = EmptyString
  \/ exists d c,
       dir = (d ++ String c EmptyString)%string
       /\ (c = sep os \/ altsep os = Some c).

(** ** The walk over the Excel files *)

(** The two systems of [os.path]. *)
Definition posixpath : os_path := mk_os_path "/"%char None.
Definition ntpath : os_path := mk_os_path (ascii_of_nat 92) (Some "/"%char).

(** What [convert_all_to_csv] works with, as the module's test replaces it:
    the directories and file names that [os.walk] yields, [os.path.relpath]
    and [os.path.join], the file system [FS] with [os.path.exists] and
    [os.path.getmtime] (a time stamp, compared as an integer), and what the
    conversion and the backup of one file do to the file system. *)
Record collaborators (FS : Type) : Type := mk_collaborators {
  os_walk : FS -> string -> list (string * list string);
  os_path_relpath : string -> string -> string;
  os_path_join : string -> string -> string;
  os_path_exists : FS -> string -> bool;
  os_path_getmtime : FS -> string -> Z;
  do_convert_to_csv : FS -> string -> string -> FS;
  do_backup_excel : FS -> string -> string -> FS
}.

Arguments os_walk {FS} _ _ _.
Arguments os_path_relpath {FS} _ _ _.
Arguments os_path_join {FS} _ _ _.
Arguments os_path_exists {FS} _ _ _.
Arguments os_path_getmtime {FS} _ _ _.
Arguments do_convert_to_csv {FS} _ _ _ _.
Arguments do_backup_excel {FS} _ _ _ _.

(** The calls that the walk makes on the converter, in order. *)
Inductive conversion_call : Type :=
| convert_to_csv (source_excel_filepath target_csv_filepath : string)
| _backup_excel (source_excel_filepath target_excel_filepath : string).

Definition _already_converted {FS : Type} (env : collaborators FS) (fs : FS)
  (source_filepath target_filepath : string) : bool :=
  if negb (os_path_exists env fs target_filepath) then false
  else if os_path_getmtime env fs source_filepath
          >? os_path_getmtime env fs target_filepath then false
  else true.

(** The body of the inner loop: the file system and the calls made so far,
    after the file [filename] of the directory [subdir]. *)
Definition convert_one {FS : Type} (os : os_path) (env : collaborators FS)
  (table_format : ExcelTableFormat.t)
  (skip_converted backup_excel : bool) (tail_in_csv_filename : string)
  (subdir target_dir : string)
  (st : FS * list conversion_call) (filename : string)
  : FS * list conversion_call :=
  let '(fs, made) := st in
  if negb (ExcelTableFormat.acceptable_excel_filename table_format filename)
  then st
  else
    let source_excel_filepath := os_path_join env subdir filename in
    let target_excel_filepath := os_path_join env target_dir filename in
    let target_csv_filepath :=
      _convert_to_csv_filepath os target_excel_filepath tail_in_csv_filename in
    if skip_converted
       && _already_converted env fs source_excel_filepath target_csv_filepath
    then st
    else
      let fs := do_convert_to_csv env fs source_excel_filepath target_csv_filepath in
      let made := made ++ [convert_to_csv source_excel_filepath target_csv_filepath] in
      if backup_excel
      then (do_backup_excel env fs source_excel_filepath target_excel_filepath,
            made ++ [_backup_excel source_excel_filepath target_excel_filepath])
      else (fs, made).

Definition convert_all_to_csv {FS : Type} (os : os_path) (env : collaborators FS)
  (table_format : ExcelTableFormat.t) (fs : FS)
  (source_rootdir target_rootdir : string)
  (skip_converted backup_excel : bool) (tail_in_csv_filename : string)
  : FS * list conversion_call :=
  fold_left
    (fun st entry =>
       let '(subdir, filenames) := entry in
       let relative_path := os_path_relpath env subdir source_rootdir in
       let target_dir := os_path_join env target_rootdir relative_path in
       fold_left
         (convert_one os env table_format skip_converted backup_excel
            tail_in_csv_filename subdir target_dir)
         filenames st)
    (os_walk env fs source_rootdir) (fs, []).

(** The Excel files of a walk, in its order: for each, the source path, the
    path of the CSV file and the path of the backup. *)
Definition excel_files {FS : Type} (os : os_path) (env : collaborators FS)
  (table_format : ExcelTableFormat.t)
  (source_rootdir target_rootdir tail_in_csv_filename : string)
  (walk : list (string * list string)) : list (string * string * string) :=
  flat_map
    (fun entry : string * list string =>
       let target_dir :=
         os_path_join env target_rootdir
           (os_path_relpath env (fst entry) source_rootdir) in
       map
         (fun filename =>
            (os_path_join env (fst entry) filename,
             _convert_to_csv_filepath os (os_path_join env target_dir filename)
               tail_in_csv_filename,
             os_path_join env target_dir filename))
         (filter (ExcelTableFormat.acceptable_excel_filename table_format)
            (snd entry)))
    walk.

(** The calls made for one Excel file that is converted. *)
Definition calls_for (backup_excel : bool) (file : string * string * string)
  : list conversion_call :=
  let '(source, target_csv, target_excel) := file in
  convert_to_csv source target_csv
    :: (if backup_excel then [_backup_excel source target_excel] else []).

(** * The module [merge] *)

(** A frame as [pd.read_csv] returns it: column labels that are strings, and
    rows of cells. *)
Record CsvFrame : Type := mk_CsvFrame {
  csv_columns : list string;
  csv_values : list (list cell)
}.

(** What [merge_csv] works with: the directories and file names that
    [os.walk] yields, [os.path.join], the frame that [pd.read_csv] reads at a
    path, the texts that [repr] and the formatting of an integer and of a
    list give, and the frame that [pd.concat(frames, ignore_index=True)]
    makes of a list of frames that is not empty.  How pandas lays the rows
    of the frames one after the other, and to which dtype it brings each
    column on the way, is pandas's and is taken as it is. *)
Record merge_collaborators : Type := mk_merge_collaborators {
  walk : string -> list (string * list string);
  path_join : string -> string -> string;
  read_csv : string -> CsvFrame;
  repr_str : string -> string;
  str_int : Z -> string;
  str_list : list string -> string;
  concat : list CsvFrame -> CsvFrame
}.

Definition newline : string := String (ascii_of_nat 10) EmptyString.

(** [a != b] on two indexes of the same length, element by element, and
    [.any()]. *)
Definition index_ne (a b : list string) : list bool :=
  map (fun xy => negb (String.eqb (fst xy) (snd xy))) (combine a b).

Definition any (v : list bool) : bool := existsb (fun b => b) v.

(** [index[mask].tolist()] *)
Fixpoint masked (labels : list string) (mask : list bool) : list string :=
  match labels, mask with
  | x :: labels, true :: mask => x :: masked labels mask
  | _ :: labels, false :: mask => masked labels mask
  | _, _ => []
  end.

(** [pd.concat(frames, ignore_index=True)]: [ValueError] when there is no
    frame to concatenate, and pandas's frame otherwise. *)
Definition pd_concat (env : merge_collaborators) (frames : list CsvFrame)
  : outcome CsvFrame :=
  match frames with
  | [] => Raises ValueError
  | _ :: _ => Returns (concat env frames)
  end.

(** The state of the loops of [merge_csv]. *)
Record merge_state : Type := mk_merge_state {
  cols : option (list string);
  list_df : list CsvFrame;
  logger : Logger.t;
  outside : world
}.

(** [logger.append_alert(text)] and [logger.append(text)] for a string. *)
Definition alert (c : colorama) (text : string) (st : merge_state) : merge_state :=
  let '(_, l, w) := Logger.append_alert c (logger st) (PyStr text) (outside st) in
  mk_merge_state (cols st) (list_df st) l w.

Definition note (c : colorama) (text : string) (st : merge_state) : merge_state :=
  let '(_, l, w) := Logger.append c (logger st) (PyStr text) (outside st) in
  mk_merge_state (cols st) (list_df st) l w.

(** The body of the inner loop of [merge_csv]. *)
Definition merge_one (c : colorama) (env : merge_collaborators)
  (header_in_csv_filename tail_in_csv_filename : string) (delete_errorfile : bool)
  (subdir : string) (st : merge_state) (filename : string) : merge_state :=
  if _acceptable_csv_filename filename header_in_csv_filename tail_in_csv_filename
  then
    let csv_filepath := path_join env subdir filename in
    let df := read_csv env (path_join env subdir filename) in
    let st :=
      match cols st with
      | None => mk_merge_state (Some (csv_columns df)) (list_df st) (logger st)
                  (outside st)
      | Some _ => st
      end in
    let cols_now := match cols st with Some cs => cs | None => [] end in
    let len_cols := Z.of_nat (length cols_now) in
    let len_df := Z.of_nat (length (csv_columns df)) in
    let '(st, error_occurred) :=
      if len_df >? len_cols then
        (alert c (" !Error: too many columns in " ++ repr_str env csv_filepath
                  ++ "; delete " ++ str_int env (len_df - len_cols)
                  ++ " column(s)" ++ newline) st, true)
      else if len_df <? len_cols then
        (alert c (" !Error: too few columns in " ++ repr_str env csv_filepath
                  ++ "; add " ++ str_int env (len_cols - len_df)
                  ++ " column(s)" ++ newline) st, true)
      else if any (index_ne (csv_columns df) cols_now) then
        (alert c (" !Error: table header not match in " ++ repr_str env csv_filepath
                  ++ "; change columns "
                  ++ str_list env
                       (masked (csv_columns df) (index_ne (csv_columns df) cols_now))
                  ++ " into "
                  ++ str_list env
                       (masked cols_now (index_ne (csv_columns df) cols_now))
                  ++ newline) st, true)
      else (st, false) in
    if error_occurred then
      if delete_errorfile then
        let st :=
          mk_merge_state (cols st) (list_df st) (logger st)
            (mk_world (stdout (outside st)) (_colorama_initializeed (outside st))
               (calls (outside st) ++ [remove_file csv_filepath])) in
        note c (" +-CSV file deleted: " ++ repr_str env csv_filepath ++ newline) st
      else st
    else
      mk_merge_state (cols st) (list_df st ++ [df]) (logger st) (outside st)
  else st.

Definition merge_csv (c : colorama) (env : merge_collaborators)
  (rootdir header_in_csv_filename tail_in_csv_filename : string)
  (logger : Logger.t) (delete_errorfile : bool) (w : world)
  : outcome CsvFrame * merge_state :=
  let st :=
    fold_left
      (fun st entry =>
         fold_left
           (merge_one c env header_in_csv_filename tail_in_csv_filename
              delete_errorfile (fst entry))
           (snd entry) st)
      (walk env rootdir) (mk_merge_state None [] logger w) in
  (pd_concat env (list_df st), st).

(** The CSV files of a walk, in its order, as they are read. *)
Definition csv_files (env : merge_collaborators)
  (header_in_csv_filename tail_in_csv_filename : string)
  (entries : list (string * list string)) : list (string * CsvFrame) :=
  flat_map
    (fun entry : string * list string =>
       map (fun filename =>
              (path_join env (fst entry) filename,
               read_csv env (path_join env (fst entry) filename)))
         (filter
            (fun filename =>
               _acceptable_csv_filename filename header_in_csv_filename
                 tail_in_csv_filename)
            (snd entry)))
    entries.

(** Whether a frame has the given column labels. *)
Definition has_columns (labels : list string) (file : string * CsvFrame) : bool :=
  if list_eq_dec string_dec (csv_columns (snd file)) labels then true else false.

(** The labels that a run of [merge_csv] compares the files with: those it
    holds already, or else those of the first file it reads. *)
Definition reference_columns (held : option (list string))
  (files : list (string * CsvFrame)) : list string :=
  match held with
  | Some labels => labels
  | None =>
      match files with
      | file :: _ => csv_columns (snd file)
      | [] => []
      end
  end.

(** The paths that a sequence of calls removes. *)
Definition removed (cs : list call) : list string :=
  flat_map (fun x => match x with remove_file path => [path] | _ => [] end) cs.

(** The number of messages in the log of the logger that [merge_csv]
    reports to. *)
Definition logged (st : merge_state) : nat := length (Logger._log (logger st)).

(** ** Vocabulary of the statements *)

(** The cell [(r, c)] lies in the rectangle of a range. *)
Definition covers (rng : TableRange) (r c : Z) : Prop :=
  TableRange.start_row rng <= r < TableRange.stop_row rng
  /\ TableRange.start_col rng <= c < TableRange.stop_col rng.

(** Two ranges share no cell. *)
Definition disjoint (p q : TableRange) : Prop :=
  forall r c, covers p r c -> covers q r c -> False.

(** A position inside an array. *)
Definition in_bounds (a : ndarray) (r c : Z) : Prop :=
  0 <= r < Z.of_nat (n_rows a) /\ 0 <= c < Z.of_nat (n_cols a).

(** The content of a cell, read without the bounds check. *)
Definition peek (a : ndarray) (r c : Z) : bool :=
  nth (Z.to_nat c) (nth (Z.to_nat r) (data a) []) false.

(** The start of every range does not exceed its stop. *)
Definition ordered (rng : TableRange) : Prop :=
  TableRange.start_row rng <= TableRange.stop_row rng
  /\ TableRange.start_col rng <= TableRange.stop_col rng.

(** A range with no row or no column. *)
Definition degenerate (rng : TableRange) : Prop :=
  TableRange.stop_row rng = TableRange.start_row rng
  \/ TableRange.stop_col rng = TableRange.start_col rng.

(** What the sweep knows about a range it has accepted, when it works on row
    [row] with working array [arr], having started from the array [a0]. *)
Definition accepted (a0 arr : ndarray) (min_n_rows min_n_cols row : Z)
  (p : TableRange) : Prop :=
  TableRange.has_min_size p min_n_rows min_n_cols = true
  /\ 0 <= TableRange.start_row p < TableRange.stop_row p
  /\ TableRange.stop_row p <= Z.of_nat (n_rows a0)
  /\ 0 <= TableRange.start_col p < TableRange.stop_col p
  /\ TableRange.stop_col p <= Z.of_nat (n_cols a0)
  /\ TableRange.start_row p <= row
  /\ (forall c, TableRange.start_col p <= c < TableRange.stop_col p ->
        peek a0 (TableRange.start_row p) c = true)
  /\ (forall r c, covers p r c -> peek arr r c = false).

(** The invariant of the sweep. *)
Definition sweep_inv (a0 : ndarray) (min_n_rows min_n_cols row : Z)
  (st : sweep_state) : Prop :=
  well_shaped (snd st) = true
  /\ shape (snd st) = shape a0
  /\ (forall r c, in_bounds a0 r c -> peek (snd st) r c = true -> peek a0 r c = true)
  /\ Forall (accepted a0 (snd st) min_n_rows min_n_cols row) (fst st)
  /\ ForallOrdPairs disjoint (fst st).

(** The position [(r, c)] comes before [(row, col)] in the order of the
    sweep: rows first, columns within a row. *)
Definition swept_before (r c row col : Z) : Prop :=
  r < row \/ (r = row /\ c < col).

(** A range is the result of the growth routine from a present anchor, on a
    working array lying below the array [a0] the sweep started from. *)
Definition grown_from (a0 : ndarray) (p : TableRange) : Prop :=
  exists arr,
    well_shaped arr = true
    /\ shape arr = shape a0
    /\ (forall r c, in_bounds a0 r c -> peek arr r c = true -> peek a0 r c = true)
    /\ in_bounds a0 (TableRange.start_row p) (TableRange.start_col p)
    /\ peek arr (TableRange.start_row p) (TableRange.start_col p) = true
    /\ _find_table_range_from_boolean_array_starting_at
         (TableRange.start_row p, TableRange.start_col p) arr = Returns p.

(** The cell of a table at a position, when there is one. *)
Definition table_cell_at (table : Table) (i j : Z) : option cell :=
  if (i <? 0) || (j <? 0) then None
  else match nth_error (t_values table) (Z.to_nat i) with
       | Some line => nth_error line (Z.to_nat j)
       | None => None
       end.

(** A range cannot grow: the cell after its header row, and the row after
    its last row within its columns, hold only cells that are absent from the
    array [a0] or that lie in one of the ranges [earlier]. *)
Definition cannot_grow (a0 : ndarray) (earlier : list TableRange)
  (p : TableRange) : Prop :=
  (TableRange.stop_col p < Z.of_nat (n_cols a0) ->
   peek a0 (TableRange.start_row p) (TableRange.stop_col p) = false
   \/ exists q, In q earlier
                /\ covers q (TableRange.start_row p) (TableRange.stop_col p))
  /\ (TableRange.stop_row p < Z.of_nat (n_rows a0) ->
      forall c, TableRange.start_col p <= c < TableRange.stop_col p ->
        peek a0 (TableRange.stop_row p) c = false
        \/ exists q, In q earlier /\ covers q (TableRange.stop_row p) c).

(** * Proofs *)

(** ** The module's unit tests, replayed on the embedding *)

Example test_eq :
  TableRange.__eq__ (TableRange.mk 1 1 2 3) (TableRange.mk 1 1 2 3) = true
  /\ TableRange.__eq__ (TableRange.mk 1 1 2 3) (TableRange.mk 1 1 2 4) = false.
Proof. split; reflexivity. Qed.

Example test_init_raise_value_error :
  TableRange.__init__ [1] [2; 3] = Raises ValueError
  /\ TableRange.__init__ [1; 2; 3] [2; 3] = Raises ValueError
  /\ TableRange.__init__ [1; 1] [2] = Raises ValueError
  /\ TableRange.__init__ [1; 1] [2; 3; 4] = Raises ValueError.
Proof. repeat split; reflexivity. Qed.

Example test_start_pos_and_stop_pos :
  TableRange.start_pos (TableRange.mk 1 1 2 3) = (1, 1)
  /\ TableRange.stop_pos (TableRange.mk 1 1 2 3) = (2, 3).
Proof. split; reflexivity. Qed.

Example test_fill_inplace :
  TableRange.fill_inplace (TableRange.mk 1 2 3 4)
    (mk_ndarray (3%nat, 4%nat)
       [[F; T; T; F];
        [F; F; T; T];
        [F; T; F; T]]) false
  = mk_ndarray (3%nat, 4%nat)
      [[F; T; T; F];
       [F; F; F; F];
       [F; T; F; F]].
Proof. reflexivity. Qed.

Example test_to_dataframe :
  TableRange.to_dataframe (TableRange.mk 1 3 3 5) test_df
  = Returns (mk_DataFrame [1; 2] [3; 4] [[Str "c"; Str "d"]; [NaN; Int (-4)]]).
Proof. reflexivity. Qed.

Example test_has_min_size :
  TableRange.has_min_size (TableRange.mk 1 3 2 4) 1 1 = true
  /\ TableRange.has_min_size (TableRange.mk 1 3 2 4) 2 1 = false
  /\ TableRange.has_min_size (TableRange.mk 1 3 2 4) 1 2 = false.
Proof. repeat split; reflexivity. Qed.

Example test_find_table_range_from_boolean_array_starting_at :
  _find_table_range_from_boolean_array_starting_at (0, 0) test_boolean_array
    = Returns (TableRange.mk 0 0 0 0)
  /\ _find_table_range_from_boolean_array_starting_at (0, 1) test_boolean_array
      = Returns (TableRange.mk 0 1 3 3)
  /\ _find_table_range_from_boolean_array_starting_at (3, 3) test_boolean_array
      = Returns (TableRange.mk 3 3 4 4).
Proof. repeat split; reflexivity. Qed.

Example test_find_all_table_range :
  list_eq_outcome (find_all_table_range test_df 1 1)
    [TableRange.mk 0 0 2 2; TableRange.mk 1 3 3 5] = true
  /\ list_eq_outcome (find_all_table_range test_df 1 3) [] = true.
Proof. split; reflexivity. Qed.

(** ** Ranges of integers and indices *)

Lemma range_nil (lo hi : Z) : hi <= lo -> range lo hi = [].
Proof.
  intros H. unfold range.
  replace (Z.to_nat (hi - lo)) with 0%nat by lia. reflexivity.
Qed.

Lemma range_cons (lo hi : Z) : lo < hi -> range lo hi = lo :: range (lo + 1) hi.
Proof.
  intros H. unfold range.
  replace (Z.to_nat (hi - lo)) with (S (Z.to_nat (hi - (lo + 1)))) by lia.
  cbn [seq map]. f_equal; [lia|].
  rewrite <- seq_shift, map_map.
  apply map_ext. intros k. lia.
Qed.

Lemma norm_index_inside (i : Z) (n : nat) :
  0 <= i < Z.of_nat n -> norm_index i n = Returns (Z.to_nat i).
Proof.
  intros H. unfold norm_index.
  destruct (Z.ltb_spec i (- Z.of_nat n)); [lia|].
  destruct (Z.ltb_spec i 0); [lia|].
  destruct (Z.ltb_spec i (Z.of_nat n)); [reflexivity|lia].
Qed.

Lemma clamp_bound_inside (i : Z) (n : nat) :
  0 <= i <= Z.of_nat n -> clamp_bound i n = i.
Proof.
  intros H. unfold clamp_bound.
  destruct (Z.ltb_spec i 0); [lia|].
  destruct (Z.ltb_spec i 0); [lia|].
  destruct (Z.ltb_spec (Z.of_nat n) i); lia.
Qed.

Lemma clamp_bound_above (i : Z) (n : nat) :
  Z.of_nat n <= i -> clamp_bound i n = Z.of_nat n.
Proof.
  intros H. unfold clamp_bound.
  destruct (Z.ltb_spec i 0); [lia|].
  destruct (Z.ltb_spec i 0); [lia|].
  destruct (Z.ltb_spec (Z.of_nat n) i); lia.
Qed.

Lemma clamp_bound_range (i : Z) (n : nat) : 0 <= clamp_bound i n <= Z.of_nat n.
Proof.
  unfold clamp_bound.
  destruct (i <? 0);
    repeat match goal with |- context [?x <? ?y] => destruct (Z.ltb_spec x y) end;
    lia.
Qed.

(** For non-negative bounds, a position of the axis is in the slice exactly
    when it lies between the bounds. *)
Lemma in_slice_nonneg (start stop : Z) (n k : nat) :
  0 <= start -> 0 <= stop -> (k < n)%nat ->
  in_slice start stop n k = (start <=? Z.of_nat k) && (Z.of_nat k <? stop).
Proof.
  intros Hs He Hk. unfold in_slice.
  assert (Hc : forall i, 0 <= i ->
             clamp_bound i n = if Z.of_nat n <? i then Z.of_nat n else i).
  { intros i Hi. unfold clamp_bound.
    destruct (Z.ltb_spec i 0); [lia|].
    destruct (Z.ltb_spec i 0); [lia|]. reflexivity. }
  rewrite !Hc by assumption.
  destruct (Z.ltb_spec (Z.of_nat n) start), (Z.ltb_spec (Z.of_nat n) stop);
    repeat match goal with
      | |- context [?x <=? ?y] => destruct (Z.leb_spec x y)
      | |- context [?x <? ?y] => destruct (Z.ltb_spec x y)
      end; simpl; try reflexivity; lia.
Qed.

(** ** Slices of lists *)

Lemma nth_error_slice {A : Type} (start stop : Z) (l : list A) (k : nat) :
  nth_error (slice start stop l) k =
    if (Z.of_nat k <? clamp_bound stop (length l) - clamp_bound start (length l))
    then nth_error l (Z.to_nat (clamp_bound start (length l)) + k)
    else None.
Proof.
  unfold slice.
  pose proof (clamp_bound_range start (length l)) as Hs.
  pose proof (clamp_bound_range stop (length l)) as He.
  rewrite nth_error_firstn, nth_error_skipn.
  destruct (Nat.ltb_spec k (Z.to_nat (clamp_bound stop (length l) - clamp_bound start (length l))));
    destruct (Z.ltb_spec (Z.of_nat k) (clamp_bound stop (length l) - clamp_bound start (length l)));
    try reflexivity; lia.
Qed.

Lemma all_nth_error (v : list bool) :
  all v = true <-> forall k b, nth_error v k = Some b -> b = true.
Proof.
  unfold all. rewrite forallb_forall. split.
  - intros H k b Hk. apply H. eapply nth_error_In; eassumption.
  - intros H b Hin. apply In_nth_error in Hin as [k Hk]. eapply H; eassumption.
Qed.

Lemma nth_error_update_slice_from {A : Type} (start stop : Z) (n : nat)
  (f : A -> A) (l : list A) :
  forall k i,
    nth_error (update_slice_from k start stop n f l) i =
      option_map (fun x => if in_slice start stop n (k + i) then f x else x)
        (nth_error l i).
Proof.
  induction l as [|x rest IH]; intros k i.
  - destruct i; reflexivity.
  - destruct i as [|i]; cbn [update_slice_from nth_error option_map].
    + rewrite Nat.add_0_r. reflexivity.
    + rewrite IH. replace (S k + i)%nat with (k + S i)%nat by lia. reflexivity.
Qed.

Lemma length_update_slice_from {A : Type} (start stop : Z) (n : nat)
  (f : A -> A) (l : list A) :
  forall k, length (update_slice_from k start stop n f l) = length l.
Proof.
  induction l as [|x rest IH]; intros k; cbn; [reflexivity|].
  rewrite IH. reflexivity.
Qed.

Lemma length_update_slice {A : Type} (start stop : Z) (f : A -> A) (l : list A) :
  length (update_slice start stop f l) = length l.
Proof. apply length_update_slice_from. Qed.

Lemma nth_error_update_slice {A : Type} (start stop : Z) (f : A -> A)
  (l : list A) (i : nat) :
  nth_error (update_slice start stop f l) i =
    option_map (fun x => if in_slice start stop (length l) i then f x else x)
      (nth_error l i).
Proof. unfold update_slice. rewrite nth_error_update_slice_from. reflexivity. Qed.

(** ** Reading arrays *)

Section Arrays.

Variable a : ndarray.
Hypothesis a_shaped : well_shaped a = true.

Lemma shaped_length : length (data a) = n_rows a.
Proof.
  unfold well_shaped in a_shaped.
  apply andb_prop in a_shaped as [H _]. apply Nat.eqb_eq in H. exact H.
Qed.

Lemma shaped_line (i : nat) (line : list bool) :
  nth_error (data a) i = Some line -> length line = n_cols a.
Proof.
  intros Hi. unfold well_shaped in a_shaped.
  apply andb_prop in a_shaped as [_ H].
  rewrite forallb_forall in H.
  apply Nat.eqb_eq, H. eapply nth_error_In; eassumption.
Qed.

Lemma shaped_row (r : Z) :
  0 <= r < Z.of_nat (n_rows a) ->
  nth_error (data a) (Z.to_nat r) = Some (nth (Z.to_nat r) (data a) [])
  /\ length (nth (Z.to_nat r) (data a) []) = n_cols a.
Proof.
  intros Hr.
  assert (H : nth_error (data a) (Z.to_nat r) = Some (nth (Z.to_nat r) (data a) [])).
  { apply nth_error_nth'. rewrite shaped_length. lia. }
  split; [exact H|]. eapply shaped_line; exact H.
Qed.

Lemma getitem_inside (r c : Z) :
  in_bounds a r c -> getitem a r c = Returns (peek a r c).
Proof.
  intros [Hr Hc]. unfold getitem, peek.
  rewrite !norm_index_inside by assumption. cbn [bind].
  destruct (shaped_row r Hr) as [Hrow Hlen]. rewrite Hrow.
  rewrite (nth_error_nth' _ false) by lia. reflexivity.
Qed.

Lemma getitem_row_slice_inside (r start stop : Z) :
  0 <= r < Z.of_nat (n_rows a) ->
  getitem_row_slice a r start stop =
    Returns (slice start stop (nth (Z.to_nat r) (data a) [])).
Proof.
  intros Hr. unfold getitem_row_slice.
  rewrite norm_index_inside by assumption. cbn [bind].
  destruct (shaped_row r Hr) as [Hrow _]. rewrite Hrow. reflexivity.
Qed.

(** A slice of a row with in-range bounds is uniformly [v] exactly when every
    cell of the span is. *)
Lemma slice_row_uniform (f : bool -> bool) (r start stop : Z) :
  0 <= r < Z.of_nat (n_rows a) ->
  0 <= start <= stop -> stop <= Z.of_nat (n_cols a) ->
  all (slice start stop (map f (nth (Z.to_nat r) (data a) []))) = true
  <-> forall c, start <= c < stop -> f (peek a r c) = true.
Proof.
  intros Hr Hs He.
  destruct (shaped_row r Hr) as [_ Hlen].
  set (line := nth (Z.to_nat r) (data a) []) in *.
  rewrite all_nth_error. unfold peek. fold line.
  split.
  - intros H c Hc.
    apply (H (Z.to_nat (c - start))).
    rewrite nth_error_slice, length_map, Hlen, !clamp_bound_inside by lia.
    destruct (Z.ltb_spec (Z.of_nat (Z.to_nat (c - start))) (stop - start)); [|lia].
    replace (Z.to_nat start + Z.to_nat (c - start))%nat with (Z.to_nat c) by lia.
    rewrite nth_error_map, (nth_error_nth' _ false) by lia. reflexivity.
  - intros H k b Hk.
    rewrite nth_error_slice, length_map, Hlen, !clamp_bound_inside in Hk by lia.
    destruct (Z.ltb_spec (Z.of_nat k) (stop - start)); [|discriminate].
    rewrite nth_error_map, (nth_error_nth' _ false) in Hk by lia.
    injection Hk as <-.
    specialize (H (start + Z.of_nat k)).
    replace (Z.to_nat (start + Z.of_nat k)) with (Z.to_nat start + k)%nat in H by lia.
    apply H. lia.
Qed.

End Arrays.

Lemma well_shaped_logical_not (a : ndarray) :
  well_shaped a = true -> well_shaped (logical_not a) = true.
Proof.
  unfold well_shaped, logical_not, n_rows, n_cols. cbn [shape data].
  intros H. apply andb_prop in H as [H1 H2].
  rewrite length_map, H1. cbn [andb].
  rewrite forallb_forall in *. intros line Hin.
  apply in_map_iff in Hin as [line0 [<- Hin]].
  rewrite length_map. apply H2, Hin.
Qed.

Lemma peek_logical_not (a : ndarray) (r c : Z) :
  well_shaped a = true -> in_bounds a r c ->
  peek (logical_not a) r c = negb (peek a r c).
Proof.
  intros Hw [Hr Hc]. unfold peek, logical_not. cbn [data].
  destruct (shaped_row a Hw r Hr) as [_ Hlen].
  change (@nil bool) with (map negb []) at 1.
  rewrite map_nth.
  rewrite (nth_indep _ false (negb true)) by (rewrite length_map; lia).
  rewrite map_nth. f_equal. apply nth_indep. lia.
Qed.

(** ** The two loops of the growth routine *)

(** A boolean predicate on an interval of integers is false all over it, or
    true somewhere in it. *)
Lemma span_search (p : Z -> bool) (lo hi : Z) :
  (forall c, lo <= c < hi -> p c = false)
  \/ (exists c, lo <= c < hi /\ p c = true).
Proof.
  remember (Z.to_nat (hi - lo)) as n eqn:Hn.
  revert lo Hn. induction n as [|n IH]; intros lo Hn.
  - left. intros c Hc. lia.
  - destruct (p lo) eqn:Hlo.
    + right. exists lo. split; [lia|exact Hlo].
    + destruct (IH (lo + 1)) as [Hall|[c [Hc Hp]]]; [lia| |].
      * left. intros c Hc.
        destruct (Z.eq_dec c lo) as [->|Hne]; [exact Hlo|apply Hall; lia].
      * right. exists c. split; [lia|exact Hp].
Qed.

Section Growth.

Variable a : ndarray.
Hypothesis a_shaped : well_shaped a = true.

Let last_row : Z := Z.of_nat (n_rows a).
Let last_col : Z := Z.of_nat (n_cols a).

Lemma getitem_absent (r c : Z) :
  in_bounds a r c -> getitem (logical_not a) r c = Returns (negb (peek a r c)).
Proof.
  intros Hb.
  rewrite getitem_inside.
  - rewrite peek_logical_not by assumption. reflexivity.
  - apply well_shaped_logical_not, a_shaped.
  - exact Hb.
Qed.

Lemma row_slice_absent (r start stop : Z) :
  0 <= r < last_row ->
  getitem_row_slice (logical_not a) r start stop =
    Returns (slice start stop (map negb (nth (Z.to_nat r) (data a) []))).
Proof.
  intros Hr.
  rewrite getitem_row_slice_inside.
  - unfold logical_not. cbn [data].
    change (@nil bool) with (map negb []) at 1. rewrite map_nth. reflexivity.
  - apply well_shaped_logical_not, a_shaped.
  - exact Hr.
Qed.

(** The column loop stops at the first absent cell of the anchor row. *)
Lemma scan_cols_spec (start_row : Z) :
  0 <= start_row < last_row ->
  forall n lo,
    Z.to_nat (last_col - lo) = n -> 0 <= lo <= last_col ->
    exists stop,
      scan_cols (logical_not a) start_row (range lo last_col) lo = Returns stop
      /\ lo <= stop <= last_col
      /\ (forall c, lo <= c < stop -> peek a start_row c = true)
      /\ (stop < last_col -> peek a start_row stop = false).
Proof.
  intros Hr. induction n as [|n IH]; intros lo Hn Hlo.
  - rewrite range_nil by lia. exists lo. cbn [scan_cols].
    repeat split; lia.
  - rewrite range_cons by lia. cbn [scan_cols].
    rewrite getitem_absent by (split; [exact Hr|fold last_col; lia]).
    cbn [bind]. destruct (peek a start_row lo) eqn:Hpeek; cbn [negb].
    + destruct (IH (lo + 1)) as [stop [Hrun [Hb [Hall Hstop]]]]; [lia|lia|].
      exists stop. split; [exact Hrun|]. split; [lia|]. split; [|exact Hstop].
      intros c Hc. destruct (Z.eq_dec c lo) as [->|Hne]; [exact Hpeek|].
      apply Hall. lia.
    + exists lo. repeat split; try lia. intros _. exact Hpeek.
Qed.

(** The row loop stops at the first row that is absent all over the span. *)
Lemma scan_rows_spec (start_col stop_col : Z) :
  0 <= start_col <= stop_col -> stop_col <= last_col ->
  forall n lo,
    Z.to_nat (last_row - lo) = n -> 0 <= lo <= last_row ->
    exists stop,
      scan_rows (logical_not a) start_col stop_col (range lo last_row) lo = Returns stop
      /\ lo <= stop <= last_row
      /\ (forall r, lo <= r < stop ->
            exists c, start_col <= c < stop_col /\ peek a r c = true)
      /\ (stop < last_row ->
            forall c, start_col <= c < stop_col -> peek a stop c = false).
Proof.
  intros Hs He. induction n as [|n IH]; intros lo Hn Hlo.
  - rewrite range_nil by lia. exists lo. cbn [scan_rows].
    repeat split; lia.
  - rewrite range_cons by lia. cbn [scan_rows].
    assert (Hr : 0 <= lo < Z.of_nat (n_rows a)) by (fold last_row; lia).
    rewrite row_slice_absent by exact Hr. cbn [bind].
    pose proof (slice_row_uniform a a_shaped negb lo start_col stop_col Hr Hs He) as Hall.
    destruct (all (slice start_col stop_col (map negb (nth (Z.to_nat lo) (data a) []))))
      eqn:Hline.
    + exists lo. repeat split; try lia.
      intros _ c Hc. apply negb_true_iff, Hall; [reflexivity|exact Hc].
    + destruct (IH (lo + 1)) as [stop [Hrun [Hb [Hkept Hstop]]]]; [lia|lia|].
      exists stop. split; [exact Hrun|]. split; [lia|]. split; [|exact Hstop].
      intros r Hrange. destruct (Z.eq_dec r lo) as [->|Hne]; [|apply Hkept; lia].
      destruct (span_search (peek a lo) start_col stop_col) as [Hnone|Hsome];
        [|exact Hsome].
      assert (Habs : false = true); [|discriminate].
      apply Hall. intros c Hc. rewrite Hnone by exact Hc. reflexivity.
Qed.

(** The growth routine from an anchor inside the array. *)
Lemma grow_inside (start_row start_col : Z) :
  in_bounds a start_row start_col ->
  exists stop_row stop_col,
    _find_table_range_from_boolean_array_starting_at (start_row, start_col) a
      = Returns (TableRange.mk start_row start_col stop_row stop_col)
    /\ start_col <= stop_col <= last_col
    /\ (forall c, start_col <= c < stop_col -> peek a start_row c = true)
    /\ (stop_col < last_col -> peek a start_row stop_col = false)
    /\ start_row <= stop_row <= last_row
    /\ (forall r, start_row <= r < stop_row ->
          exists c, start_col <= c < stop_col /\ peek a r c = true)
    /\ (stop_row < last_row ->
          forall c, start_col <= c < stop_col -> peek a stop_row c = false).
Proof.
  intros [Hr Hc].
  destruct (scan_cols_spec start_row Hr _ start_col eq_refl)
    as [stop_col [Hcols [Hcb [Hhead Hcstop]]]]; [fold last_col; lia|].
  destruct (scan_rows_spec start_col stop_col) with (lo := start_row) (n := Z.to_nat (last_row - start_row))
    as [stop_row [Hrows [Hrb [Hkept Hrstop]]]]; try (fold last_row; lia); try reflexivity.
  exists stop_row, stop_col.
  split; [|repeat split; try assumption; lia].
  unfold _find_table_range_from_boolean_array_starting_at.
  fold last_row last_col. rewrite Hcols. cbn [bind]. rewrite Hrows. reflexivity.
Qed.

End Growth.

(** ** Erasing a range from an array *)

Lemma peek_nth_error (a : ndarray) (r c : Z) (line : list bool) (b : bool) :
  nth_error (data a) (Z.to_nat r) = Some line ->
  nth_error line (Z.to_nat c) = Some b ->
  peek a r c = b.
Proof.
  intros Hr Hc. unfold peek.
  rewrite (nth_error_nth _ _ [] Hr). apply nth_error_nth, Hc.
Qed.

Lemma well_shaped_fill (rng : TableRange) (a : ndarray) (v : bool) :
  well_shaped a = true -> well_shaped (TableRange.fill_inplace rng a v) = true.
Proof.
  unfold well_shaped, TableRange.fill_inplace, setitem_slices, n_rows, n_cols.
  cbn [shape data]. intros H. apply andb_prop in H as [H1 H2].
  rewrite length_update_slice, H1. cbn [andb].
  rewrite forallb_forall in *. intros line Hin.
  apply In_nth_error in Hin as [i Hi].
  rewrite nth_error_update_slice in Hi.
  destruct (nth_error (data a) i) as [line0|] eqn:Hline; [|discriminate].
  cbn [option_map] in Hi. injection Hi as <-.
  apply nth_error_In in Hline. apply H2 in Hline.
  destruct (in_slice _ _ _ i); [rewrite length_update_slice|]; exact Hline.
Qed.

Section Fill.

Variable a : ndarray.
Hypothesis a_shaped : well_shaped a = true.
Variable rng : TableRange.
Hypothesis rng_nonneg :
  0 <= TableRange.start_row rng /\ 0 <= TableRange.stop_row rng
  /\ 0 <= TableRange.start_col rng /\ 0 <= TableRange.stop_col rng.
Variable v : bool.

Lemma peek_fill (r c : Z) :
  in_bounds a r c ->
  peek (TableRange.fill_inplace rng a v) r c =
    if ((TableRange.start_row rng <=? r) && (r <? TableRange.stop_row rng))
       && ((TableRange.start_col rng <=? c) && (c <? TableRange.stop_col rng))
    then v else peek a r c.
Proof.
  intros [Hr Hc].
  destruct (shaped_row a a_shaped r Hr) as [Hrow Hlen].
  set (line := nth (Z.to_nat r) (data a) []) in *.
  assert (Hcell : nth_error line (Z.to_nat c) = Some (peek a r c)).
  { unfold peek. fold line. apply nth_error_nth'. lia. }
  destruct rng_nonneg as [Hr0 [Hr1 [Hc0 Hc1]]].
  eapply peek_nth_error.
  - unfold TableRange.fill_inplace, setitem_slices. cbn [data].
    rewrite nth_error_update_slice, Hrow. cbn [option_map]. reflexivity.
  - rewrite shaped_length by exact a_shaped.
    rewrite in_slice_nonneg by lia. rewrite Z2Nat.id by lia.
    destruct ((TableRange.start_row rng <=? r) && (r <? TableRange.stop_row rng));
      cbn [andb]; [|exact Hcell].
    rewrite nth_error_update_slice, Hcell. cbn [option_map].
    rewrite Hlen, in_slice_nonneg by lia. rewrite Z2Nat.id by lia.
    reflexivity.
Qed.

Lemma peek_fill_covered (r c : Z) :
  in_bounds a r c -> covers rng r c ->
  peek (TableRange.fill_inplace rng a v) r c = v.
Proof.
  intros Hb [Hr Hc]. rewrite peek_fill by exact Hb.
  destruct (Z.leb_spec (TableRange.start_row rng) r); [|lia].
  destruct (Z.ltb_spec r (TableRange.stop_row rng)); [|lia].
  destruct (Z.leb_spec (TableRange.start_col rng) c); [|lia].
  destruct (Z.ltb_spec c (TableRange.stop_col rng)); [|lia].
  reflexivity.
Qed.

Lemma peek_fill_outside (r c : Z) :
  in_bounds a r c -> ~ covers rng r c ->
  peek (TableRange.fill_inplace rng a v) r c = peek a r c.
Proof.
  intros Hb Hout. rewrite peek_fill by exact Hb. unfold covers in Hout.
  destruct (Z.leb_spec (TableRange.start_row rng) r);
    destruct (Z.ltb_spec r (TableRange.stop_row rng));
    destruct (Z.leb_spec (TableRange.start_col rng) c);
    destruct (Z.ltb_spec c (TableRange.stop_col rng));
    cbn [andb]; try reflexivity.
  exfalso. apply Hout. lia.
Qed.

End Fill.

Lemma covers_dec (rng : TableRange) (r c : Z) : {covers rng r c} + {~ covers rng r c}.
Proof.
  unfold covers.
  destruct (Z_le_dec (TableRange.start_row rng) r);
    destruct (Z_lt_dec r (TableRange.stop_row rng));
    destruct (Z_le_dec (TableRange.start_col rng) c);
    destruct (Z_lt_dec c (TableRange.stop_col rng));
    try (right; lia).
  left. lia.
Qed.

Lemma ForallOrdPairs_snoc {A : Type} (R : A -> A -> Prop) (l : list A) (y : A) :
  ForallOrdPairs R l -> Forall (fun x => R x y) l -> ForallOrdPairs R (l ++ [y]).
Proof.
  induction 1 as [|x l Hx Hl IH]; intros Hy; cbn.
  - constructor; constructor.
  - inversion Hy as [|? ? Hxy Hly]; subst.
    constructor; [|apply IH, Hly].
    apply Forall_app. split; [exact Hx|]. constructor; [exact Hxy|constructor].
Qed.

Lemma ForallOrdPairs_nth_error {A : Type} (R : A -> A -> Prop) (l : list A) :
  ForallOrdPairs R l ->
  forall i j x y, (i < j)%nat ->
    nth_error l i = Some x -> nth_error l j = Some y -> R x y.
Proof.
  induction 1 as [|z l Hz Hl IH]; intros i j x y Hij Hi Hj.
  - destruct i; discriminate.
  - destruct j as [|j]; [lia|]. cbn in Hj.
    destruct i as [|i]; cbn in Hi.
    + injection Hi as ->. rewrite Forall_forall in Hz.
      apply Hz. eapply nth_error_In; eassumption.
    + apply (IH i j); [lia|assumption|assumption].
Qed.

(** ** The sweep keeps its invariant *)

Section Sweep.

Variable a0 : ndarray.
Variables min_n_rows min_n_cols : Z.

Let last_row : Z := Z.of_nat (n_rows a0).
Let last_col : Z := Z.of_nat (n_cols a0).

Lemma in_bounds_shape (arr : ndarray) (r c : Z) :
  shape arr = shape a0 -> in_bounds a0 r c -> in_bounds arr r c.
Proof. unfold in_bounds, n_rows, n_cols. intros ->. tauto. Qed.

Lemma accepted_later (arr : ndarray) (row row' : Z) (p : TableRange) :
  row <= row' ->
  accepted a0 arr min_n_rows min_n_cols row p ->
  accepted a0 arr min_n_rows min_n_cols row' p.
Proof. unfold accepted. intuition lia. Qed.

Lemma sweep_inv_later (row row' : Z) (st : sweep_state) :
  row <= row' ->
  sweep_inv a0 min_n_rows min_n_cols row st ->
  sweep_inv a0 min_n_rows min_n_cols row' st.
Proof.
  intros Hle (Hw & Hs & Hmono & Hacc & Hdis).
  repeat split; try assumption.
  eapply Forall_impl; [|exact Hacc].
  intros p. apply accepted_later, Hle.
Qed.

(** A range grown from a present anchor shares no cell with a range accepted
    before it: the header row of the new range is present, the cells of the
    old one are erased, and the old one starts no lower than the new one. *)
Lemma grown_disjoint (arr : ndarray) (row col stop_row stop_col : Z) (p : TableRange) :
  accepted a0 arr min_n_rows min_n_cols row p ->
  (forall c, col <= c < stop_col -> peek arr row c = true) ->
  disjoint p (TableRange.mk row col stop_row stop_col).
Proof.
  intros (_ & Hpr & _ & Hpc & _ & Hrow & _ & Herased) Hhead r c [Hr Hc] [Hr' Hc'].
  cbn [TableRange.start_row TableRange.stop_row
       TableRange.start_col TableRange.stop_col] in Hr', Hc'.
  destruct (Z_lt_dec row (TableRange.stop_row p)) as [Hin|Hout]; [|lia].
  assert (Hcov : covers p row c) by (unfold covers; lia).
  apply Herased in Hcov. rewrite Hhead in Hcov by lia. discriminate.
Qed.

Lemma visit_inv (row col : Z) (st : sweep_state) :
  0 <= row < last_row -> 0 <= col < last_col ->
  sweep_inv a0 min_n_rows min_n_cols row st ->
  exists st',
    visit min_n_rows min_n_cols row st col = Returns st'
    /\ sweep_inv a0 min_n_rows min_n_cols row st'.
Proof.
  intros Hrow Hcol Hinv.
  destruct st as [acc arr].
  pose proof Hinv as (Hw & Hs & Hmono & Hacc & Hdis). cbn [fst snd] in *.
  assert (Hb : in_bounds arr row col).
  { apply in_bounds_shape; [exact Hs|]. split; assumption. }
  unfold visit. rewrite getitem_inside by assumption. cbn [bind].
  destruct (peek arr row col) eqn:Hanchor; [|exists (acc, arr); split; [reflexivity|exact Hinv]].
  destruct (grow_inside arr Hw row col Hb)
    as (stop_row & stop_col & Hgrow & Hcb & Hhead & Hcstop & Hrb & Hkept & Hrstop).
  rewrite Hgrow. cbn [bind].
  set (rng := TableRange.mk row col stop_row stop_col) in *.
  destruct (TableRange.has_min_size rng min_n_rows min_n_cols) eqn:Hsize;
    [|exists (acc, arr); split; [reflexivity|exact Hinv]].
  assert (Hrs : n_rows arr = n_rows a0) by (unfold n_rows; rewrite Hs; reflexivity).
  assert (Hcs : n_cols arr = n_cols a0) by (unfold n_cols; rewrite Hs; reflexivity).
  rewrite Hrs in *. rewrite Hcs in *. fold last_row in Hrb, Hrstop. fold last_col in Hcb, Hcstop.
  assert (Hwide : col < stop_col).
  { destruct (Z_lt_dec col stop_col) as [|Hn]; [assumption|].
    assert (stop_col = col) by lia. subst stop_col.
    rewrite Hcstop in Hanchor by lia. discriminate. }
  assert (Htall : row < stop_row).
  { destruct (Z_lt_dec row stop_row) as [|Hn]; [assumption|].
    assert (stop_row = row) by lia. subst stop_row.
    rewrite (Hrstop ltac:(lia) col) in Hanchor by lia. discriminate. }
  assert (Hnonneg : 0 <= TableRange.start_row rng /\ 0 <= TableRange.stop_row rng
                    /\ 0 <= TableRange.start_col rng /\ 0 <= TableRange.stop_col rng).
  { subst rng. cbn. lia. }
  assert (Hin : forall r c, covers rng r c -> in_bounds arr r c).
  { intros r c [Hr Hc]. subst rng. cbn in Hr, Hc.
    unfold in_bounds. rewrite Hrs, Hcs. fold last_row last_col. lia. }
  exists (acc ++ [rng], TableRange.fill_inplace rng arr false).
  split; [reflexivity|].
  unfold sweep_inv. cbn [fst snd].
  split; [apply well_shaped_fill, Hw|].
  split; [exact Hs|].
  split.
  { intros r c Hrc Hp. apply Hmono; [exact Hrc|].
    apply (in_bounds_shape arr) in Hrc; [|exact Hs].
    destruct (covers_dec rng r c) as [Hcov|Hout].
    - rewrite peek_fill_covered in Hp by assumption. discriminate.
    - rewrite peek_fill_outside in Hp by assumption. exact Hp. }
  split.
  { apply Forall_app. split.
    - eapply Forall_impl; [|exact Hacc].
      intros p (H1 & H2 & H3 & H4 & H5 & H6 & H7 & Herased).
      repeat split; try assumption; try lia.
      intros r c Hcov.
      assert (Hrc : in_bounds arr r c).
      { destruct Hcov as [Hr Hc]. unfold in_bounds. rewrite Hrs, Hcs. lia. }
      destruct (covers_dec rng r c) as [Hcov'|Hout].
      + apply peek_fill_covered; assumption.
      + rewrite peek_fill_outside by assumption. apply Herased, Hcov.
    - constructor; [|constructor].
      unfold accepted. subst rng. cbn [TableRange.start_row TableRange.stop_row
        TableRange.start_col TableRange.stop_col].
      fold last_row last_col.
      split; [exact Hsize|]. repeat split; try lia.
      + intros c Hc. apply Hmono; [split; fold last_row last_col; lia|].
        apply Hhead, Hc.
      + intros r c Hcov. apply peek_fill_covered; try assumption.
        apply Hin, Hcov. }
  apply ForallOrdPairs_snoc; [exact Hdis|].
  eapply Forall_impl; [|exact Hacc].
  intros p Hp. eapply grown_disjoint; [exact Hp|exact Hhead].
Qed.

Lemma inner_loop_inv (row : Z) :
  0 <= row < last_row ->
  forall n lo st,
    Z.to_nat (last_col - lo) = n -> 0 <= lo ->
    sweep_inv a0 min_n_rows min_n_cols row st ->
    exists st',
      for_each (visit min_n_rows min_n_cols row) (range lo last_col) st = Returns st'
      /\ sweep_inv a0 min_n_rows min_n_cols row st'.
Proof.
  intros Hrow. induction n as [|n IH]; intros lo st Hn Hlo Hinv.
  - rewrite range_nil by lia. exists st. split; [reflexivity|exact Hinv].
  - rewrite range_cons by lia. cbn [for_each].
    destruct (visit_inv row lo st Hrow ltac:(lia) Hinv) as [st1 [Hstep Hinv1]].
    rewrite Hstep. cbn [bind]. apply IH; [lia|lia|exact Hinv1].
Qed.

Lemma outer_loop_inv :
  forall n lo st,
    Z.to_nat (last_row - lo) = n -> 0 <= lo <= last_row ->
    sweep_inv a0 min_n_rows min_n_cols lo st ->
    exists st',
      for_each
        (fun st row =>
           for_each (visit min_n_rows min_n_cols row) (range 0 last_col) st)
        (range lo last_row) st = Returns st'
      /\ sweep_inv a0 min_n_rows min_n_cols last_row st'.
Proof.
  induction n as [|n IH]; intros lo st Hn Hlo Hinv.
  - rewrite (range_nil lo last_row) by lia. exists st. split; [reflexivity|].
    eapply sweep_inv_later; [|exact Hinv]. lia.
  - rewrite (range_cons lo last_row) by lia. cbn [for_each].
    destruct (inner_loop_inv lo ltac:(lia) _ 0 st eq_refl ltac:(lia) Hinv)
      as [st1 [Hrun Hinv1]].
    rewrite Hrun. cbn [bind].
    apply IH; [lia|lia|].
    eapply sweep_inv_later; [|exact Hinv1]. lia.
Qed.

End Sweep.

(** ** From the frame to the result of the sweep *)

Lemma well_shaped_notna (df : DataFrame) :
  well_shaped_df df = true -> well_shaped (notna_to_numpy df) = true.
Proof.
  unfold well_shaped_df, well_shaped, notna_to_numpy, df_shape, n_rows, n_cols.
  cbn [shape data fst snd]. intros H. apply andb_prop in H as [H1 H2].
  rewrite length_map, H1. cbn [andb].
  rewrite forallb_forall in *. intros line Hin.
  apply in_map_iff in Hin as [line0 [<- Hin]].
  rewrite length_map. apply H2, Hin.
Qed.

(** A cell present in the derived array is a non-missing cell of the frame. *)
Lemma peek_notna (df : DataFrame) (r c : Z) :
  well_shaped_df df = true ->
  in_bounds (notna_to_numpy df) r c ->
  peek (notna_to_numpy df) r c = true ->
  exists x, cell_at df r c = Some x /\ notna_cell x = true.
Proof.
  intros Hw [Hr Hc] Hp.
  unfold notna_to_numpy, df_shape, n_rows, n_cols in Hr, Hc. cbn [shape fst snd] in Hr, Hc.
  unfold well_shaped_df in Hw. apply andb_prop in Hw as [H1 H2].
  apply Nat.eqb_eq in H1. rewrite forallb_forall in H2.
  destruct (nth_error (values df) (Z.to_nat r)) as [line|] eqn:Hline.
  2:{ apply nth_error_None in Hline. lia. }
  assert (Hlen : length line = length (columns df)).
  { apply Nat.eqb_eq, H2. eapply nth_error_In; eassumption. }
  destruct (nth_error line (Z.to_nat c)) as [x|] eqn:Hx.
  2:{ apply nth_error_None in Hx. lia. }
  exists x. split.
  - unfold cell_at.
    destruct (Z.ltb_spec r 0); [lia|]. destruct (Z.ltb_spec c 0); [lia|].
    cbn [orb]. rewrite Hline. exact Hx.
  - rewrite <- Hp. symmetry.
    apply peek_nth_error with (line := map notna_cell line).
    + unfold notna_to_numpy. cbn [data]. rewrite nth_error_map, Hline. reflexivity.
    + rewrite nth_error_map, Hx. reflexivity.
Qed.

Lemma sweep_inv_start (a0 : ndarray) (min_n_rows min_n_cols : Z) :
  well_shaped a0 = true -> sweep_inv a0 min_n_rows min_n_cols 0 ([], a0).
Proof.
  intros Hw. unfold sweep_inv. cbn [fst snd].
  repeat split; try assumption; try constructor. tauto.
Qed.

(** The sweep returns, and its result satisfies the invariant at the last row. *)
Lemma find_all_sound (df : DataFrame) (min_n_rows min_n_cols : Z) :
  well_shaped_df df = true ->
  exists st,
    find_all_table_range df min_n_rows min_n_cols = Returns (fst st)
    /\ sweep_inv (notna_to_numpy df) min_n_rows min_n_cols
         (Z.of_nat (n_rows (notna_to_numpy df))) st.
Proof.
  intros Hw. apply well_shaped_notna in Hw.
  destruct (outer_loop_inv (notna_to_numpy df) min_n_rows min_n_cols _ 0
              ([], notna_to_numpy df) eq_refl ltac:(lia)
              (sweep_inv_start _ _ _ Hw)) as [st [Hrun Hinv]].
  exists st. split; [|exact Hinv].
  unfold find_all_table_range, sweep. rewrite Hrun. reflexivity.
Qed.

(** ** The sweep on a store *)

(** Two runs of a loop from stores that a relation [R] links give the same
    outcome and leave linked stores, when the bodies do. *)
Lemma for_each_of_related {S : Type} (R : store -> store -> Prop)
  (body body' : S -> Z -> store -> outcome S * store) :
  (forall st x h h', R h h' ->
     fst (body st x h) = fst (body' st x h')
     /\ R (snd (body st x h)) (snd (body' st x h'))) ->
  forall xs st h h', R h h' ->
    fst (for_each_of body xs st h) = fst (for_each_of body' xs st h')
    /\ R (snd (for_each_of body xs st h)) (snd (for_each_of body' xs st h')).
Proof.
  intros Hbody. induction xs as [|x xs IH]; intros st h h' HR; cbn [for_each_of].
  - split; [reflexivity|exact HR].
  - destruct (Hbody st x h h' HR) as [Hout Hnext].
    destruct (body st x h) as [[st1|e] h1], (body' st x h') as [[st1'|e'] h1'];
      cbn [fst snd] in *; try discriminate.
    + injection Hout as <-. apply IH, Hnext.
    + split; assumption.
Qed.

(** A property of the store that every run of the body keeps is kept by the
    loop. *)
Lemma for_each_of_keeps {S : Type} (P : store -> Prop)
  (body : S -> Z -> store -> outcome S * store) :
  (forall st x h, P h -> P (snd (body st x h))) ->
  forall xs st h, P h -> P (snd (for_each_of body xs st h)).
Proof.
  intros Hbody. induction xs as [|x xs IH]; intros st h HP; cbn [for_each_of].
  - exact HP.
  - specialize (Hbody st x h HP).
    destruct (body st x h) as [[st1|e] h1]; cbn [snd] in *;
      [apply IH, Hbody|exact Hbody].
Qed.

(** The visit of a position depends on the store through the working array
    only, whatever its reference. *)
Lemma visit_of_related (min_n_rows min_n_cols row col : Z) (k k' : nat)
  (acc : list TableRange) (h h' : store) :
  arrays h k = arrays h' k' ->
  fst (visit_of min_n_rows min_n_cols k row acc col h)
  = fst (visit_of min_n_rows min_n_cols k' row acc col h')
  /\ arrays (snd (visit_of min_n_rows min_n_cols k row acc col h)) k
     = arrays (snd (visit_of min_n_rows min_n_cols k' row acc col h')) k'.
Proof.
  intros HR. unfold visit_of, fill_inplace_of. rewrite <- HR.
  destruct (getitem (array (arrays h k)) row col) as [[|]|e]; cbn [fst snd];
    try (split; [reflexivity|exact HR]).
  destruct (_find_table_range_from_boolean_array_starting_at (row, col)
              (array (arrays h k))) as [rng|e]; cbn [fst snd];
    try (split; [reflexivity|exact HR]).
  destruct (TableRange.has_min_size rng min_n_rows min_n_cols); cbn [fst snd];
    try (split; [reflexivity|exact HR]).
  destruct (writeable (arrays h k)); cbn [fst snd];
    try (split; [reflexivity|exact HR]).
  split; [reflexivity|]. unfold set_array. cbn [arrays].
  rewrite !Nat.eqb_refl. reflexivity.
Qed.

(** The visit of a position writes no frame, and no array but the working
    array. *)
Lemma visit_of_frame (min_n_rows min_n_cols row col : Z) (k : nat)
  (acc : list TableRange) (h : store) :
  frames (snd (visit_of min_n_rows min_n_cols k row acc col h)) = frames h
  /\ next_array (snd (visit_of min_n_rows min_n_cols k row acc col h))
     = next_array h
  /\ forall r, r <> k ->
       arrays (snd (visit_of min_n_rows min_n_cols k row acc col h)) r
       = arrays h r.
Proof.
  unfold visit_of, fill_inplace_of.
  destruct (getitem (array (arrays h k)) row col) as [[|]|e]; cbn [fst snd];
    try (repeat split; reflexivity).
  destruct (_find_table_range_from_boolean_array_starting_at (row, col)
              (array (arrays h k))) as [rng|e]; cbn [fst snd];
    try (repeat split; reflexivity).
  destruct (TableRange.has_min_size rng min_n_rows min_n_cols); cbn [fst snd];
    try (repeat split; reflexivity).
  destruct (writeable (arrays h k)); cbn [fst snd];
    try (repeat split; reflexivity).
  split; [reflexivity|]. split; [reflexivity|].
  intros r Hr. unfold set_array. cbn [arrays].
  destruct (Nat.eqb_spec r k); [contradiction|reflexivity].
Qed.

(** A visit that returns did what the visit of the sweep on a writable array
    does, on the list and on the content of the working array. *)
Lemma visit_of_returns (min_n_rows min_n_cols row col : Z) (k : nat)
  (acc acc' : list TableRange) (h : store) :
  fst (visit_of min_n_rows min_n_cols k row acc col h) = Returns acc' ->
  visit min_n_rows min_n_cols row (acc, array (arrays h k)) col
  = Returns (acc',
             array (arrays (snd (visit_of min_n_rows min_n_cols k row acc col h)) k))
  /\ writeable (arrays (snd (visit_of min_n_rows min_n_cols k row acc col h)) k)
     = writeable (arrays h k)
  /\ (writeable (arrays h k) = false -> acc' = acc).
Proof.
  unfold visit_of, visit, fill_inplace_of.
  destruct (getitem (array (arrays h k)) row col) as [[|]|e]; cbn [fst snd bind];
    intros Hret; try discriminate.
  2:{ injection Hret as <-. repeat split. }
  destruct (_find_table_range_from_boolean_array_starting_at (row, col)
              (array (arrays h k))) as [rng|e]; cbn [fst snd bind] in *;
    try discriminate.
  destruct (TableRange.has_min_size rng min_n_rows min_n_cols); cbn [fst snd] in *.
  2:{ injection Hret as <-. repeat split. }
  destruct (writeable (arrays h k)) eqn:Hw; cbn [fst snd] in *; try discriminate.
  injection Hret as <-. unfold set_array. cbn [arrays].
  rewrite Nat.eqb_refl. cbn [array writeable]. repeat split. discriminate.
Qed.

(** On a writable array the visit is the visit of the sweep, whether it
    returns or raises. *)
Lemma visit_of_writable (min_n_rows min_n_cols row col : Z) (k : nat)
  (acc : list TableRange) (h : store) :
  writeable (arrays h k) = true ->
  match visit min_n_rows min_n_cols row (acc, array (arrays h k)) col with
  | Returns st' =>
      fst (visit_of min_n_rows min_n_cols k row acc col h) = Returns (fst st')
      /\ arrays (snd (visit_of min_n_rows min_n_cols k row acc col h)) k
         = mk_array_object (snd st') true
  | Raises e =>
      fst (visit_of min_n_rows min_n_cols k row acc col h) = Raises e
  end.
Proof.
  intros Hw. unfold visit_of, visit, fill_inplace_of.
  destruct (getitem (array (arrays h k)) row col) as [[|]|e]; cbn [fst snd bind];
    try reflexivity.
  2:{ split; [reflexivity|]. destruct (arrays h k) as [a w]. cbn in *.
      rewrite Hw. reflexivity. }
  destruct (_find_table_range_from_boolean_array_starting_at (row, col)
              (array (arrays h k))) as [rng|e]; cbn [fst snd bind];
    try reflexivity.
  destruct (TableRange.has_min_size rng min_n_rows min_n_cols); cbn [fst snd].
  2:{ split; [reflexivity|]. destruct (arrays h k) as [a w]. cbn in *.
      rewrite Hw. reflexivity. }
  rewrite Hw. cbn [fst snd]. split; [reflexivity|].
  unfold set_array. cbn [arrays]. rewrite Nat.eqb_refl. reflexivity.
Qed.

Section SweepOnAStore.

Variables min_n_rows min_n_cols : Z.
Variable k : nat.

(** The two loops, with the working array under the reference [k]. *)
Let inner (last_col : Z) (acc : list TableRange) (row : Z) (h : store)
  : outcome (list TableRange) * store :=
  for_each_of (visit_of min_n_rows min_n_cols k row) (range 0 last_col) acc h.

Lemma loop_of_returns (row : Z) (cols : list Z) :
  forall acc acc' h,
    fst (for_each_of (visit_of min_n_rows min_n_cols k row) cols acc h)
    = Returns acc' ->
    let h' := snd (for_each_of (visit_of min_n_rows min_n_cols k row) cols acc h) in
    for_each (visit min_n_rows min_n_cols row) cols (acc, array (arrays h k))
    = Returns (acc', array (arrays h' k))
    /\ writeable (arrays h' k) = writeable (arrays h k)
    /\ (writeable (arrays h k) = false -> acc' = acc).
Proof.
  induction cols as [|col cols IH]; intros acc acc' h Hret; cbn [for_each_of] in *.
  - cbn [fst snd] in *. injection Hret as <-. repeat split.
  - pose proof (visit_of_returns min_n_rows min_n_cols row col k acc) as Hstep.
    destruct (visit_of min_n_rows min_n_cols k row acc col h) as [[acc1|e] h1] eqn:Hv;
      cbn [fst snd] in *; [|discriminate].
    specialize (Hstep acc1 h). rewrite Hv in Hstep. cbn [fst snd] in Hstep.
    destruct (Hstep eq_refl) as (Hvisit & Hflag & Hsame).
    destruct (IH acc1 acc' h1 Hret) as (Hrest & Hflag' & Hsame').
    cbn zeta. cbn [for_each]. rewrite Hvisit. cbn [bind].
    split; [exact Hrest|]. split; [congruence|].
    intros Hw. rewrite Hsame' by congruence. apply Hsame, Hw.
Qed.

Lemma sweep_of_returns (last_col : Z) (rows : list Z) :
  forall acc acc' h,
    fst (for_each_of (inner last_col) rows acc h) = Returns acc' ->
    let h' := snd (for_each_of (inner last_col) rows acc h) in
    for_each
      (fun st row => for_each (visit min_n_rows min_n_cols row) (range 0 last_col) st)
      rows (acc, array (arrays h k))
    = Returns (acc', array (arrays h' k))
    /\ writeable (arrays h' k) = writeable (arrays h k)
    /\ (writeable (arrays h k) = false -> acc' = acc).
Proof.
  unfold inner.
  induction rows as [|row rows IH]; intros acc acc' h Hret; cbn [for_each_of] in *.
  - cbn [fst snd] in *. injection Hret as <-. repeat split.
  - pose proof (loop_of_returns row (range 0 last_col) acc) as Hstep.
    destruct (for_each_of (visit_of min_n_rows min_n_cols k row) (range 0 last_col)
                acc h) as [[acc1|e] h1] eqn:Hv; cbn [fst snd] in *; [|discriminate].
    specialize (Hstep acc1 h). rewrite Hv in Hstep. cbn [fst snd] in Hstep.
    destruct (Hstep eq_refl) as (Hrow & Hflag & Hsame).
    destruct (IH acc1 acc' h1 Hret) as (Hrest & Hflag' & Hsame').
    cbn zeta in *. cbn [for_each]. rewrite Hrow. cbn [bind].
    split; [exact Hrest|]. split; [congruence|].
    intros Hw. rewrite Hsame' by congruence. apply Hsame, Hw.
Qed.

Lemma loop_of_writable (row : Z) (cols : list Z) :
  forall acc h,
    writeable (arrays h k) = true ->
    let run := for_each_of (visit_of min_n_rows min_n_cols k row) cols acc h in
    match for_each (visit min_n_rows min_n_cols row) cols (acc, array (arrays h k)) with
    | Returns st' =>
        fst run = Returns (fst st')
        /\ arrays (snd run) k = mk_array_object (snd st') true
    | Raises e => fst run = Raises e
    end.
Proof.
  induction cols as [|col cols IH]; intros acc h Hw; cbn zeta; cbn [for_each_of for_each].
  - cbn [fst snd]. split; [reflexivity|].
    destruct (arrays h k) as [a w]. cbn in *. rewrite Hw. reflexivity.
  - pose proof (visit_of_writable min_n_rows min_n_cols row col k acc h Hw) as Hstep.
    destruct (visit min_n_rows min_n_cols row (acc, array (arrays h k)) col)
      as [[acc1 a1]|e]; cbn [bind fst snd] in *.
    + destruct Hstep as [Hout Harr].
      destruct (visit_of min_n_rows min_n_cols k row acc col h) as [[acc1'|e'] h1];
        cbn [fst snd] in *; [|discriminate].
      injection Hout as ->.
      specialize (IH acc1 h1). rewrite Harr in IH. cbn [array writeable] in IH.
      apply IH. reflexivity.
    + destruct (visit_of min_n_rows min_n_cols k row acc col h) as [[acc1'|e'] h1];
        cbn [fst snd] in *; [discriminate|exact Hstep].
Qed.

Lemma sweep_of_writable (last_col : Z) (rows : list Z) :
  forall acc h,
    writeable (arrays h k) = true ->
    let run := for_each_of (inner last_col) rows acc h in
    match for_each
            (fun st row =>
               for_each (visit min_n_rows min_n_cols row) (range 0 last_col) st)
            rows (acc, array (arrays h k)) with
    | Returns st' =>
        fst run = Returns (fst st')
        /\ arrays (snd run) k = mk_array_object (snd st') true
    | Raises e => fst run = Raises e
    end.
Proof.
  unfold inner.
  induction rows as [|row rows IH]; intros acc h Hw; cbn zeta; cbn [for_each_of for_each].
  - cbn [fst snd]. split; [reflexivity|].
    destruct (arrays h k) as [a w]. cbn in *. rewrite Hw. reflexivity.
  - pose proof (loop_of_writable row (range 0 last_col) acc h Hw) as Hstep.
    cbn zeta in Hstep.
    destruct (for_each (visit min_n_rows min_n_cols row) (range 0 last_col)
                (acc, array (arrays h k))) as [[acc1 a1]|e]; cbn [bind fst snd] in *.
    + destruct Hstep as [Hout Harr].
      destruct (for_each_of (visit_of min_n_rows min_n_cols k row) (range 0 last_col)
                  acc h) as [[acc1'|e'] h1]; cbn [fst snd] in *; [|discriminate].
      injection Hout as ->.
      specialize (IH acc1 h1). rewrite Harr in IH. cbn [array writeable] in IH.
      apply IH. reflexivity.
    + destruct (for_each_of (visit_of min_n_rows min_n_cols k row) (range 0 last_col)
                  acc h) as [[acc1'|e'] h1]; cbn [fst snd] in *;
        [discriminate|exact Hstep].
Qed.

End SweepOnAStore.

(** The store that a call leaves: every frame, the caller's included, and
    every array that existed are as the call found them; the call made one
    array. *)
Lemma find_all_of_frame (df : nat) (min_n_rows min_n_cols : Z) (h : store) :
  let h' := snd (find_all_table_range_of df min_n_rows min_n_cols h) in
  frames h' = frames h
  /\ next_array h' = S (next_array h)
  /\ forall r, r <> next_array h -> arrays h' r = arrays h r.
Proof.
  cbn zeta. unfold find_all_table_range_of, notna_to_numpy_of, new_array.
  set (k := next_array h).
  set (h0 := mk_store _ _ _).
  set (P := fun s : store =>
              frames s = frames h /\ next_array s = S k
              /\ forall r, r <> k -> arrays s r = arrays h r).
  change (P (snd (for_each_of
                    (fun list_table_range row =>
                       for_each_of (visit_of min_n_rows min_n_cols k row)
                         (range 0 (Z.of_nat (n_cols (array (arrays h0 k)))))
                         list_table_range)
                    (range 0 (Z.of_nat (n_rows (array (arrays h0 k))))) [] h0))).
  apply for_each_of_keeps.
  - intros acc row s Hs. apply for_each_of_keeps; [|exact Hs].
    intros acc1 col s1 (Hf & Hn & Ha).
    destruct (visit_of_frame min_n_rows min_n_cols row col k acc1 s1)
      as (Hf' & Hn' & Ha').
    unfold P. rewrite Hf', Hn'. repeat split; try assumption.
    intros r Hr. rewrite Ha' by exact Hr. apply Ha, Hr.
  - unfold P, h0. cbn [frames next_array arrays]. repeat split.
    intros r Hr. destruct (Nat.eqb_spec r k); [contradiction|reflexivity].
Qed.

(** The outcome of a call depends on the store through the frame only. *)
Lemma find_all_of_frame_only (df : nat) (min_n_rows min_n_cols : Z) (h h' : store) :
  frames h' df = frames h df ->
  fst (find_all_table_range_of df min_n_rows min_n_cols h')
  = fst (find_all_table_range_of df min_n_rows min_n_cols h).
Proof.
  intros Hframe. unfold find_all_table_range_of, notna_to_numpy_of, new_array.
  rewrite Hframe. cbn [arrays]. rewrite !Nat.eqb_refl. cbn [array].
  set (o := mk_array_object _ _).
  set (last_row := Z.of_nat (n_rows (notna_to_numpy (frame (frames h df))))).
  set (last_col := Z.of_nat (n_cols (notna_to_numpy (frame (frames h df))))).
  apply (for_each_of_related
           (fun s s' => arrays s (next_array h') = arrays s' (next_array h))).
  - intros acc row s s' HR.
    apply (for_each_of_related
             (fun s s' => arrays s (next_array h') = arrays s' (next_array h)));
      [|exact HR].
    intros acc1 col s1 s1' HR1. apply visit_of_related, HR1.
  - cbn [arrays]. rewrite !Nat.eqb_refl. reflexivity.
Qed.

(** A call that returns, returns what the sweep on a writable array returns
    for the frame; and it returns the empty list when the array of the frame
    is read-only. *)
Lemma find_all_of_returns (df : nat) (min_n_rows min_n_cols : Z) (h : store)
  (ranges : list TableRange) :
  fst (find_all_table_range_of df min_n_rows min_n_cols h) = Returns ranges ->
  find_all_table_range (frame (frames h df)) min_n_rows min_n_cols = Returns ranges
  /\ (notna_read_only (frames h df) = true -> ranges = []).
Proof.
  unfold find_all_table_range_of, notna_to_numpy_of, new_array, find_all_table_range,
    sweep.
  cbn [arrays]. rewrite !Nat.eqb_refl. cbn [array].
  set (a0 := notna_to_numpy (frame (frames h df))).
  set (h0 := mk_store _ _ _).
  intros Hret.
  destruct (sweep_of_returns min_n_rows min_n_cols (next_array h)
              (Z.of_nat (n_cols a0)) (range 0 (Z.of_nat (n_rows a0))) [] ranges h0 Hret)
    as (Hrun & _ & Hsame).
  cbn zeta in Hrun. unfold h0 in Hrun at 1. cbn [arrays] in Hrun.
  rewrite Nat.eqb_refl in Hrun. cbn [array] in Hrun. fold a0 in Hrun.
  rewrite Hrun. cbn [bind fst]. split; [reflexivity|].
  intros Hro. apply Hsame. unfold h0. cbn [arrays].
  rewrite Nat.eqb_refl. cbn [writeable]. rewrite Hro. reflexivity.
Qed.

(** With a writable array the call has the outcome of the sweep. *)
Lemma find_all_of_writable (df : nat) (min_n_rows min_n_cols : Z) (h : store) :
  notna_read_only (frames h df) = false ->
  fst (find_all_table_range_of df min_n_rows min_n_cols h)
  = find_all_table_range (frame (frames h df)) min_n_rows min_n_cols.
Proof.
  intros Hro.
  unfold find_all_table_range_of, notna_to_numpy_of, new_array, find_all_table_range,
    sweep.
  cbn [arrays]. rewrite !Nat.eqb_refl. cbn [array].
  set (a0 := notna_to_numpy (frame (frames h df))).
  set (h0 := mk_store _ _ _).
  assert (Hw : writeable (arrays h0 (next_array h)) = true).
  { unfold h0. cbn [arrays]. rewrite Nat.eqb_refl. cbn [writeable].
    rewrite Hro. reflexivity. }
  pose proof (sweep_of_writable min_n_rows min_n_cols (next_array h)
                (Z.of_nat (n_cols a0)) (range 0 (Z.of_nat (n_rows a0))) [] h0 Hw)
    as Hrun.
  cbn zeta in Hrun. unfold h0 in Hrun at 1. cbn [arrays] in Hrun.
  rewrite Nat.eqb_refl in Hrun. cbn [array] in Hrun. fold a0 in Hrun.
  match type of Hrun with match ?run with _ => _ end =>
    destruct run as [st'|e]; cbn [bind]
  end.
  - destruct Hrun as [Hout _]. exact Hout.
  - exact Hrun.
Qed.

(** * The claims *)

(** C1.  From an anchor inside a boolean array, the growth routine returns
    the range from the anchor to [(stop_row, stop_col)], where [stop_col] is
    the first column from [start_col] on at which the anchor row is absent
    (the number of columns when there is none), and [stop_row] is the first
    row from [start_row] on that is absent all over the columns
    [start_col .. stop_col - 1] (the number of rows when there is none).  On
    the array of the module's test and the anchor [(0, 1)] the range is
    [(0, 1) - (3, 3)]. *)
Theorem growth_stops_at_first_absent :
  (forall (presence : ndarray) (start_row start_col : Z),
      well_shaped presence = true ->
      in_bounds presence start_row start_col ->
      exists stop_row stop_col,
        _find_table_range_from_boolean_array_starting_at
          (start_row, start_col) presence
          = Returns (TableRange.mk start_row start_col stop_row stop_col)
        /\ start_col <= stop_col <= Z.of_nat (n_cols presence)
        /\ (forall c, start_col <= c < stop_col ->
              getitem presence start_row c = Returns true)
        /\ (stop_col < Z.of_nat (n_cols presence) ->
              getitem presence start_row stop_col = Returns false)
        /\ start_row <= stop_row <= Z.of_nat (n_rows presence)
        /\ (forall r, start_row <= r < stop_row ->
              exists c, start_col <= c < stop_col
                        /\ getitem presence r c = Returns true)
        /\ (stop_row < Z.of_nat (n_rows presence) ->
              forall c, start_col <= c < stop_col ->
                getitem presence stop_row c = Returns false))
  /\ _find_table_range_from_boolean_array_starting_at (0, 1) test_boolean_array
     = Returns (TableRange.mk 0 1 3 3).
Proof.
  split; [|reflexivity].
  intros presence start_row start_col Hw Hb.
  destruct (grow_inside presence Hw start_row start_col Hb)
    as (stop_row & stop_col & Hgrow & Hcb & Hhead & Hcstop & Hrb & Hkept & Hrstop).
  destruct Hb as [Hr Hc].
  exists stop_row, stop_col.
  split; [exact Hgrow|]. split; [exact Hcb|].
  split.
  { intros c Hspan. rewrite getitem_inside by (try assumption; split; lia).
    rewrite Hhead by exact Hspan. reflexivity. }
  split.
  { intros Hlt. rewrite getitem_inside by (try assumption; split; lia).
    rewrite Hcstop by exact Hlt. reflexivity. }
  split; [exact Hrb|].
  split.
  { intros r Hspan. destruct (Hkept r Hspan) as [c [Hcs Hp]].
    exists c. split; [exact Hcs|].
    rewrite getitem_inside by (try assumption; split; lia).
    rewrite Hp. reflexivity. }
  intros Hlt c Hspan. rewrite getitem_inside by (try assumption; split; lia).
  rewrite (Hrstop Hlt c Hspan). reflexivity.
Qed.

Lemma growth_stops_at_first_absent_witness :
  exists stop_row stop_col,
    _find_table_range_from_boolean_array_starting_at (3, 3) test_boolean_array
      = Returns (TableRange.mk 3 3 stop_row stop_col)
    /\ 3 <= stop_col <= Z.of_nat (n_cols test_boolean_array)
    /\ (forall c, 3 <= c < stop_col ->
          getitem test_boolean_array 3 c = Returns true)
    /\ (stop_col < Z.of_nat (n_cols test_boolean_array) ->
          getitem test_boolean_array 3 stop_col = Returns false)
    /\ 3 <= stop_row <= Z.of_nat (n_rows test_boolean_array)
    /\ (forall r, 3 <= r < stop_row ->
          exists c, 3 <= c < stop_col
                    /\ getitem test_boolean_array r c = Returns true)
    /\ (stop_row < Z.of_nat (n_rows test_boolean_array) ->
          forall c, 3 <= c < stop_col ->
            getitem test_boolean_array stop_row c = Returns false).
Proof.
  apply (proj1 growth_stops_at_first_absent test_boolean_array 3 3).
  - reflexivity.
  - unfold in_bounds. simpl. lia.
Defined.

(** C2.  On the frame of the module's example, the sweep with minima 1 and 1
    returns the ranges [(0, 0) - (2, 2)] and [(1, 3) - (3, 5)], in that order;
    with minima 1 and 3 it returns the empty list. *)
Theorem find_all_table_range_example :
  test_df = mk_DataFrame [0; 1; 2] [0; 1; 2; 3; 4]
              [[Str "a"; Str "b"; NaN; NaN; NaN];
               [Int 0; Float 5 1; NaN; Str "c"; Str "d"];
               [NaN; NaN; NaN; NaN; Int (-4)]]
  /\ find_all_table_range test_df 1 1
     = Returns [TableRange.mk 0 0 2 2; TableRange.mk 1 3 3 5]
  /\ find_all_table_range test_df 1 3 = Returns [].
Proof. repeat split; vm_compute; reflexivity. Qed.

(** C3.  The ranges that a call of the sweep returns are pairwise disjoint:
    no cell lies in the rectangles of two ranges returned at different places
    of the list, hence none in the rectangles of two different ranges. *)
Theorem find_all_ranges_disjoint
  (df : DataFrame) (min_n_rows min_n_cols : Z) (ranges : list TableRange) :
  well_shaped_df df = true ->
  find_all_table_range df min_n_rows min_n_cols = Returns ranges ->
  (forall i j p q, i <> j ->
     nth_error ranges i = Some p -> nth_error ranges j = Some q ->
     forall r c, covers p r c -> covers q r c -> False)
  /\ (forall p q, In p ranges -> In q ranges -> p <> q ->
        forall r c, covers p r c -> covers q r c -> False).
Proof.
  intros Hw Hret.
  destruct (find_all_sound df min_n_rows min_n_cols Hw)
    as [[ranges' arr] [Hrun (_ & _ & _ & _ & Hdis)]].
  cbn [fst snd] in *. rewrite Hrun in Hret. injection Hret as ->.
  assert (Hidx : forall i j p q, i <> j ->
            nth_error ranges i = Some p -> nth_error ranges j = Some q ->
            forall r c, covers p r c -> covers q r c -> False).
  { intros i j p q Hij Hi Hj r c Hp Hq.
    destruct (Nat.lt_total i j) as [Hlt|[Heq|Hgt]]; [|contradiction|].
    - exact (ForallOrdPairs_nth_error disjoint ranges Hdis i j p q Hlt Hi Hj r c Hp Hq).
    - exact (ForallOrdPairs_nth_error disjoint ranges Hdis j i q p Hgt Hj Hi r c Hq Hp). }
  split; [exact Hidx|].
  intros p q Hp Hq Hne.
  apply In_nth_error in Hp as [i Hi]. apply In_nth_error in Hq as [j Hj].
  apply (Hidx i j); try assumption.
  intros ->. rewrite Hi in Hj. injection Hj as ->. contradiction.
Qed.

Lemma find_all_ranges_disjoint_witness :
  (forall i j p q, i <> j ->
     nth_error [TableRange.mk 0 0 2 2; TableRange.mk 1 3 3 5] i = Some p ->
     nth_error [TableRange.mk 0 0 2 2; TableRange.mk 1 3 3 5] j = Some q ->
     forall r c, covers p r c -> covers q r c -> False)
  /\ (forall p q,
        In p [TableRange.mk 0 0 2 2; TableRange.mk 1 3 3 5] ->
        In q [TableRange.mk 0 0 2 2; TableRange.mk 1 3 3 5] -> p <> q ->
        forall r c, covers p r c -> covers q r c -> False).
Proof.
  apply (find_all_ranges_disjoint test_df 1 1
           [TableRange.mk 0 0 2 2; TableRange.mk 1 3 3 5]);
    reflexivity.
Defined.

(** C4.  The anchor row of every range that a call of the sweep returns is
    present all over the columns of the range: each cell of the frame at
    [(start_row, c)] with [start_col <= c < stop_col] exists and is not
    missing. *)
Theorem find_all_header_row_present
  (df : DataFrame) (min_n_rows min_n_cols : Z) (ranges : list TableRange) :
  well_shaped_df df = true ->
  find_all_table_range df min_n_rows min_n_cols = Returns ranges ->
  forall p, In p ranges ->
    forall c, TableRange.start_col p <= c < TableRange.stop_col p ->
      exists x, cell_at df (TableRange.start_row p) c = Some x
                /\ notna_cell x = true.
Proof.
  intros Hw Hret.
  destruct (find_all_sound df min_n_rows min_n_cols Hw)
    as [[ranges' arr] [Hrun (_ & _ & _ & Hacc & _)]].
  cbn [fst snd] in *. rewrite Hrun in Hret. injection Hret as ->.
  intros p Hp c Hc. rewrite Forall_forall in Hacc.
  destruct (Hacc p Hp) as (_ & Hr & Hrb & Hcl & Hcb & _ & Hhead & _).
  apply peek_notna; [exact Hw| |apply Hhead, Hc].
  unfold in_bounds. lia.
Qed.

Lemma find_all_header_row_present_witness :
  find_all_table_range test_df 1 1
  = Returns [TableRange.mk 0 0 2 2; TableRange.mk 1 3 3 5]
  /\ (forall p, In p [TableRange.mk 0 0 2 2; TableRange.mk 1 3 3 5] ->
        forall c, TableRange.start_col p <= c < TableRange.stop_col p ->
          exists x, cell_at test_df (TableRange.start_row p) c = Some x
                    /\ notna_cell x = true).
Proof.
  split; [reflexivity|].
  apply (find_all_header_row_present test_df 1 1
           [TableRange.mk 0 0 2 2; TableRange.mk 1 3 3 5]);
    reflexivity.
Defined.

(** C5.  [has_min_size] holds exactly when the number of rows is at least
    [min_n_rows] and the number of columns at least [min_n_cols]; every range
    that a call of the sweep returns passes it, so a range that meets only
    one of the two minima is never returned. *)
Theorem find_all_ranges_have_min_size :
  (forall (p : TableRange) (min_n_rows min_n_cols : Z),
      TableRange.has_min_size p min_n_rows min_n_cols = true
      <-> (TableRange.stop_row p - TableRange.start_row p >= min_n_rows
           /\ TableRange.stop_col p - TableRange.start_col p >= min_n_cols))
  /\ (forall (df : DataFrame) (min_n_rows min_n_cols : Z)
             (ranges : list TableRange),
        well_shaped_df df = true ->
        find_all_table_range df min_n_rows min_n_cols = Returns ranges ->
        forall p, In p ranges ->
          TableRange.has_min_size p min_n_rows min_n_cols = true
          /\ TableRange.stop_row p - TableRange.start_row p >= min_n_rows
          /\ TableRange.stop_col p - TableRange.start_col p >= min_n_cols).
Proof.
  assert (Hiff : forall (p : TableRange) (min_n_rows min_n_cols : Z),
      TableRange.has_min_size p min_n_rows min_n_cols = true
      <-> (TableRange.stop_row p - TableRange.start_row p >= min_n_rows
           /\ TableRange.stop_col p - TableRange.start_col p >= min_n_cols)).
  { intros p mr mc. unfold TableRange.has_min_size.
    destruct (Z.ltb_spec (TableRange.stop_row p - TableRange.start_row p) mr);
      destruct (Z.ltb_spec (TableRange.stop_col p - TableRange.start_col p) mc);
      split; intros; try discriminate; try reflexivity; lia. }
  split; [exact Hiff|].
  intros df mr mc ranges Hw Hret.
  destruct (find_all_sound df mr mc Hw) as [[ranges' arr] [Hrun (_ & _ & _ & Hacc & _)]].
  cbn [fst snd] in *. rewrite Hrun in Hret. injection Hret as ->.
  intros p Hp. rewrite Forall_forall in Hacc.
  destruct (Hacc p Hp) as (Hsize & _).
  split; [exact Hsize|]. apply Hiff, Hsize.
Qed.

Lemma find_all_ranges_have_min_size_witness :
  find_all_table_range test_df 1 2
  = Returns [TableRange.mk 0 0 2 2; TableRange.mk 1 3 3 5]
  /\ (forall p, In p [TableRange.mk 0 0 2 2; TableRange.mk 1 3 3 5] ->
        TableRange.has_min_size p 1 2 = true
        /\ TableRange.stop_row p - TableRange.start_row p >= 1
        /\ TableRange.stop_col p - TableRange.start_col p >= 2).
Proof.
  split; [reflexivity|].
  apply (proj2 find_all_ranges_have_min_size test_df 1 2
           [TableRange.mk 0 0 2 2; TableRange.mk 1 3 3 5]);
    reflexivity.
Defined.

(** C6.  A candidate that fails the size test changes nothing: the visit of
    its anchor returns the list of ranges and the working array it was given.
    The working array changes only when a range is accepted, and then by
    [fill_inplace] alone.  So the cells of a rejected candidate stay
    available: on [staircase_df] with minima 1 and 2 the candidate of the
    anchor [(0, 0)] is rejected, and the range returned later contains its
    cell [(1, 0)]. *)
Theorem rejected_candidate_changes_nothing :
  (forall (min_n_rows min_n_cols row col : Z) (list_table_range : list TableRange)
          (value_exists_at : ndarray) (table_range : TableRange),
      getitem value_exists_at row col = Returns true ->
      _find_table_range_from_boolean_array_starting_at (row, col) value_exists_at
        = Returns table_range ->
      TableRange.has_min_size table_range min_n_rows min_n_cols = false ->
      visit min_n_rows min_n_cols row (list_table_range, value_exists_at) col
        = Returns (list_table_range, value_exists_at))
  /\ (forall (min_n_rows min_n_cols row col : Z) (st st' : sweep_state),
        visit min_n_rows min_n_cols row st col = Returns st' ->
        st' = st
        \/ exists table_range,
             _find_table_range_from_boolean_array_starting_at (row, col) (snd st)
               = Returns table_range
             /\ TableRange.has_min_size table_range min_n_rows min_n_cols = true
             /\ st' = (fst st ++ [table_range],
                       TableRange.fill_inplace table_range (snd st) false))
  /\ (_find_table_range_from_boolean_array_starting_at (0, 0)
        (notna_to_numpy staircase_df) = Returns (TableRange.mk 0 0 2 1)
      /\ TableRange.has_min_size (TableRange.mk 0 0 2 1) 1 2 = false
      /\ find_all_table_range staircase_df 1 2 = Returns [TableRange.mk 1 0 2 2]
      /\ covers (TableRange.mk 0 0 2 1) 1 0
      /\ covers (TableRange.mk 1 0 2 2) 1 0).
Proof.
  split; [|split].
  - intros mr mc row col acc arr rng Hanchor Hgrow Hsize.
    unfold visit. rewrite Hanchor. cbn [bind]. rewrite Hgrow. cbn [bind].
    rewrite Hsize. reflexivity.
  - intros mr mc row col [acc arr] st' Hvisit. unfold visit in Hvisit. cbn [fst snd].
    destruct (getitem arr row col) as [present|e]; [|discriminate].
    cbn [bind] in Hvisit.
    destruct present; [|left; injection Hvisit as <-; reflexivity].
    destruct (_find_table_range_from_boolean_array_starting_at (row, col) arr)
      as [rng|e]; [|discriminate].
    cbn [bind] in Hvisit.
    destruct (TableRange.has_min_size rng mr mc) eqn:Hsize;
      injection Hvisit as <-; [right|left; reflexivity].
    exists rng. repeat split. exact Hsize.
  - unfold covers. cbn. repeat split; try reflexivity; lia.
Qed.

Lemma rejected_candidate_changes_nothing_witness :
  visit 1 2 0 ([], notna_to_numpy staircase_df) 0
    = Returns ([], notna_to_numpy staircase_df).
Proof.
  apply (proj1 rejected_candidate_changes_nothing 1 2 0 0 []
           (notna_to_numpy staircase_df) (TableRange.mk 0 0 2 1));
    reflexivity.
Defined.

(** ** Slices that reach past the edge *)

Lemma clamp_bound_min (i : Z) (n : nat) :
  0 <= i -> clamp_bound (Z.min i (Z.of_nat n)) n = clamp_bound i n.
Proof.
  intros Hi. destruct (Z_le_dec i (Z.of_nat n)) as [Hle|Hgt].
  - rewrite Z.min_l by lia. reflexivity.
  - rewrite Z.min_r by lia.
    rewrite clamp_bound_inside by lia. rewrite clamp_bound_above by lia. reflexivity.
Qed.

Lemma slice_min {A : Type} (start stop : Z) (l : list A) :
  0 <= stop -> slice start (Z.min stop (Z.of_nat (length l))) l = slice start stop l.
Proof. intros H. unfold slice. rewrite clamp_bound_min by exact H. reflexivity. Qed.

Lemma In_slice {A : Type} (start stop : Z) (l : list A) (x : A) :
  In x (slice start stop l) -> In x l.
Proof.
  intros H. apply In_nth_error in H as [k Hk].
  rewrite nth_error_slice in Hk.
  destruct (Z.of_nat k <? _); [|discriminate].
  eapply nth_error_In; exact Hk.
Qed.

(** C7, as the code has it.  [to_dataframe] never raises; a range that
    reaches past the frame is cut at the frame's edge: with non-negative stop
    bounds, the result is that of the range whose [stop_row] is lowered to the
    number of rows and whose [stop_col] to the number of columns. *)
Theorem to_dataframe_cuts_at_the_edge :
  (forall (rng : TableRange) (df : DataFrame),
      exists d, TableRange.to_dataframe rng df = Returns d)
  /\ (forall (rng : TableRange) (df : DataFrame),
        well_shaped_df df = true ->
        0 <= TableRange.stop_row rng -> 0 <= TableRange.stop_col rng ->
        TableRange.to_dataframe rng df
        = TableRange.to_dataframe
            (TableRange.mk (TableRange.start_row rng) (TableRange.start_col rng)
               (Z.min (TableRange.stop_row rng) (Z.of_nat (fst (df_shape df))))
               (Z.min (TableRange.stop_col rng) (Z.of_nat (snd (df_shape df)))))
            df).
Proof.
  split.
  - intros rng df. eexists. reflexivity.
  - intros [r0 c0 r1 c1] df Hw Hr Hc.
    cbn [TableRange.start_row TableRange.start_col
         TableRange.stop_row TableRange.stop_col] in *.
    unfold well_shaped_df in Hw. apply andb_prop in Hw as [H1 H2].
    apply Nat.eqb_eq in H1. rewrite forallb_forall in H2.
    unfold TableRange.to_dataframe, iloc_slices, df_shape.
    cbn [TableRange.start_row TableRange.start_col
         TableRange.stop_row TableRange.stop_col fst snd].
    rewrite !slice_min by assumption.
    rewrite <- H1, slice_min by assumption.
    f_equal. f_equal.
    apply map_ext_in. intros line Hin.
    apply In_slice in Hin. apply H2, Nat.eqb_eq in Hin.
    rewrite <- Hin, slice_min by assumption. reflexivity.
Qed.

Lemma to_dataframe_cuts_at_the_edge_witness :
  TableRange.to_dataframe (TableRange.mk 1 3 4 6) test_df
  = TableRange.to_dataframe
      (TableRange.mk 1 3 (Z.min 4 (Z.of_nat (fst (df_shape test_df))))
         (Z.min 6 (Z.of_nat (snd (df_shape test_df)))))
      test_df.
Proof.
  apply (proj2 to_dataframe_cuts_at_the_edge (TableRange.mk 1 3 4 6) test_df).
  - reflexivity.
  - simpl. lia.
  - simpl. lia.
Defined.

(** C7, as stated, fails: the frame of the module's test has three rows and
    five columns, the range [(1, 3) - (4, 6)] reaches past both, and
    [to_dataframe] returns the frame of [(1, 3) - (3, 5)] instead of raising. *)
Lemma to_dataframe_past_the_edge :
  df_shape test_df = (3%nat, 5%nat)
  /\ TableRange.to_dataframe (TableRange.mk 1 3 4 6) test_df
     = Returns (mk_DataFrame [1; 2] [3; 4]
                  [[Str "c"; Str "d"]; [NaN; Int (-4)]])
  /\ (forall e, TableRange.to_dataframe (TableRange.mk 1 3 4 6) test_df <> Raises e).
Proof. repeat split; try reflexivity. intros e H. discriminate H. Qed.

(** C8, as the code has it.  The constructor stores the four coordinates it
    is given and checks only the lengths of the two positions, so the range it
    builds is ordered exactly when the positions are.  The ranges built by
    the growth routine from an anchor inside the array, and the ranges that a
    call of the sweep returns, do satisfy [start_row <= stop_row] and
    [start_col <= stop_col]; a range with stop equal to start is among them.
    No method of the class assigns a coordinate once the range is built (the
    embedding hands the methods the range as a record they only read), so no
    operation breaks the order of a range that has it. *)
Theorem table_range_order :
  (forall r0 c0 r1 c1 : Z,
      TableRange.__init__ [r0; c0] [r1; c1] = Returns (TableRange.mk r0 c0 r1 c1))
  /\ (forall start_pos stop_pos : list Z,
        length start_pos <> 2%nat \/ length stop_pos <> 2%nat ->
        TableRange.__init__ start_pos stop_pos = Raises ValueError)
  /\ (forall r0 c0 r1 c1 : Z,
        ordered (TableRange.mk r0 c0 r1 c1) <-> (r0 <= r1 /\ c0 <= c1))
  /\ (forall (a : ndarray) (start_row start_col : Z),
        well_shaped a = true -> in_bounds a start_row start_col ->
        exists rng,
          _find_table_range_from_boolean_array_starting_at (start_row, start_col) a
            = Returns rng
          /\ ordered rng)
  /\ (forall (df : DataFrame) (min_n_rows min_n_cols : Z)
             (ranges : list TableRange),
        well_shaped_df df = true ->
        find_all_table_range df min_n_rows min_n_cols = Returns ranges ->
        forall p, In p ranges -> ordered p)
  /\ (_find_table_range_from_boolean_array_starting_at (0, 0) test_boolean_array
        = Returns (TableRange.mk 0 0 0 0)
      /\ degenerate (TableRange.mk 0 0 0 0)
      /\ ordered (TableRange.mk 0 0 0 0)).
Proof.
  split; [reflexivity|].
  split.
  { intros start_pos stop_pos H. unfold TableRange.__init__.
    destruct (Nat.eqb_spec (length start_pos) 2); cbn [negb orb]; [|reflexivity].
    destruct (Nat.eqb_spec (length stop_pos) 2); cbn [negb]; [|reflexivity].
    destruct H; contradiction. }
  split; [intros; unfold ordered; cbn; tauto|].
  split.
  { intros a start_row start_col Hw Hb.
    destruct (grow_inside a Hw start_row start_col Hb)
      as (stop_row & stop_col & Hgrow & Hcb & _ & _ & Hrb & _).
    eexists. split; [exact Hgrow|]. unfold ordered. cbn. lia. }
  split.
  { intros df mr mc ranges Hw Hret.
    destruct (find_all_sound df mr mc Hw) as [[ranges' arr] [Hrun (_ & _ & _ & Hacc & _)]].
    cbn [fst snd] in *. rewrite Hrun in Hret. injection Hret as ->.
    intros p Hp. rewrite Forall_forall in Hacc.
    destruct (Hacc p Hp) as (_ & Hr & _ & Hc & _).
    unfold ordered. lia. }
  split; [reflexivity|]. unfold degenerate, ordered. cbn. lia.
Qed.

Lemma table_range_order_witness :
  exists rng,
    _find_table_range_from_boolean_array_starting_at (0, 1) test_boolean_array
      = Returns rng
    /\ ordered rng.
Proof.
  apply (proj1 (proj2 (proj2 (proj2 table_range_order))) test_boolean_array 0 1).
  - reflexivity.
  - unfold in_bounds. simpl. lia.
Defined.

(** C8, as stated, fails: the constructor accepts the positions [(1, 1)] and
    [(0, 0)], and the range it returns starts after its stop. *)
Lemma init_keeps_inverted_positions :
  TableRange.__init__ [1; 1] [0; 0] = Returns (TableRange.mk 1 1 0 0)
  /\ ~ ordered (TableRange.mk 1 1 0 0).
Proof. split; [reflexivity|]. unfold ordered. cbn. lia. Qed.

(** ** Equality of ranges *)

Lemma eq_reflexive (p : TableRange) : TableRange.__eq__ p p = true.
Proof. unfold TableRange.__eq__. rewrite !Z.eqb_refl. reflexivity. Qed.

Lemma eq_sound (p q : TableRange) : TableRange.__eq__ p q = true -> p = q.
Proof.
  destruct p, q. unfold TableRange.__eq__. cbn. intros H.
  repeat (apply andb_prop in H as [H ?]).
  repeat match goal with E : (_ =? _) = true |- _ => apply Z.eqb_eq in E end.
  congruence.
Qed.

Lemma list_eq_reflexive (l : list TableRange) : list_eq l l = true.
Proof.
  induction l as [|p l IH]; cbn; [reflexivity|].
  rewrite eq_reflexive, IH. reflexivity.
Qed.

(** C9.  The sweep is deterministic.  A call for the frame under a
    reference leaves every frame of the store as it found it, the caller's
    included, and every array that existed before; so the store that the
    first call leaves holds the same frame.  A second call for that frame, on
    the store that the first call left or on any store in which the frame is
    still what it was, has the outcome of the first: the same exception, or
    the same list, equal as the tests compare lists, range by range on the
    four bounds and in the same order. *)
Theorem find_all_deterministic (df : nat) (min_n_rows min_n_cols : Z) (h : store) :
  let first := find_all_table_range_of df min_n_rows min_n_cols h in
  frames (snd first) = frames h
  /\ (forall r, (r < next_array h)%nat -> arrays (snd first) r = arrays h r)
  /\ fst (find_all_table_range_of df min_n_rows min_n_cols (snd first)) = fst first
  /\ (forall h', frames h' df = frames h df ->
        let second := find_all_table_range_of df min_n_rows min_n_cols h' in
        fst second = fst first
        /\ forall l1, fst first = Returns l1 ->
             exists l2,
               fst second = Returns l2
               /\ list_eq l1 l2 = true
               /\ length l1 = length l2
               /\ forall i p q, nth_error l1 i = Some p -> nth_error l2 i = Some q ->
                    TableRange.__eq__ p q = true
                    /\ TableRange.start_row p = TableRange.start_row q
                    /\ TableRange.start_col p = TableRange.start_col q
                    /\ TableRange.stop_row p = TableRange.stop_row q
                    /\ TableRange.stop_col p = TableRange.stop_col q).
Proof.
  cbn zeta.
  destruct (find_all_of_frame df min_n_rows min_n_cols h) as (Hframes & _ & Harrays).
  cbn zeta in Hframes, Harrays.
  split; [exact Hframes|].
  split; [intros r Hr; apply Harrays; lia|].
  split; [apply find_all_of_frame_only; rewrite Hframes; reflexivity|].
  intros h' Hsame.
  pose proof (find_all_of_frame_only df min_n_rows min_n_cols h h' Hsame) as Hout.
  split; [exact Hout|].
  intros l1 Hfirst. exists l1. rewrite Hout.
  split; [exact Hfirst|]. split; [apply list_eq_reflexive|]. split; [reflexivity|].
  intros i p q Hp Hq. rewrite Hp in Hq. injection Hq as <-.
  split; [apply eq_reflexive|]. repeat split.
Qed.

Lemma find_all_deterministic_witness :
  fst (find_all_table_range_of 0 1 1
         (mk_store (fun _ => mk_frame_object test_df false)
            (fun _ => mk_array_object test_boolean_array false) 7))
  = fst (find_all_table_range_of 0 1 1 (store_of test_df false)).
Proof.
  apply (proj1 (proj2 (proj2 (proj2
           (find_all_deterministic 0 1 1 (store_of test_df false))))
           (mk_store (fun _ => mk_frame_object test_df false)
              (fun _ => mk_array_object test_boolean_array false) 7)
           eq_refl)).
Defined.

(** C10, as the code has it.  For a range with [start_row <= stop_row] and
    [start_col <= stop_col], a range with stop equal to start included,
    [has_min_size] returns true whenever both minima are at most 0.  With
    both minima at least 1 every range with stop equal to start in a dimension
    fails the test; and only then do all of them fail, even among the ordered
    ones. *)
Theorem has_min_size_nonpositive_minima :
  (forall (rng : TableRange) (min_n_rows min_n_cols : Z),
      ordered rng -> min_n_rows <= 0 -> min_n_cols <= 0 ->
      TableRange.has_min_size rng min_n_rows min_n_cols = true)
  /\ (forall (rng : TableRange) (min_n_rows min_n_cols : Z),
        degenerate rng -> 1 <= min_n_rows -> 1 <= min_n_cols ->
        TableRange.has_min_size rng min_n_rows min_n_cols = false)
  /\ (forall min_n_rows min_n_cols : Z,
        (forall rng : TableRange, ordered rng -> degenerate rng ->
           TableRange.has_min_size rng min_n_rows min_n_cols = false) ->
        1 <= min_n_rows /\ 1 <= min_n_cols).
Proof.
  split; [|split].
  - intros rng mr mc [Hr Hc] Hmr Hmc. unfold TableRange.has_min_size.
    destruct (Z.ltb_spec (TableRange.stop_row rng - TableRange.start_row rng) mr); [lia|].
    destruct (Z.ltb_spec (TableRange.stop_col rng - TableRange.start_col rng) mc); [lia|].
    reflexivity.
  - intros rng mr mc Hdeg Hmr Hmc. unfold TableRange.has_min_size.
    destruct (Z.ltb_spec (TableRange.stop_row rng - TableRange.start_row rng) mr);
      [reflexivity|].
    destruct (Z.ltb_spec (TableRange.stop_col rng - TableRange.start_col rng) mc);
      [reflexivity|].
    destruct Hdeg as [Hd|Hd]; rewrite Hd in *; lia.
  - intros mr mc Hall.
    assert (Hpass : forall h w, mr <= h -> mc <= w ->
              TableRange.has_min_size (TableRange.mk 0 0 h w) mr mc = true).
    { intros h w Hh Hw'. unfold TableRange.has_min_size.
      cbn [TableRange.start_row TableRange.start_col
           TableRange.stop_row TableRange.stop_col].
      destruct (Z.ltb_spec (h - 0) mr); [lia|].
      destruct (Z.ltb_spec (w - 0) mc); [lia|]. reflexivity. }
    split.
    + destruct (Z_le_dec 1 mr) as [|Hn]; [assumption|exfalso].
      specialize (Hall (TableRange.mk 0 0 0 (Z.max mc 0))).
      rewrite Hpass in Hall by lia.
      assert (true = false); [|discriminate].
      apply Hall; unfold ordered, degenerate; cbn; lia.
    + destruct (Z_le_dec 1 mc) as [|Hn]; [assumption|exfalso].
      specialize (Hall (TableRange.mk 0 0 (Z.max mr 0) 0)).
      rewrite Hpass in Hall by lia.
      assert (true = false); [|discriminate].
      apply Hall; unfold ordered, degenerate; cbn; lia.
Qed.

Lemma has_min_size_nonpositive_minima_witness :
  TableRange.has_min_size (TableRange.mk 0 0 0 0) 0 (-1) = true.
Proof.
  apply (proj1 has_min_size_nonpositive_minima (TableRange.mk 0 0 0 0) 0 (-1)).
  - unfold ordered. simpl. lia.
  - lia.
  - lia.
Defined.

(** C10, as stated, fails: the range [(1, 1) - (0, 0)], which the constructor
    builds, does not pass the size test although both minima are 0. *)
Lemma has_min_size_of_inverted_range :
  TableRange.__init__ [1; 1] [0; 0] = Returns (TableRange.mk 1 1 0 0)
  /\ TableRange.has_min_size (TableRange.mk 1 1 0 0) 0 0 = false.
Proof. split; reflexivity. Qed.

(** * Further properties of the module *)

(** ** The growth routine at its anchor *)

Section GrowthAnchor.

Variable a : ndarray.
Hypothesis a_shaped : well_shaped a = true.

(** From a present anchor the range has at least one row and one column;
    from an absent one it has none. *)
Lemma grow_present (start_row start_col stop_row stop_col : Z) :
  in_bounds a start_row start_col ->
  _find_table_range_from_boolean_array_starting_at (start_row, start_col) a
    = Returns (TableRange.mk start_row start_col stop_row stop_col) ->
  peek a start_row start_col = true ->
  start_row < stop_row /\ start_col < stop_col.
Proof.
  intros Hb Hrun Hanchor.
  destruct (grow_inside a a_shaped start_row start_col Hb)
    as (sr & sc & Hgrow & Hcb & Hhead & Hcstop & Hrb & Hkept & Hrstop).
  rewrite Hrun in Hgrow. injection Hgrow as <- <-.
  assert (Hwide : start_col < stop_col).
  { destruct (Z_lt_dec start_col stop_col) as [|Hn]; [assumption|].
    assert (stop_col = start_col) by lia. subst stop_col.
    destruct Hb as [_ Hc]. rewrite Hcstop in Hanchor by lia. discriminate. }
  split; [|exact Hwide].
  destruct (Z_lt_dec start_row stop_row) as [|Hn]; [assumption|].
  assert (stop_row = start_row) by lia. subst stop_row.
  destruct Hb as [Hr _].
  rewrite (Hrstop ltac:(lia) start_col) in Hanchor by lia. discriminate.
Qed.

Lemma grow_absent (start_row start_col : Z) :
  in_bounds a start_row start_col ->
  peek a start_row start_col = false ->
  _find_table_range_from_boolean_array_starting_at (start_row, start_col) a
    = Returns (TableRange.mk start_row start_col start_row start_col).
Proof.
  intros Hb Hanchor.
  destruct (grow_inside a a_shaped start_row start_col Hb)
    as (sr & sc & Hgrow & Hcb & Hhead & Hcstop & Hrb & Hkept & Hrstop).
  assert (sc = start_col).
  { destruct (Z.eq_dec sc start_col) as [|Hne]; [assumption|].
    rewrite Hhead in Hanchor by lia. discriminate. }
  subst sc.
  assert (sr = start_row).
  { destruct (Z.eq_dec sr start_row) as [|Hne]; [assumption|].
    destruct (Hkept start_row ltac:(lia)) as [c [Hc _]]. lia. }
  subst sr. exact Hgrow.
Qed.

End GrowthAnchor.

(** X1: growth at the anchor.  From an anchor inside a boolean array the
    range returned by the growth routine has at least one row and one column
    exactly when the anchor cell is present; at an absent anchor it is the
    empty range from the anchor to itself. *)
Theorem growth_nonempty_iff_anchor_present
  (a : ndarray) (start_row start_col : Z) :
  well_shaped a = true ->
  in_bounds a start_row start_col ->
  exists rng,
    _find_table_range_from_boolean_array_starting_at (start_row, start_col) a
      = Returns rng
    /\ (getitem a start_row start_col = Returns true ->
          TableRange.start_row rng < TableRange.stop_row rng
          /\ TableRange.start_col rng < TableRange.stop_col rng)
    /\ (getitem a start_row start_col = Returns false ->
          rng = TableRange.mk start_row start_col start_row start_col).
Proof.
  intros Hw Hb.
  destruct (grow_inside a Hw start_row start_col Hb)
    as (sr & sc & Hgrow & _).
  exists (TableRange.mk start_row start_col sr sc).
  split; [exact Hgrow|].
  rewrite getitem_inside by assumption.
  split; intros Hanchor; injection Hanchor as Hanchor.
  - exact (grow_present a Hw start_row start_col sr sc Hb Hgrow Hanchor).
  - rewrite (grow_absent a Hw start_row start_col Hb Hanchor) in Hgrow.
    injection Hgrow as <- <-. reflexivity.
Qed.

Lemma growth_nonempty_iff_anchor_present_witness :
  exists rng,
    _find_table_range_from_boolean_array_starting_at (2, 1) test_boolean_array
      = Returns rng
    /\ (getitem test_boolean_array 2 1 = Returns true ->
          TableRange.start_row rng < TableRange.stop_row rng
          /\ TableRange.start_col rng < TableRange.stop_col rng)
    /\ (getitem test_boolean_array 2 1 = Returns false ->
          rng = TableRange.mk 2 1 2 1).
Proof.
  apply (growth_nonempty_iff_anchor_present test_boolean_array 2 1).
  - reflexivity.
  - unfold in_bounds. simpl. lia.
Defined.

(** ** The growth routine outside the array *)

Lemma norm_index_past (i : Z) (n : nat) :
  Z.of_nat n <= i -> norm_index i n = Raises IndexError.
Proof.
  intros H. unfold norm_index.
  destruct (Z.ltb_spec i (- Z.of_nat n)); [reflexivity|].
  destruct (Z.ltb_spec i 0); [lia|].
  destruct (Z.ltb_spec i (Z.of_nat n)); [lia|reflexivity].
Qed.

Lemma slice_empty {A : Type} (start : Z) (l : list A) : slice start start l = [].
Proof. unfold slice. rewrite Z.sub_diag. reflexivity. Qed.

(** X2: growth outside the array.  An anchor whose row is past the last row
    and whose column is inside the array makes the growth routine raise
    [IndexError]; an anchor whose column is past the last column, with a
    non-negative row, makes it return the empty range from the anchor to
    itself, whatever the row. *)
Theorem growth_outside_the_array (a : ndarray) (start_row start_col : Z) :
  (0 <= start_col < Z.of_nat (n_cols a) -> Z.of_nat (n_rows a) <= start_row ->
   _find_table_range_from_boolean_array_starting_at (start_row, start_col) a
     = Raises IndexError)
  /\ (well_shaped a = true ->
      Z.of_nat (n_cols a) <= start_col -> 0 <= start_row ->
      _find_table_range_from_boolean_array_starting_at (start_row, start_col) a
        = Returns (TableRange.mk start_row start_col start_row start_col)).
Proof.
  split.
  - intros Hc Hr. unfold _find_table_range_from_boolean_array_starting_at.
    rewrite range_cons by lia. cbn [scan_cols]. unfold getitem.
    change (n_rows (logical_not a)) with (n_rows a).
    rewrite norm_index_past by exact Hr. reflexivity.
  - intros Hw Hc Hr. unfold _find_table_range_from_boolean_array_starting_at.
    rewrite (range_nil start_col) by lia. cbn [scan_cols bind].
    destruct (Z_lt_dec start_row (Z.of_nat (n_rows a))) as [Hin|Hout].
    + rewrite range_cons by lia. cbn [scan_rows].
      rewrite row_slice_absent by (try assumption; lia).
      cbn [bind]. rewrite slice_empty. reflexivity.
    + rewrite range_nil by lia. reflexivity.
Qed.

Lemma growth_outside_the_array_witness :
  _find_table_range_from_boolean_array_starting_at (7, 1) test_boolean_array
    = Raises IndexError.
Proof.
  apply (proj1 (growth_outside_the_array test_boolean_array 7 1)); simpl; lia.
Defined.

(** ** Erasing a rectangle *)

(** X3: the effect of [fill_inplace].  On a well-shaped array and for a range
    with non-negative bounds, [fill_inplace] keeps the shape, and afterwards a
    cell inside the array holds the value when the range covers it and what
    it held before otherwise. *)
Theorem fill_inplace_changes_the_rectangle_only
  (rng : TableRange) (a : ndarray) (value : bool) :
  well_shaped a = true ->
  0 <= TableRange.start_row rng -> 0 <= TableRange.stop_row rng ->
  0 <= TableRange.start_col rng -> 0 <= TableRange.stop_col rng ->
  shape (TableRange.fill_inplace rng a value) = shape a
  /\ well_shaped (TableRange.fill_inplace rng a value) = true
  /\ forall r c, in_bounds a r c ->
       (covers rng r c ->
          getitem (TableRange.fill_inplace rng a value) r c = Returns value)
       /\ (~ covers rng r c ->
             getitem (TableRange.fill_inplace rng a value) r c = getitem a r c).
Proof.
  intros Hw Hr0 Hr1 Hc0 Hc1.
  split; [reflexivity|]. split; [apply well_shaped_fill, Hw|].
  intros r c Hb.
  assert (Hb' : in_bounds (TableRange.fill_inplace rng a value) r c) by exact Hb.
  rewrite (getitem_inside _ (well_shaped_fill rng a value Hw) r c Hb').
  rewrite (getitem_inside a Hw r c Hb).
  split; intros Hcov.
  - rewrite peek_fill_covered by (try assumption; repeat split; assumption).
    reflexivity.
  - rewrite peek_fill_outside by (try assumption; repeat split; assumption).
    reflexivity.
Qed.

Lemma fill_inplace_changes_the_rectangle_only_witness :
  shape (TableRange.fill_inplace (TableRange.mk 1 2 3 4) test_boolean_array true)
  = shape test_boolean_array
  /\ well_shaped
       (TableRange.fill_inplace (TableRange.mk 1 2 3 4) test_boolean_array true)
     = true
  /\ forall r c, in_bounds test_boolean_array r c ->
       (covers (TableRange.mk 1 2 3 4) r c ->
          getitem
            (TableRange.fill_inplace (TableRange.mk 1 2 3 4) test_boolean_array true)
            r c = Returns true)
       /\ (~ covers (TableRange.mk 1 2 3 4) r c ->
             getitem
               (TableRange.fill_inplace (TableRange.mk 1 2 3 4) test_boolean_array true)
               r c = getitem test_boolean_array r c).
Proof.
  apply (fill_inplace_changes_the_rectangle_only
           (TableRange.mk 1 2 3 4) test_boolean_array true);
    try reflexivity; simpl; lia.
Defined.

(** ** Cutting a rectangle out of a frame *)

Lemma nth_error_slice_inside {A : Type} (start stop : Z) (l : list A) (k : Z) :
  0 <= start <= stop -> stop <= Z.of_nat (length l) -> 0 <= k < stop - start ->
  nth_error (slice start stop l) (Z.to_nat k) = nth_error l (Z.to_nat (start + k)).
Proof.
  intros Hs He Hk.
  rewrite nth_error_slice, !clamp_bound_inside by lia.
  destruct (Z.ltb_spec (Z.of_nat (Z.to_nat k)) (stop - start)); [|lia].
  f_equal. lia.
Qed.

Lemma length_slice_inside {A : Type} (start stop : Z) (l : list A) :
  0 <= start <= stop -> stop <= Z.of_nat (length l) ->
  length (slice start stop l) = Z.to_nat (stop - start).
Proof.
  intros Hs He. unfold slice.
  rewrite !clamp_bound_inside by lia.
  rewrite length_firstn, length_skipn. lia.
Qed.

Lemma to_dataframe_inside (rng : TableRange) (df : DataFrame) :
  well_shaped_df df = true ->
  0 <= TableRange.start_row rng <= TableRange.stop_row rng ->
  TableRange.stop_row rng <= Z.of_nat (fst (df_shape df)) ->
  0 <= TableRange.start_col rng <= TableRange.stop_col rng ->
  TableRange.stop_col rng <= Z.of_nat (snd (df_shape df)) ->
  exists table,
    TableRange.to_dataframe rng df = Returns table
    /\ well_shaped_df table = true
    /\ df_shape table
       = (Z.to_nat (TableRange.stop_row rng - TableRange.start_row rng),
          Z.to_nat (TableRange.stop_col rng - TableRange.start_col rng))
    /\ (forall i, 0 <= i < TableRange.stop_row rng - TableRange.start_row rng ->
          nth_error (index table) (Z.to_nat i)
          = nth_error (index df) (Z.to_nat (TableRange.start_row rng + i)))
    /\ (forall j, 0 <= j < TableRange.stop_col rng - TableRange.start_col rng ->
          nth_error (columns table) (Z.to_nat j)
          = nth_error (columns df) (Z.to_nat (TableRange.start_col rng + j)))
    /\ (forall i j,
          0 <= i < TableRange.stop_row rng - TableRange.start_row rng ->
          0 <= j < TableRange.stop_col rng - TableRange.start_col rng ->
          cell_at table i j
          = cell_at df (TableRange.start_row rng + i) (TableRange.start_col rng + j)).
Proof.
  destruct rng as [r0 c0 r1 c1].
  cbn [TableRange.start_row TableRange.start_col
       TableRange.stop_row TableRange.stop_col].
  intros Hw Hr Hrb Hc Hcb.
  unfold df_shape in Hrb, Hcb. cbn [fst snd] in Hrb, Hcb.
  unfold well_shaped_df in Hw. apply andb_prop in Hw as [H1 H2].
  apply Nat.eqb_eq in H1. rewrite forallb_forall in H2.
  assert (Hline : forall line, In line (values df) ->
            length line = length (columns df)).
  { intros line Hin. apply Nat.eqb_eq, H2, Hin. }
  unfold TableRange.to_dataframe, iloc_slices.
  cbn [TableRange.start_row TableRange.start_col
       TableRange.stop_row TableRange.stop_col].
  eexists. split; [reflexivity|].
  unfold well_shaped_df, df_shape.
  cbn [index columns values].
  split.
  { rewrite length_map, !length_slice_inside by lia.
    rewrite Nat.eqb_refl. cbn [andb].
    rewrite forallb_forall. intros line Hin.
    apply in_map_iff in Hin as [line0 [<- Hin]].
    apply In_slice in Hin. apply Hline in Hin.
    rewrite !length_slice_inside by lia. apply Nat.eqb_refl. }
  split; [rewrite !length_slice_inside by lia; reflexivity|].
  split; [intros i Hi; apply nth_error_slice_inside; lia|].
  split; [intros j Hj; apply nth_error_slice_inside; lia|].
  intros i j Hi Hj. unfold cell_at. cbn [values].
  destruct (Z.ltb_spec i 0); [lia|]. destruct (Z.ltb_spec j 0); [lia|].
  destruct (Z.ltb_spec (r0 + i) 0); [lia|]. destruct (Z.ltb_spec (c0 + j) 0); [lia|].
  cbn [orb].
  rewrite nth_error_map, nth_error_slice_inside by lia.
  destruct (nth_error (values df) (Z.to_nat (r0 + i))) as [line|] eqn:Hrow;
    [|reflexivity].
  cbn [option_map].
  apply nth_error_In, Hline in Hrow.
  apply nth_error_slice_inside; lia.
Qed.

(** X4: what [to_dataframe] returns.  For a well-shaped frame and a range
    lying inside it, [to_dataframe] returns a well-shaped frame with
    [stop_row - start_row] rows and [stop_col - start_col] columns, whose
    labels are those of the rows and columns it selects and whose cell
    [(i, j)] is the cell [(start_row + i, start_col + j)] of the frame. *)
Theorem to_dataframe_extracts_the_rectangle (rng : TableRange) (df : DataFrame) :
  well_shaped_df df = true ->
  0 <= TableRange.start_row rng <= TableRange.stop_row rng ->
  TableRange.stop_row rng <= Z.of_nat (fst (df_shape df)) ->
  0 <= TableRange.start_col rng <= TableRange.stop_col rng ->
  TableRange.stop_col rng <= Z.of_nat (snd (df_shape df)) ->
  exists table,
    TableRange.to_dataframe rng df = Returns table
    /\ well_shaped_df table = true
    /\ df_shape table
       = (Z.to_nat (TableRange.stop_row rng - TableRange.start_row rng),
          Z.to_nat (TableRange.stop_col rng - TableRange.start_col rng))
    /\ (forall i, 0 <= i < TableRange.stop_row rng - TableRange.start_row rng ->
          nth_error (index table) (Z.to_nat i)
          = nth_error (index df) (Z.to_nat (TableRange.start_row rng + i)))
    /\ (forall j, 0 <= j < TableRange.stop_col rng - TableRange.start_col rng ->
          nth_error (columns table) (Z.to_nat j)
          = nth_error (columns df) (Z.to_nat (TableRange.start_col rng + j)))
    /\ (forall i j,
          0 <= i < TableRange.stop_row rng - TableRange.start_row rng ->
          0 <= j < TableRange.stop_col rng - TableRange.start_col rng ->
          cell_at table i j
          = cell_at df (TableRange.start_row rng + i) (TableRange.start_col rng + j)).
Proof. apply to_dataframe_inside. Qed.

Lemma to_dataframe_extracts_the_rectangle_witness :
  exists table,
    TableRange.to_dataframe (TableRange.mk 1 3 3 5) test_df = Returns table
    /\ well_shaped_df table = true
    /\ df_shape table = (Z.to_nat (3 - 1), Z.to_nat (5 - 3))
    /\ (forall i, 0 <= i < 3 - 1 ->
          nth_error (index table) (Z.to_nat i)
          = nth_error (index test_df) (Z.to_nat (1 + i)))
    /\ (forall j, 0 <= j < 5 - 3 ->
          nth_error (columns table) (Z.to_nat j)
          = nth_error (columns test_df) (Z.to_nat (3 + j)))
    /\ (forall i j, 0 <= i < 3 - 1 -> 0 <= j < 5 - 3 ->
          cell_at table i j = cell_at test_df (1 + i) (3 + j)).
Proof.
  apply (to_dataframe_extracts_the_rectangle (TableRange.mk 1 3 3 5) test_df);
    try reflexivity; simpl; lia.
Defined.

(** ** One step of the sweep, by cases *)

Section SweepCases.

Variable a0 : ndarray.
Variables min_n_rows min_n_cols : Z.

Let last_row : Z := Z.of_nat (n_rows a0).
Let last_col : Z := Z.of_nat (n_cols a0).

(** The visit of a position either leaves the state alone, because the cell
    is absent or because the candidate is too small, or accepts a range with
    at least one row and one column that starts at the position. *)
Lemma visit_cases (row col : Z) (acc : list TableRange) (arr : ndarray)
  (st' : sweep_state) :
  well_shaped arr = true -> in_bounds arr row col ->
  visit min_n_rows min_n_cols row (acc, arr) col = Returns st' ->
  (st' = (acc, arr)
   /\ (peek arr row col = false
       \/ exists stop_row stop_col,
            row < stop_row /\ col < stop_col
            /\ TableRange.has_min_size (TableRange.mk row col stop_row stop_col)
                 min_n_rows min_n_cols = false))
  \/ (exists stop_row stop_col,
        peek arr row col = true
        /\ _find_table_range_from_boolean_array_starting_at (row, col) arr
           = Returns (TableRange.mk row col stop_row stop_col)
        /\ row < stop_row /\ col < stop_col
        /\ TableRange.has_min_size (TableRange.mk row col stop_row stop_col)
             min_n_rows min_n_cols = true
        /\ st' = (acc ++ [TableRange.mk row col stop_row stop_col],
                  TableRange.fill_inplace
                    (TableRange.mk row col stop_row stop_col) arr false)).
Proof.
  intros Hw Hb Hvisit. unfold visit in Hvisit.
  rewrite getitem_inside in Hvisit by assumption. cbn [bind] in Hvisit.
  destruct (peek arr row col) eqn:Hanchor.
  2:{ left. injection Hvisit as <-. split; [reflexivity|left; reflexivity]. }
  destruct (grow_inside arr Hw row col Hb) as (stop_row & stop_col & Hgrow & _).
  destruct (grow_present arr Hw row col stop_row stop_col Hb Hgrow Hanchor)
    as [Htall Hwide].
  rewrite Hgrow in Hvisit. cbn [bind] in Hvisit.
  destruct (TableRange.has_min_size (TableRange.mk row col stop_row stop_col)
              min_n_rows min_n_cols) eqn:Hsize;
    injection Hvisit as <-.
  - right. exists stop_row, stop_col.
    repeat split; first [assumption | reflexivity].
  - left. split; [reflexivity|]. right. exists stop_row, stop_col.
    repeat split; first [assumption | reflexivity].
Qed.

(** An invariant [I row col st] of the state [st] in which the sweep reaches
    the position [(row, col)] holds at the end of the sweep as soon as every
    visit carries it to the next column and every end of row to the next
    row. *)
Section Invariant.

Variable I : Z -> Z -> sweep_state -> Prop.

Hypothesis I_visit :
  forall row col st st',
    0 <= row < last_row -> 0 <= col < last_col ->
    sweep_inv a0 min_n_rows min_n_cols row st ->
    I row col st ->
    visit min_n_rows min_n_cols row st col = Returns st' ->
    I row (col + 1) st'.

Hypothesis I_next_row :
  forall row st, 0 <= row < last_row -> I row last_col st -> I (row + 1) 0 st.

Lemma inner_loop_carries (row : Z) :
  0 <= row < last_row ->
  forall n lo st,
    Z.to_nat (last_col - lo) = n -> 0 <= lo <= last_col ->
    sweep_inv a0 min_n_rows min_n_cols row st -> I row lo st ->
    exists st',
      for_each (visit min_n_rows min_n_cols row) (range lo last_col) st = Returns st'
      /\ sweep_inv a0 min_n_rows min_n_cols row st'
      /\ I row last_col st'.
Proof.
  intros Hrow. induction n as [|n IH]; intros lo st Hn Hlo Hinv HI.
  - rewrite range_nil by lia. exists st.
    replace last_col with lo by lia. split; [reflexivity|split; assumption].
  - rewrite range_cons by lia. cbn [for_each].
    destruct (visit_inv a0 min_n_rows min_n_cols row lo st Hrow ltac:(fold last_col; lia) Hinv)
      as [st1 [Hstep Hinv1]].
    rewrite Hstep. cbn [bind].
    apply IH; [lia|lia|exact Hinv1|].
    apply (I_visit row lo st st1); try assumption. lia.
Qed.

Lemma outer_loop_carries :
  forall n lo st,
    Z.to_nat (last_row - lo) = n -> 0 <= lo <= last_row ->
    sweep_inv a0 min_n_rows min_n_cols lo st -> I lo 0 st ->
    exists st',
      for_each
        (fun st row =>
           for_each (visit min_n_rows min_n_cols row) (range 0 last_col) st)
        (range lo last_row) st = Returns st'
      /\ sweep_inv a0 min_n_rows min_n_cols last_row st'
      /\ I last_row 0 st'.
Proof.
  induction n as [|n IH]; intros lo st Hn Hlo Hinv HI.
  - rewrite (range_nil lo last_row) by lia. exists st.
    replace last_row with lo by lia. split; [reflexivity|split; assumption].
  - rewrite (range_cons lo last_row) by lia. cbn [for_each].
    destruct (inner_loop_carries lo ltac:(lia) _ 0 st eq_refl ltac:(lia) Hinv HI)
      as [st1 [Hrun [Hinv1 HI1]]].
    rewrite Hrun. cbn [bind].
    apply IH; [lia|lia| |].
    + eapply sweep_inv_later; [|exact Hinv1]. lia.
    + apply I_next_row; [lia|exact HI1].
Qed.

Lemma sweep_carries :
  well_shaped a0 = true -> I 0 0 ([], a0) ->
  exists st,
    sweep min_n_rows min_n_cols last_row last_col ([], a0) = Returns st
    /\ sweep_inv a0 min_n_rows min_n_cols last_row st
    /\ I last_row 0 st.
Proof.
  intros Hw HI.
  apply (outer_loop_carries _ 0 ([], a0) eq_refl ltac:(lia)
           (sweep_inv_start a0 min_n_rows min_n_cols Hw) HI).
Qed.

End Invariant.

End SweepCases.

Lemma find_all_carries (df : DataFrame) (min_n_rows min_n_cols : Z)
  (I : Z -> Z -> sweep_state -> Prop) :
  let a0 := notna_to_numpy df in
  (forall row col st st',
      0 <= row < Z.of_nat (n_rows a0) -> 0 <= col < Z.of_nat (n_cols a0) ->
      sweep_inv a0 min_n_rows min_n_cols row st ->
      I row col st ->
      visit min_n_rows min_n_cols row st col = Returns st' ->
      I row (col + 1) st') ->
  (forall row st,
      0 <= row < Z.of_nat (n_rows a0) ->
      I row (Z.of_nat (n_cols a0)) st -> I (row + 1) 0 st) ->
  well_shaped_df df = true ->
  I 0 0 ([], a0) ->
  exists st,
    find_all_table_range df min_n_rows min_n_cols = Returns (fst st)
    /\ sweep_inv a0 min_n_rows min_n_cols (Z.of_nat (n_rows a0)) st
    /\ I (Z.of_nat (n_rows a0)) 0 st.
Proof.
  intros a0 Hvisit Hnext Hw HI. apply well_shaped_notna in Hw.
  destruct (sweep_carries a0 min_n_rows min_n_cols I Hvisit Hnext Hw HI)
    as [st [Hrun [Hinv HI']]].
  exists st. split; [|split; assumption].
  unfold find_all_table_range. fold a0. rewrite Hrun. reflexivity.
Qed.

(** ** Where the returned ranges come from *)

Lemma in_bounds_same_shape (a b : ndarray) (r c : Z) :
  shape a = shape b -> in_bounds b r c -> in_bounds a r c.
Proof. unfold in_bounds, n_rows, n_cols. intros ->. tauto. Qed.

(** Every range of the result was grown from a present anchor. *)
Lemma find_all_grown (df : DataFrame) (min_n_rows min_n_cols : Z) :
  well_shaped_df df = true ->
  exists ranges,
    find_all_table_range df min_n_rows min_n_cols = Returns ranges
    /\ Forall (grown_from (notna_to_numpy df)) ranges.
Proof.
  intros Hw.
  destruct (find_all_carries df min_n_rows min_n_cols
              (fun _ _ st => Forall (grown_from (notna_to_numpy df)) (fst st)))
    as [st [Hrun [_ HI]]]; try assumption.
  - intros row col [acc arr] st' Hrow Hcol (Hws & Hs & Hmono & _) HI Hvisit.
    cbn [fst snd] in *.
    assert (Hb : in_bounds arr row col).
    { apply (in_bounds_same_shape arr (notna_to_numpy df)); [exact Hs|].
      split; assumption. }
    destruct (visit_cases min_n_rows min_n_cols row col acc arr st' Hws Hb Hvisit)
      as [[-> _]|(stop_row & stop_col & Hanchor & Hgrow & _ & _ & _ & ->)];
      [exact HI|].
    cbn [fst]. apply Forall_app. split; [exact HI|].
    constructor; [|constructor].
    exists arr. cbn [TableRange.start_row TableRange.start_col].
    repeat split; try assumption; lia.
  - intros row st _ HI. exact HI.
  - constructor.
  - exists (fst st). split; assumption.
Qed.

(** What being grown from a present anchor gives. *)
Lemma grown_from_facts (a0 : ndarray) (p : TableRange) :
  grown_from a0 p ->
  0 <= TableRange.start_row p < TableRange.stop_row p
  /\ TableRange.stop_row p <= Z.of_nat (n_rows a0)
  /\ 0 <= TableRange.start_col p < TableRange.stop_col p
  /\ TableRange.stop_col p <= Z.of_nat (n_cols a0)
  /\ (forall r, TableRange.start_row p <= r < TableRange.stop_row p ->
        exists c, TableRange.start_col p <= c < TableRange.stop_col p
                  /\ peek a0 r c = true).
Proof.
  intros (arr & Hw & Hs & Hmono & Hb & Hanchor & Hgrow).
  destruct p as [r0 c0 r1 c1].
  cbn [TableRange.start_row TableRange.start_col
       TableRange.stop_row TableRange.stop_col] in *.
  assert (Hb' : in_bounds arr r0 c0)
    by (apply (in_bounds_same_shape arr a0); assumption).
  destruct (grow_inside arr Hw r0 c0 Hb')
    as (sr & sc & Hgrow' & Hcb & _ & _ & Hrb & Hkept & _).
  rewrite Hgrow in Hgrow'. injection Hgrow' as <- <-.
  destruct (grow_present arr Hw r0 c0 r1 c1 Hb' Hgrow Hanchor) as [Htall Hwide].
  assert (Hrs : n_rows arr = n_rows a0) by (unfold n_rows; rewrite Hs; reflexivity).
  assert (Hcs : n_cols arr = n_cols a0) by (unfold n_cols; rewrite Hs; reflexivity).
  rewrite Hrs in Hrb. rewrite Hcs in Hcb.
  destruct Hb as [Hr Hc].
  repeat split; try lia.
  intros r Hspan. destruct (Hkept r Hspan) as [c [Hc' Hp]].
  exists c. split; [exact Hc'|].
  apply Hmono; [split; lia|exact Hp].
Qed.

(** X5: the returned ranges lie inside the grid and have no empty row.
    Every range that a call of the sweep returns has at least one row and one
    column, lies inside the frame, and each of its rows holds a non-missing
    cell of the frame within the columns of the range. *)
Theorem find_all_ranges_inside_and_rows_nonempty
  (df : DataFrame) (min_n_rows min_n_cols : Z) (ranges : list TableRange) :
  well_shaped_df df = true ->
  find_all_table_range df min_n_rows min_n_cols = Returns ranges ->
  forall p, In p ranges ->
    0 <= TableRange.start_row p < TableRange.stop_row p
    /\ TableRange.stop_row p <= Z.of_nat (fst (df_shape df))
    /\ 0 <= TableRange.start_col p < TableRange.stop_col p
    /\ TableRange.stop_col p <= Z.of_nat (snd (df_shape df))
    /\ (forall r, TableRange.start_row p <= r < TableRange.stop_row p ->
          exists c x,
            TableRange.start_col p <= c < TableRange.stop_col p
            /\ cell_at df r c = Some x /\ notna_cell x = true).
Proof.
  intros Hw Hret.
  destruct (find_all_grown df min_n_rows min_n_cols Hw) as [ranges' [Hrun Hall]].
  rewrite Hrun in Hret. injection Hret as ->.
  intros p Hp. rewrite Forall_forall in Hall.
  destruct (grown_from_facts _ p (Hall p Hp)) as (Hr & Hrb & Hc & Hcb & Hrows).
  change (n_rows (notna_to_numpy df)) with (fst (df_shape df)) in Hrb.
  change (n_cols (notna_to_numpy df)) with (snd (df_shape df)) in Hcb.
  repeat split; try lia.
  intros r Hspan. destruct (Hrows r Hspan) as [c [Hc' Hp']].
  destruct (peek_notna df r c Hw) as [x [Hx Hnotna]]; [|exact Hp'|].
  - unfold in_bounds.
    change (n_rows (notna_to_numpy df)) with (fst (df_shape df)).
    change (n_cols (notna_to_numpy df)) with (snd (df_shape df)). lia.
  - exists c, x. repeat split; try assumption; lia.
Qed.

Lemma find_all_ranges_inside_and_rows_nonempty_witness :
  find_all_table_range test_df 1 1
  = Returns [TableRange.mk 0 0 2 2; TableRange.mk 1 3 3 5]
  /\ (forall p, In p [TableRange.mk 0 0 2 2; TableRange.mk 1 3 3 5] ->
        0 <= TableRange.start_row p < TableRange.stop_row p
        /\ TableRange.stop_row p <= Z.of_nat (fst (df_shape test_df))
        /\ 0 <= TableRange.start_col p < TableRange.stop_col p
        /\ TableRange.stop_col p <= Z.of_nat (snd (df_shape test_df))
        /\ (forall r, TableRange.start_row p <= r < TableRange.stop_row p ->
              exists c x,
                TableRange.start_col p <= c < TableRange.stop_col p
                /\ cell_at test_df r c = Some x /\ notna_cell x = true)).
Proof.
  split; [reflexivity|].
  apply (find_all_ranges_inside_and_rows_nonempty test_df 1 1
           [TableRange.mk 0 0 2 2; TableRange.mk 1 3 3 5]);
    reflexivity.
Defined.

(** X6: a frame with too few rows or columns holds no table.  When the
    frame has fewer rows than [min_n_rows] or fewer columns than
    [min_n_cols], the sweep returns the empty list. *)
Theorem find_all_on_too_small_frame (df : DataFrame) (min_n_rows min_n_cols : Z) :
  well_shaped_df df = true ->
  Z.of_nat (fst (df_shape df)) < min_n_rows
  \/ Z.of_nat (snd (df_shape df)) < min_n_cols ->
  find_all_table_range df min_n_rows min_n_cols = Returns [].
Proof.
  intros Hw Hsmall.
  destruct (find_all_sound df min_n_rows min_n_cols Hw)
    as [[ranges arr] [Hrun (_ & _ & _ & Hacc & _)]].
  cbn [fst snd] in *. rewrite Hrun. f_equal.
  destruct ranges as [|p ranges]; [reflexivity|exfalso].
  inversion Hacc as [|? ? (Hsize & Hr & Hrb & Hc & Hcb & _) _]; subst.
  change (n_rows (notna_to_numpy df)) with (fst (df_shape df)) in Hrb.
  change (n_cols (notna_to_numpy df)) with (snd (df_shape df)) in Hcb.
  unfold TableRange.has_min_size in Hsize.
  destruct (Z.ltb_spec (TableRange.stop_row p - TableRange.start_row p) min_n_rows);
    [discriminate|].
  destruct (Z.ltb_spec (TableRange.stop_col p - TableRange.start_col p) min_n_cols);
    [discriminate|].
  lia.
Qed.

Lemma find_all_on_too_small_frame_witness :
  find_all_table_range test_df 4 1 = Returns [].
Proof.
  apply (find_all_on_too_small_frame test_df 4 1).
  - reflexivity.
  - left. simpl. lia.
Defined.

(** ** A frame without rows or without columns *)

Lemma for_each_skip {S : Type} (xs : list Z) (st : S) :
  for_each (fun st _ => Returns st) xs st = Returns st.
Proof. induction xs as [|x xs IH]; cbn; [reflexivity|exact IH]. Qed.

(** X7: the empty frame.  On a frame with no row or with no column the sweep
    returns the empty list, whatever the minima, and raises nothing. *)
Theorem find_all_on_empty_frame (df : DataFrame) (min_n_rows min_n_cols : Z) :
  index df = [] \/ columns df = [] ->
  find_all_table_range df min_n_rows min_n_cols = Returns [].
Proof.
  intros Hempty. unfold find_all_table_range, sweep, notna_to_numpy, df_shape,
    n_rows, n_cols. cbn [shape fst snd].
  destruct Hempty as [-> | ->]; cbn [length]; change (range 0 (Z.of_nat 0)) with (@nil Z).
  - reflexivity.
  - cbn [for_each]. rewrite for_each_skip. reflexivity.
Qed.

Lemma find_all_on_empty_frame_witness :
  find_all_table_range (mk_DataFrame [0; 1] [] [[]; []]) 1 1 = Returns [].
Proof.
  apply (find_all_on_empty_frame (mk_DataFrame [0; 1] [] [[]; []]) 1 1).
  right. reflexivity.
Defined.

(** ** The order of the result *)

Lemma swept_before_next (r c row col : Z) :
  swept_before r c row col -> swept_before r c row (col + 1).
Proof. unfold swept_before. lia. Qed.

(** X8: the result follows the sweep.  The ranges that a call of the sweep
    returns come in the order of their anchors: an earlier range of the list
    starts on an earlier row than a later one, or on the same row at an
    earlier column. *)
Theorem find_all_ranges_in_sweep_order
  (df : DataFrame) (min_n_rows min_n_cols : Z) (ranges : list TableRange) :
  well_shaped_df df = true ->
  find_all_table_range df min_n_rows min_n_cols = Returns ranges ->
  forall i j p q, (i < j)%nat ->
    nth_error ranges i = Some p -> nth_error ranges j = Some q ->
    TableRange.start_row p < TableRange.start_row q
    \/ (TableRange.start_row p = TableRange.start_row q
        /\ TableRange.start_col p < TableRange.start_col q).
Proof.
  intros Hw Hret.
  set (before := fun p q : TableRange =>
         swept_before (TableRange.start_row p) (TableRange.start_col p)
           (TableRange.start_row q) (TableRange.start_col q)).
  destruct (find_all_carries df min_n_rows min_n_cols
              (fun row col st =>
                 Forall (fun p => swept_before (TableRange.start_row p)
                                    (TableRange.start_col p) row col) (fst st)
                 /\ ForallOrdPairs before (fst st)))
    as [st [Hrun [_ [_ Hord]]]]; try assumption.
  - intros row col [acc arr] st' Hrow Hcol (Hws & Hs & _) [Hpast Hord] Hvisit.
    cbn [fst snd] in *.
    assert (Hb : in_bounds arr row col).
    { apply (in_bounds_same_shape arr (notna_to_numpy df)); [exact Hs|].
      split; assumption. }
    assert (Hpast' : Forall (fun p => swept_before (TableRange.start_row p)
                              (TableRange.start_col p) row (col + 1)) acc).
    { eapply Forall_impl; [|exact Hpast]. intros p. apply swept_before_next. }
    destruct (visit_cases min_n_rows min_n_cols row col acc arr st' Hws Hb Hvisit)
      as [[-> _]|(stop_row & stop_col & _ & _ & _ & _ & _ & ->)];
      cbn [fst]; [split; assumption|].
    split.
    + apply Forall_app. split; [exact Hpast'|].
      constructor; [|constructor]. unfold swept_before. cbn. lia.
    + apply ForallOrdPairs_snoc; [exact Hord|].
      eapply Forall_impl; [|exact Hpast]. intros p Hp. exact Hp.
  - intros row st _ [Hpast Hord]. split; [|exact Hord].
    eapply Forall_impl; [|exact Hpast].
    intros p. unfold swept_before. lia.
  - split; constructor.
  - rewrite Hrun in Hret. injection Hret as <-.
    intros i j p q Hij Hp Hq.
    exact (ForallOrdPairs_nth_error before (fst st) Hord i j p q Hij Hp Hq).
Qed.

Lemma find_all_ranges_in_sweep_order_witness :
  find_all_table_range test_df 1 1
  = Returns [TableRange.mk 0 0 2 2; TableRange.mk 1 3 3 5]
  /\ (forall i j p q, (i < j)%nat ->
        nth_error [TableRange.mk 0 0 2 2; TableRange.mk 1 3 3 5] i = Some p ->
        nth_error [TableRange.mk 0 0 2 2; TableRange.mk 1 3 3 5] j = Some q ->
        TableRange.start_row p < TableRange.start_row q
        \/ (TableRange.start_row p = TableRange.start_row q
            /\ TableRange.start_col p < TableRange.start_col q)).
Proof.
  split; [reflexivity|].
  apply (find_all_ranges_in_sweep_order test_df 1 1
           [TableRange.mk 0 0 2 2; TableRange.mk 1 3 3 5]);
    reflexivity.
Defined.

(** ** With the default minima the ranges cover the frame's content *)

(** A non-missing cell of the frame is a present cell of the derived array. *)
Lemma notna_peek (df : DataFrame) (r c : Z) (x : cell) :
  well_shaped_df df = true ->
  cell_at df r c = Some x -> notna_cell x = true ->
  in_bounds (notna_to_numpy df) r c /\ peek (notna_to_numpy df) r c = true.
Proof.
  intros Hw Hx Hnotna. unfold cell_at in Hx.
  destruct (Z.ltb_spec r 0); [discriminate|].
  destruct (Z.ltb_spec c 0); [discriminate|]. cbn [orb] in Hx.
  destruct (nth_error (values df) (Z.to_nat r)) as [line|] eqn:Hline;
    [|discriminate].
  unfold well_shaped_df in Hw. apply andb_prop in Hw as [H1 H2].
  apply Nat.eqb_eq in H1. rewrite forallb_forall in H2.
  assert (Hlen : length line = length (columns df)).
  { apply Nat.eqb_eq, H2. eapply nth_error_In; eassumption. }
  assert (Hr : (Z.to_nat r < length (values df))%nat).
  { apply nth_error_Some. rewrite Hline. discriminate. }
  assert (Hc : (Z.to_nat c < length line)%nat).
  { apply nth_error_Some. rewrite Hx. discriminate. }
  split.
  - unfold in_bounds, notna_to_numpy, df_shape, n_rows, n_cols.
    cbn [shape fst snd]. lia.
  - rewrite <- Hnotna.
    apply peek_nth_error with (line := map notna_cell line).
    + unfold notna_to_numpy. cbn [data]. rewrite nth_error_map, Hline. reflexivity.
    + rewrite nth_error_map, Hx. reflexivity.
Qed.

(** A range with a row and a column passes the size test under minima of at
    most one. *)
Lemma has_min_size_nonempty (p : TableRange) (min_n_rows min_n_cols : Z) :
  min_n_rows <= 1 -> min_n_cols <= 1 ->
  TableRange.start_row p < TableRange.stop_row p ->
  TableRange.start_col p < TableRange.stop_col p ->
  TableRange.has_min_size p min_n_rows min_n_cols = true.
Proof.
  intros Hmr Hmc Hr Hc. unfold TableRange.has_min_size.
  destruct (Z.ltb_spec (TableRange.stop_row p - TableRange.start_row p) min_n_rows);
    [lia|].
  destruct (Z.ltb_spec (TableRange.stop_col p - TableRange.start_col p) min_n_cols);
    [lia|reflexivity].
Qed.

(** X9: with minima of at most one the ranges cover the content.  When
    [min_n_rows] and [min_n_cols] are at most 1, as by default, and the call
    of the sweep returns, every non-missing cell of the frame lies in a
    returned range, and in one only. *)
Theorem find_all_default_minima_cover
  (df : DataFrame) (min_n_rows min_n_cols : Z) (ranges : list TableRange) :
  well_shaped_df df = true ->
  min_n_rows <= 1 -> min_n_cols <= 1 ->
  find_all_table_range df min_n_rows min_n_cols = Returns ranges ->
  forall r c x,
    cell_at df r c = Some x -> notna_cell x = true ->
    exists p, In p ranges /\ covers p r c
              /\ forall q, In q ranges -> covers q r c -> q = p.
Proof.
  intros Hw Hmr Hmc Hret.
  set (a0 := notna_to_numpy df).
  destruct (find_all_carries df min_n_rows min_n_cols
              (fun row col st =>
                 (forall r c, in_bounds a0 r c -> peek a0 r c = true ->
                    peek (snd st) r c = true
                    \/ exists p, In p (fst st) /\ covers p r c)
                 /\ (forall r c, in_bounds a0 r c -> swept_before r c row col ->
                       peek (snd st) r c = false)))
    as [st [Hrun [Hinv [Hcov Hdone]]]]; try assumption.
  - intros row col [acc arr] st' Hrow Hcol (Hws & Hs & _) [Hcov Hdone] Hvisit.
    cbn [fst snd] in *. fold a0 in Hrow, Hcol, Hs.
    assert (Hin : forall r c, in_bounds a0 r c -> in_bounds arr r c).
    { intros r c. apply in_bounds_same_shape, Hs. }
    assert (Hb : in_bounds arr row col) by (apply Hin; split; assumption).
    destruct (visit_cases min_n_rows min_n_cols row col acc arr st' Hws Hb Hvisit)
      as [[-> Hwhy]|(stop_row & stop_col & Hanchor & _ & Htall & Hwide & _ & ->)];
      cbn [fst snd].
    + split; [exact Hcov|].
      intros r c Hrc [Hlt|[-> Hlt]].
      * apply Hdone; [exact Hrc|left; exact Hlt].
      * destruct (Z.eq_dec c col) as [->|Hne];
          [|apply Hdone; [exact Hrc|right; split; [reflexivity|lia]]].
        destruct Hwhy as [Habsent|(sr & sc & Hsr & Hsc & Hsize)];
          [exact Habsent|].
        rewrite has_min_size_nonempty in Hsize by (cbn; assumption).
        discriminate.
    + set (rng := TableRange.mk row col stop_row stop_col).
      assert (Hnonneg : 0 <= TableRange.start_row rng /\ 0 <= TableRange.stop_row rng
                        /\ 0 <= TableRange.start_col rng /\ 0 <= TableRange.stop_col rng).
      { subst rng. cbn. lia. }
      split.
      * intros r c Hrc Hp.
        destruct (Hcov r c Hrc Hp) as [Harr|[p [Hp' Hcp]]].
        -- destruct (covers_dec rng r c) as [Hcr|Hout].
           ++ right. exists rng. split; [apply in_or_app; right; left; reflexivity|exact Hcr].
           ++ left. rewrite peek_fill_outside by (try assumption; apply Hin, Hrc).
              exact Harr.
        -- right. exists p. split; [apply in_or_app; left; exact Hp'|exact Hcp].
      * intros r c Hrc Hbefore.
        destruct (covers_dec rng r c) as [Hcr|Hout].
        -- apply peek_fill_covered; try assumption. apply Hin, Hrc.
        -- rewrite peek_fill_outside by (try assumption; apply Hin, Hrc).
           destruct Hbefore as [Hlt|[-> Hlt]].
           ++ apply Hdone; [exact Hrc|left; exact Hlt].
           ++ apply Hdone; [exact Hrc|]. right. split; [reflexivity|].
              destruct (Z.eq_dec c col) as [->|Hne]; [|lia].
              exfalso. apply Hout. unfold covers. subst rng. cbn. lia.
  - intros row st Hrow [Hcov Hdone]. split; [exact Hcov|].
    intros r c Hrc [Hlt|[-> Hlt]].
    + destruct (Z.eq_dec r row) as [->|Hne].
      * apply Hdone; [exact Hrc|]. right. split; [reflexivity|].
        destruct Hrc as [_ Hc]. fold a0. lia.
      * apply Hdone; [exact Hrc|]. left. lia.
    + destruct Hrc as [_ Hc]. lia.
  - split.
    + intros r c _ Hp. left. exact Hp.
    + intros r c [Hr Hc] [Hlt|[-> Hlt]]; lia.
  - rewrite Hrun in Hret. injection Hret as <-.
    intros r c x Hx Hnotna.
    destruct (notna_peek df r c x Hw Hx Hnotna) as [Hrc Hp]. fold a0 in Hrc, Hp.
    destruct (Hcov r c Hrc Hp) as [Harr|[p [Hp' Hcp]]].
    + rewrite Hdone in Harr; [discriminate|exact Hrc|].
      left. destruct Hrc as [Hr _]. fold a0. lia.
    + exists p. split; [exact Hp'|]. split; [exact Hcp|].
      intros q Hq Hcq.
      destruct Hinv as (_ & _ & _ & _ & Hdis).
      destruct (ForallOrdPairs_In Hdis q p Hq Hp') as [Heq|[Hd|Hd]];
        [exact Heq| |]; exfalso.
      * exact (Hd r c Hcq Hcp).
      * exact (Hd r c Hcp Hcq).
Qed.

Lemma find_all_default_minima_cover_witness :
  find_all_table_range test_df 1 1
  = Returns [TableRange.mk 0 0 2 2; TableRange.mk 1 3 3 5]
  /\ (forall r c x,
        cell_at test_df r c = Some x -> notna_cell x = true ->
        exists p, In p [TableRange.mk 0 0 2 2; TableRange.mk 1 3 3 5] /\ covers p r c
                  /\ forall q, In q [TableRange.mk 0 0 2 2; TableRange.mk 1 3 3 5] ->
                       covers q r c -> q = p).
Proof.
  split; [reflexivity|].
  apply (find_all_default_minima_cover test_df 1 1
           [TableRange.mk 0 0 2 2; TableRange.mk 1 3 3 5]);
    [reflexivity|lia|lia|reflexivity].
Defined.

(** ** Minima of at most one *)

Section SmallMinima.

Variable a0 : ndarray.
Variables min_n_rows min_n_cols : Z.
Hypothesis rows_small : min_n_rows <= 1.
Hypothesis cols_small : min_n_cols <= 1.

Let last_row : Z := Z.of_nat (n_rows a0).
Let last_col : Z := Z.of_nat (n_cols a0).

Lemma visit_small_minima (row col : Z) (st : sweep_state) :
  well_shaped (snd st) = true -> in_bounds (snd st) row col ->
  visit min_n_rows min_n_cols row st col = visit 1 1 row st col.
Proof.
  destruct st as [acc arr]. cbn [snd]. intros Hw Hb. unfold visit.
  rewrite getitem_inside by assumption. cbn [bind].
  destruct (peek arr row col) eqn:Hanchor; [|reflexivity].
  destruct (grow_inside arr Hw row col Hb) as (stop_row & stop_col & Hgrow & _).
  destruct (grow_present arr Hw row col stop_row stop_col Hb Hgrow Hanchor)
    as [Htall Hwide].
  rewrite Hgrow. cbn [bind].
  rewrite !has_min_size_nonempty by (cbn; lia). reflexivity.
Qed.

Lemma inner_loop_small_minima (row : Z) :
  0 <= row < last_row ->
  forall n lo st,
    Z.to_nat (last_col - lo) = n -> 0 <= lo ->
    sweep_inv a0 min_n_rows min_n_cols row st ->
    for_each (visit min_n_rows min_n_cols row) (range lo last_col) st
    = for_each (visit 1 1 row) (range lo last_col) st.
Proof.
  intros Hrow. induction n as [|n IH]; intros lo st Hn Hlo Hinv.
  - rewrite range_nil by lia. reflexivity.
  - rewrite range_cons by lia. cbn [for_each].
    destruct (visit_inv a0 min_n_rows min_n_cols row lo st Hrow
                ltac:(fold last_col; lia) Hinv) as [st1 [Hstep Hinv1]].
    rewrite <- visit_small_minima.
    + rewrite Hstep. cbn [bind]. apply IH; [lia|lia|exact Hinv1].
    + apply Hinv.
    + destruct Hinv as (_ & Hs & _).
      apply (in_bounds_same_shape _ a0); [exact Hs|].
      split; [exact Hrow|fold last_col; lia].
Qed.

Lemma outer_loop_small_minima :
  forall n lo st,
    Z.to_nat (last_row - lo) = n -> 0 <= lo <= last_row ->
    sweep_inv a0 min_n_rows min_n_cols lo st ->
    for_each
      (fun st row =>
         for_each (visit min_n_rows min_n_cols row) (range 0 last_col) st)
      (range lo last_row) st
    = for_each
        (fun st row => for_each (visit 1 1 row) (range 0 last_col) st)
        (range lo last_row) st.
Proof.
  induction n as [|n IH]; intros lo st Hn Hlo Hinv.
  - rewrite (range_nil lo last_row) by lia. reflexivity.
  - rewrite (range_cons lo last_row) by lia. cbn [for_each].
    destruct (inner_loop_inv a0 min_n_rows min_n_cols lo ltac:(fold last_row; lia)
                _ 0 st eq_refl ltac:(lia) Hinv) as [st1 [Hrun Hinv1]].
    rewrite <- (inner_loop_small_minima lo ltac:(lia) _ 0 st eq_refl ltac:(lia) Hinv).
    fold last_col in Hrun. rewrite Hrun. cbn [bind].
    apply IH; [lia|lia|].
    eapply sweep_inv_later; [|exact Hinv1]. lia.
Qed.

End SmallMinima.

(** X10: minima of at most one are all the same.  For a well-shaped frame the
    sweep with any [min_n_rows <= 1] and [min_n_cols <= 1] returns the list it
    returns with the default minima 1 and 1. *)
Theorem find_all_minima_at_most_one (df : DataFrame) (min_n_rows min_n_cols : Z) :
  well_shaped_df df = true ->
  min_n_rows <= 1 -> min_n_cols <= 1 ->
  find_all_table_range df min_n_rows min_n_cols = find_all_table_range df 1 1.
Proof.
  intros Hw Hmr Hmc. apply well_shaped_notna in Hw.
  unfold find_all_table_range, sweep.
  rewrite (outer_loop_small_minima (notna_to_numpy df) min_n_rows min_n_cols Hmr Hmc
             _ 0 ([], notna_to_numpy df) eq_refl ltac:(lia)
             (sweep_inv_start _ _ _ Hw)).
  reflexivity.
Qed.

Lemma find_all_minima_at_most_one_witness :
  find_all_table_range test_df 0 (-3) = find_all_table_range test_df 1 1.
Proof.
  apply (find_all_minima_at_most_one test_df 0 (-3)); [reflexivity|lia|lia].
Defined.

(** ** The value part of [TableRange] *)

(** X11: equality of ranges.  [__eq__] answers true exactly for two ranges
    with the same four bounds; it is reflexive, symmetric and transitive. *)
Theorem table_range_eq_decides_equality :
  (forall p q : TableRange,
      TableRange.__eq__ p q = true
      <-> (TableRange.start_row p = TableRange.start_row q
           /\ TableRange.start_col p = TableRange.start_col q
           /\ TableRange.stop_row p = TableRange.stop_row q
           /\ TableRange.stop_col p = TableRange.stop_col q))
  /\ (forall p q : TableRange, TableRange.__eq__ p q = true <-> p = q)
  /\ (forall p q : TableRange, TableRange.__eq__ p q = TableRange.__eq__ q p)
  /\ (forall p q r : TableRange,
        TableRange.__eq__ p q = true -> TableRange.__eq__ q r = true ->
        TableRange.__eq__ p r = true).
Proof.
  assert (Hiff : forall p q : TableRange, TableRange.__eq__ p q = true <-> p = q).
  { intros p q. split; [apply eq_sound|intros ->; apply eq_reflexive]. }
  split; [|split; [exact Hiff|split]].
  - intros p q. rewrite Hiff. destruct p, q. cbn. split.
    + intros H. injection H as -> -> -> ->. repeat split.
    + intros (-> & -> & -> & ->). reflexivity.
  - intros p q. unfold TableRange.__eq__.
    rewrite (Z.eqb_sym (TableRange.start_row p)), (Z.eqb_sym (TableRange.start_col p)),
      (Z.eqb_sym (TableRange.stop_row p)), (Z.eqb_sym (TableRange.stop_col p)).
    reflexivity.
  - intros p q r Hpq Hqr. apply Hiff in Hpq, Hqr. apply Hiff. congruence.
Qed.

Lemma table_range_eq_decides_equality_witness :
  TableRange.__eq__ (TableRange.mk 1 1 2 3) (TableRange.mk 1 1 2 3) = true.
Proof.
  apply (proj2 (proj1 (proj2 table_range_eq_decides_equality)
                  (TableRange.mk 1 1 2 3) (TableRange.mk 1 1 2 3))).
  reflexivity.
Defined.

(** X12: the constructor and the two position properties.  The constructor
    raises [ValueError] exactly when one of the two positions has not two
    coordinates; otherwise [start_pos] and [stop_pos] of the range it returns
    are the positions it was given, and building a range again from the
    positions of a range gives back that range. *)
Theorem table_range_positions_round_trip :
  (forall start_pos stop_pos : list Z,
      TableRange.__init__ start_pos stop_pos = Raises ValueError
      <-> (length start_pos <> 2%nat \/ length stop_pos <> 2%nat))
  /\ (forall (start_pos stop_pos : list Z) (rng : TableRange),
        TableRange.__init__ start_pos stop_pos = Returns rng ->
        start_pos = [fst (TableRange.start_pos rng); snd (TableRange.start_pos rng)]
        /\ stop_pos = [fst (TableRange.stop_pos rng); snd (TableRange.stop_pos rng)])
  /\ (forall rng : TableRange,
        TableRange.__init__
          [fst (TableRange.start_pos rng); snd (TableRange.start_pos rng)]
          [fst (TableRange.stop_pos rng); snd (TableRange.stop_pos rng)]
        = Returns rng).
Proof.
  split; [|split].
  - intros sp ep. split.
    + destruct sp as [|r0 [|c0 [|x sp]]]; cbn; try (intros _; left; lia);
        destruct ep as [|r1 [|c1 [|y ep]]]; cbn; try (intros _; right; lia).
      discriminate.
    + intros H. unfold TableRange.__init__.
      destruct (Nat.eqb_spec (length sp) 2); cbn [negb orb]; [|reflexivity].
      destruct (Nat.eqb_spec (length ep) 2); cbn [negb]; [|reflexivity].
      destruct H; contradiction.
  - intros sp ep rng.
    destruct sp as [|r0 [|c0 [|x sp]]]; cbn; try discriminate;
      destruct ep as [|r1 [|c1 [|y ep]]]; cbn; try discriminate.
    intros H. injection H as <-. split; reflexivity.
  - intros [r0 c0 r1 c1]. reflexivity.
Qed.

Lemma table_range_positions_round_trip_witness :
  [1; 3] = [fst (TableRange.start_pos (TableRange.mk 1 3 2 4));
            snd (TableRange.start_pos (TableRange.mk 1 3 2 4))]
  /\ [2; 4] = [fst (TableRange.stop_pos (TableRange.mk 1 3 2 4));
               snd (TableRange.stop_pos (TableRange.mk 1 3 2 4))].
Proof.
  apply (proj1 (proj2 table_range_positions_round_trip)
           [1; 3] [2; 4] (TableRange.mk 1 3 2 4)).
  reflexivity.
Defined.

(** * Properties of the module [logger] *)

(** ** The module's unit tests, replayed *)

Example test_empty_last_msg :
  Logger.last_msg (Logger.mk [] false "R" EmptyString EmptyString)
  = ColorMsg.__init__ EmptyString EmptyString EmptyString EmptyString.
Proof. reflexivity. Qed.

Example test_save_log (c : colorama) (w : world) :
  let l0 := Logger.mk [] false (Fore_RED c) EmptyString EmptyString in
  let '(_, l1, w1) := Logger.append c l0 (PyStr "first msg") w in
  let '(_, l2, w2) := Logger.append_alert c l1 (PyStr "alert!") w1 in
  let '(_, l3, w3) :=
    Logger.append c l2
      (PyMsg (ColorMsg.__init__ "color msg" "Y" EmptyString EmptyString)) w2 in
  calls (Logger.save_log l3 "log.txt" w3)
  = calls w ++ [open_file "log.txt" "w"; write "first msg"; write "alert!";
                write "color msg"; close_file].
Proof. cbn. rewrite <- !app_assoc. reflexivity. Qed.

(** The stream in place after the creation of a first logger, and after its
    deletion. *)
Example stream_of_the_first_logger :
  sys_stdout [] = 0%nat
  /\ sys_stdout [colorama_init] = 1%nat
  /\ sys_stdout [colorama_init; colorama_deinit] = 0%nat
  /\ sys_stdout [colorama_init; open_file "log.txt" "w"; write "t"; close_file]
     = 1%nat.
Proof. repeat split. Qed.

(** ** Messages *)

(** X13: equality of messages.  [ColorMsg.__eq__] answers true exactly for
    another message with the same text, color, style and background color,
    and false for anything that is not a message. *)
Theorem color_msg_eq_decides_equality :
  (forall self other : ColorMsg.t,
      ColorMsg.__eq__ self (PyMsg other) = true <-> self = other)
  /\ (forall (self : ColorMsg.t) (s : string),
        ColorMsg.__eq__ self (PyStr s) = false)
  /\ (forall (self : ColorMsg.t) (n : Z),
        ColorMsg.__eq__ self (PyInt n) = false).
Proof.
  split; [|split; reflexivity].
  intros [t1 c1 s1 b1] [t2 c2 s2 b2]. unfold ColorMsg.__eq__, ColorMsg.text.
  cbn [ColorMsg._text ColorMsg._color ColorMsg._style ColorMsg._background_color].
  rewrite !andb_true_iff, !String.eqb_eq. split.
  - intros [[[-> ->] ->] ->]. reflexivity.
  - intros H. injection H as -> -> -> ->. repeat split.
Qed.

Lemma color_msg_eq_decides_equality_witness :
  ColorMsg.__eq__ (ColorMsg.mk "t" "c" "s" "b") (PyMsg (ColorMsg.mk "t" "c" "s" "b"))
  = true.
Proof.
  apply (proj2 (proj1 color_msg_eq_decides_equality
                  (ColorMsg.mk "t" "c" "s" "b") (ColorMsg.mk "t" "c" "s" "b"))).
  reflexivity.
Defined.

(** ** Appending *)

Lemma last_msg_snoc (l : list ColorMsg.t) (msg : ColorMsg.t)
  (p : bool) (ac st bg : string) :
  Logger.last_msg (Logger.mk (l ++ [msg]) p ac st bg) = msg.
Proof.
  unfold Logger.last_msg. cbn [Logger._log].
  rewrite length_app, last_last. cbn [length].
  destruct (Nat.eqb_spec (length l + 1) 0); [lia|reflexivity].
Qed.

(** X14: what [append] does.  Appending a string is appending the message
    without color made of it.  Appending a message puts it at the end of the
    log, where [last_msg] finds it, and keeps the earlier messages and the
    settings.  Exactly when [print_on_append] is set, it writes the styled
    text of the message to [sys.stdout], with nothing before or after it; the
    standard output receives what the wrappers of [colorama] in place pass
    on of it.  For the first logger of a program, whose creation has called
    [colorama.init()], that is one wrapper.  Appending anything else raises
    [TypeError] and changes nothing. *)
Theorem logger_append_effect (c : colorama) (self : Logger.t) (w : world) :
  (forall text,
      Logger.append c self (PyStr text) w
      = Logger.append c self
          (PyMsg (ColorMsg.__init__ text EmptyString EmptyString EmptyString)) w)
  /\ (forall msg,
        exists self' w',
          Logger.append c self (PyMsg msg) w = (Returns tt, self', w')
          /\ Logger._log self' = Logger._log self ++ [msg]
          /\ Logger.last_msg self' = msg
          /\ Logger.print_on_append self' = Logger.print_on_append self
          /\ Logger.alert_color self' = Logger.alert_color self
          /\ Logger.alert_style self' = Logger.alert_style self
          /\ Logger.alert_background_color self' = Logger.alert_background_color self
          /\ calls w' = calls w
          /\ _colorama_initializeed w' = _colorama_initializeed w
          /\ stdout w'
             = if Logger.print_on_append self
               then (stdout w
                     ++ Nat.iter (sys_stdout (calls w)) (AnsiToWin32_write c)
                          (ColorMsg.__str__ c msg))%string
               else stdout w)
  /\ (forall msg out ac st bg,
        let '(first_logger, w1) :=
          Logger.__init__ true ac st bg (mk_world out false []) in
        stdout (snd (Logger.append c first_logger (PyMsg msg) w1))
        = (out ++ AnsiToWin32_write c (ColorMsg.__str__ c msg))%string)
  /\ (forall n, Logger.append c self (PyInt n) w = (Raises TypeError, self, w)).
Proof.
  split; [reflexivity|]. split; [|split; reflexivity].
  intros msg. unfold Logger.append.
  destruct (Logger.print_on_append self) eqn:Hp;
    eexists; eexists; (split; [reflexivity|]);
    cbn [Logger._log Logger.print_on_append Logger.alert_color Logger.alert_style
         Logger.alert_background_color];
    rewrite last_msg_snoc; repeat split; try reflexivity; symmetry; exact Hp.
Qed.

(** X15: what [append_alert] does.  For a string, [append_alert] appends the
    message that carries the logger's alert color, style and background
    color, and with [print_on_append] writes to [sys.stdout] its text
    between these three codes and the reset code; the standard output
    receives what the wrappers of [colorama] in place pass on of it.  For
    anything but a string, a message included, it raises [TypeError] and
    changes nothing. *)
Theorem logger_append_alert_effect (c : colorama) (self : Logger.t) (w : world) :
  (forall text,
      exists self' w',
        Logger.append_alert c self (PyStr text) w = (Returns tt, self', w')
        /\ Logger._log self'
           = Logger._log self
             ++ [ColorMsg.mk text (Logger.alert_color self) (Logger.alert_style self)
                   (Logger.alert_background_color self)]
        /\ Logger.last_msg self'
           = ColorMsg.mk text (Logger.alert_color self) (Logger.alert_style self)
               (Logger.alert_background_color self)
        /\ calls w' = calls w
        /\ stdout w'
           = if Logger.print_on_append self
             then (stdout w
                   ++ Nat.iter (sys_stdout (calls w)) (AnsiToWin32_write c)
                        (Logger.alert_style self ++ Logger.alert_color self
                         ++ Logger.alert_background_color self ++ text
                         ++ Style_RESET_ALL c))%string
             else stdout w)
  /\ (forall msg,
        Logger.append_alert c self (PyMsg msg) w = (Raises TypeError, self, w))
  /\ (forall n,
        Logger.append_alert c self (PyInt n) w = (Raises TypeError, self, w)).
Proof.
  split; [|split; reflexivity].
  intros text. unfold Logger.append_alert, Logger.append, ColorMsg.__init__.
  destruct (Logger.print_on_append self) eqn:Hp;
    eexists; eexists; (split; [reflexivity|]);
    cbn [Logger._log]; rewrite last_msg_snoc; repeat split; reflexivity.
Qed.

(** ** Saving *)

Lemma string_app_nil_r (s : string) : (s ++ EmptyString)%string = s.
Proof. induction s as [|a s IH]; cbn; [reflexivity|rewrite IH; reflexivity]. Qed.

Lemma string_app_assoc (s1 s2 s3 : string) :
  ((s1 ++ s2) ++ s3)%string = (s1 ++ s2 ++ s3)%string.
Proof. induction s1 as [|a s1 IH]; cbn; [reflexivity|rewrite IH; reflexivity]. Qed.

Lemma calls_of_writes (msgs : list ColorMsg.t) (w : world) :
  let w' :=
    fold_left
      (fun w msg =>
         mk_world (stdout w) (_colorama_initializeed w)
           (calls w ++ [write (ColorMsg._text msg)]))
      msgs w in
  calls w' = calls w ++ map (fun msg => write (ColorMsg.text msg)) msgs
  /\ stdout w' = stdout w
  /\ _colorama_initializeed w' = _colorama_initializeed w.
Proof.
  revert w. induction msgs as [|msg msgs IH]; intros w; cbn.
  - rewrite app_nil_r. repeat split.
  - destruct (IH (mk_world (stdout w) (_colorama_initializeed w)
                    (calls w ++ [write (ColorMsg._text msg)]))) as (Hc & Hs & Hf).
    cbn in Hc, Hs, Hf. rewrite Hc, Hs, Hf, <- app_assoc. repeat split.
Qed.

Lemma file_content_after_open (before : list call) (path mode : string)
  (after : list call) :
  forall content,
    file_content_from content (before ++ open_file path mode :: after)
    = file_content_from EmptyString after.
Proof.
  induction before as [|x before IH]; intros content; cbn; [reflexivity|].
  destruct x; apply IH.
Qed.

Lemma file_content_of_writes (texts : list string) :
  forall content,
    file_content_from content (map write texts ++ [close_file])
    = (content ++ fold_right String.append EmptyString texts)%string.
Proof.
  induction texts as [|t texts IH]; intros content; cbn.
  - rewrite string_app_nil_r. reflexivity.
  - rewrite IH, string_app_assoc. reflexivity.
Qed.

Lemma save_log_calls (self : Logger.t) (path : string) (w : world) :
  calls (Logger.save_log self path w)
  = calls w ++ open_file path "w"
      :: map (fun msg => write (ColorMsg.text msg)) (Logger._log self)
      ++ [close_file].
Proof.
  unfold Logger.save_log. cbn [calls].
  destruct (calls_of_writes (Logger._log self)
              (mk_world (stdout w) (_colorama_initializeed w)
                 (calls w ++ [open_file path "w"]))) as (Hc & _).
  cbn in Hc. rewrite Hc, <- !app_assoc. reflexivity.
Qed.

Lemma save_log_content (self : Logger.t) (path : string) (w : world) :
  file_content (calls (Logger.save_log self path w))
  = fold_right String.append EmptyString (map ColorMsg.text (Logger._log self)).
Proof.
  rewrite save_log_calls. unfold file_content.
  rewrite file_content_after_open, <- map_map, file_content_of_writes.
  reflexivity.
Qed.

Lemma fold_right_append_snoc (texts : list string) (t : string) :
  fold_right String.append EmptyString (texts ++ [t])
  = (fold_right String.append EmptyString texts ++ t)%string.
Proof.
  induction texts as [|x texts IH]; cbn.
  - apply string_app_nil_r.
  - rewrite IH, string_app_assoc. reflexivity.
Qed.

(** X16: what [save_log] writes.  [save_log] opens the file for writing,
    writes the plain text of every message of the log in the order of the
    log, and closes the file; it prints nothing.  The file then holds the
    texts one after the other, without any color code: appending a string, an
    alert or a colored message extends what is saved by its text alone, and
    after [clear_log] the saved file is empty. *)
Theorem save_log_writes_the_plain_texts
  (c : colorama) (self : Logger.t) (path : string) (w : world) :
  calls (Logger.save_log self path w)
  = calls w ++ open_file path "w"
      :: map (fun msg => write (ColorMsg.text msg)) (Logger._log self)
      ++ [close_file]
  /\ stdout (Logger.save_log self path w) = stdout w
  /\ file_content (calls (Logger.save_log self path w))
     = fold_right String.append EmptyString (map ColorMsg.text (Logger._log self))
  /\ (forall text w1,
        file_content
          (calls (Logger.save_log (snd (fst (Logger.append c self (PyStr text) w1)))
                    path w))
        = (file_content (calls (Logger.save_log self path w)) ++ text)%string)
  /\ (forall text w1,
        file_content
          (calls (Logger.save_log
                    (snd (fst (Logger.append_alert c self (PyStr text) w1))) path w))
        = (file_content (calls (Logger.save_log self path w)) ++ text)%string)
  /\ (forall msg w1,
        file_content
          (calls (Logger.save_log (snd (fst (Logger.append c self (PyMsg msg) w1)))
                    path w))
        = (file_content (calls (Logger.save_log self path w))
           ++ ColorMsg.text msg)%string)
  /\ file_content (calls (Logger.save_log (Logger.clear_log self) path w))
     = EmptyString.
Proof.
  split; [apply save_log_calls|].
  split.
  { unfold Logger.save_log. cbn [stdout].
    destruct (calls_of_writes (Logger._log self)
                (mk_world (stdout w) (_colorama_initializeed w)
                   (calls w ++ [open_file path "w"]))) as (_ & Hs & _).
    exact Hs. }
  split; [apply save_log_content|].
  assert (Hsnoc : forall self' msg,
            Logger._log self' = Logger._log self ++ [msg] ->
            file_content (calls (Logger.save_log self' path w))
            = (file_content (calls (Logger.save_log self path w))
               ++ ColorMsg.text msg)%string).
  { intros self' msg Hlog. rewrite !save_log_content, Hlog, map_app.
    cbn [map]. apply fold_right_append_snoc. }
  split; [|split; [|split]].
  - intros text w1.
    rewrite (Hsnoc _ (ColorMsg.__init__ text EmptyString EmptyString EmptyString));
      [reflexivity|].
    unfold Logger.append. destruct (Logger.print_on_append self); reflexivity.
  - intros text w1.
    rewrite (Hsnoc _ (ColorMsg.__init__ text (Logger.alert_color self)
                        (Logger.alert_style self)
                        (Logger.alert_background_color self)));
      [reflexivity|].
    unfold Logger.append_alert, Logger.append.
    destruct (Logger.print_on_append self); reflexivity.
  - intros msg w1. apply Hsnoc.
    unfold Logger.append. destruct (Logger.print_on_append self); reflexivity.
  - rewrite save_log_content. reflexivity.
Qed.

(** ** The life of loggers *)

Lemma logger_step_keeps (w : world) (e : logger_event) :
  (calls w = [] /\ _colorama_initializeed w = false)
  \/ (exists k, calls w = colorama_init :: repeat colorama_deinit k
                /\ _colorama_initializeed w = true) ->
  (calls (logger_step w e) = [] /\ _colorama_initializeed (logger_step w e) = false)
  \/ (exists k, calls (logger_step w e) = colorama_init :: repeat colorama_deinit k
                /\ _colorama_initializeed (logger_step w e) = true).
Proof.
  intros [[Hc Hf]|[k [Hc Hf]]]; destruct e as [p ac st bg|];
    unfold logger_step, Logger.__init__, Logger.__del__; cbn [snd];
    rewrite Hf; cbn [negb calls _colorama_initializeed].
  - right. exists 0%nat. rewrite Hc. split; reflexivity.
  - left. split; assumption.
  - right. exists k. split; assumption.
  - right. exists (S k). rewrite Hc. split; [|reflexivity].
    cbn [app]. f_equal. change [colorama_deinit] with (repeat colorama_deinit 1).
    rewrite <- repeat_app. f_equal. lia.
Qed.

Lemma logger_step_stays (w : world) (e : logger_event) :
  (exists k, calls w = colorama_init :: repeat colorama_deinit k
             /\ _colorama_initializeed w = true) ->
  exists k, calls (logger_step w e) = colorama_init :: repeat colorama_deinit k
            /\ _colorama_initializeed (logger_step w e) = true.
Proof.
  intros Hw.
  destruct (logger_step_keeps w e (or_intror Hw)) as [[Hc Hf]|Hright];
    [|exact Hright].
  destruct Hw as [k [Hc0 Hf0]].
  destruct e as [p ac st bg|];
    unfold logger_step, Logger.__init__, Logger.__del__ in Hf;
    cbn [snd] in Hf; rewrite Hf0 in Hf; cbn in Hf; congruence.
Qed.

Lemma logger_steps_keep (events : list logger_event) :
  forall w,
    (calls w = [] /\ _colorama_initializeed w = false)
    \/ (exists k, calls w = colorama_init :: repeat colorama_deinit k
                  /\ _colorama_initializeed w = true) ->
    (calls (fold_left logger_step events w) = []
     /\ _colorama_initializeed (fold_left logger_step events w) = false)
    \/ (exists k,
          calls (fold_left logger_step events w)
          = colorama_init :: repeat colorama_deinit k
          /\ _colorama_initializeed (fold_left logger_step events w) = true).
Proof.
  induction events as [|e events IH]; intros w Hw; cbn; [exact Hw|].
  apply IH, logger_step_keeps, Hw.
Qed.

Lemma logger_steps_stay (events : list logger_event) :
  forall w,
    (exists k, calls w = colorama_init :: repeat colorama_deinit k
               /\ _colorama_initializeed w = true) ->
    exists k,
      calls (fold_left logger_step events w)
      = colorama_init :: repeat colorama_deinit k
      /\ _colorama_initializeed (fold_left logger_step events w) = true.
Proof.
  induction events as [|e events IH]; intros w Hw; cbn; [exact Hw|].
  apply IH, logger_step_stays, Hw.
Qed.

Lemma logger_steps_after_creation (events : list logger_event) :
  forall w,
    (calls w = [] /\ _colorama_initializeed w = false)
    \/ (exists k, calls w = colorama_init :: repeat colorama_deinit k
                  /\ _colorama_initializeed w = true) ->
    (exists p ac st bg, In (created p ac st bg) events) ->
    exists k,
      calls (fold_left logger_step events w)
      = colorama_init :: repeat colorama_deinit k
      /\ _colorama_initializeed (fold_left logger_step events w) = true.
Proof.
  induction events as [|e events IH]; intros w Hw (p & ac & st & bg & Hin);
    [destruct Hin|].
  cbn [fold_left]. destruct Hin as [->|Hin].
  - apply logger_steps_stay.
    destruct Hw as [[Hc Hf]|Hw]; [|apply logger_step_stays, Hw].
    exists 0%nat. unfold logger_step, Logger.__init__. cbn [snd].
    rewrite Hf, Hc. split; reflexivity.
  - apply IH; [apply logger_step_keeps, Hw|].
    exists p, ac, st, bg. exact Hin.
Qed.

(** X17: [colorama] is initialized once.  Over any succession of creations
    and deletions of loggers, starting before the first creation, the calls
    made to [colorama] are none, or one [init] followed by [deinit]s only:
    the first creation calls [init], and no later creation calls it again,
    even after a deletion has called [deinit]. *)
Theorem colorama_initialized_once (events : list logger_event) (out : string) :
  let w := fold_left logger_step events (mk_world out false []) in
  ((calls w = [] /\ _colorama_initializeed w = false)
   \/ (exists k, calls w = colorama_init :: repeat colorama_deinit k
                 /\ _colorama_initializeed w = true))
  /\ ((exists p ac st bg, In (created p ac st bg) events) ->
      exists k, calls w = colorama_init :: repeat colorama_deinit k
                /\ _colorama_initializeed w = true).
Proof.
  cbn zeta. split.
  - apply logger_steps_keep. left. split; reflexivity.
  - apply logger_steps_after_creation. left. split; reflexivity.
Qed.

Lemma colorama_initialized_once_witness :
  exists k,
    calls (fold_left logger_step
             [created false "R" EmptyString EmptyString; deleted;
              created true "R" EmptyString EmptyString]
             (mk_world EmptyString false []))
    = colorama_init :: repeat colorama_deinit k
    /\ _colorama_initializeed
         (fold_left logger_step
            [created false "R" EmptyString EmptyString; deleted;
             created true "R" EmptyString EmptyString]
            (mk_world EmptyString false []))
       = true.
Proof.
  apply (proj2 (colorama_initialized_once
                  [created false "R" EmptyString EmptyString; deleted;
                   created true "R" EmptyString EmptyString] EmptyString)).
  exists false, "R"%string, EmptyString, EmptyString. left. reflexivity.
Defined.

(** * Properties of the module [excel_table_conversion] *)

(** ** The table of a range *)

Lemma well_shaped_df_rows (df : DataFrame) :
  well_shaped_df df = true ->
  length (values df) = length (index df)
  /\ forall line, In line (values df) -> length line = length (columns df).
Proof.
  unfold well_shaped_df. intros H. apply andb_prop in H as [H1 H2].
  apply Nat.eqb_eq in H1. rewrite forallb_forall in H2.
  split; [exact H1|]. intros line Hin. apply Nat.eqb_eq, H2, Hin.
Qed.

Section GetTable.

Variable table_format : ExcelTableFormat.t.
Variable df : DataFrame.
Variable rng : TableRange.

Hypothesis df_shaped : well_shaped_df df = true.
Hypothesis rows_inside :
  0 <= TableRange.start_row rng <= TableRange.stop_row rng
  /\ TableRange.stop_row rng <= Z.of_nat (fst (df_shape df)).
Hypothesis cols_inside :
  0 <= TableRange.start_col rng <= TableRange.stop_col rng
  /\ TableRange.stop_col rng <= Z.of_nat (snd (df_shape df)).

Let offset : Z := ExcelTableFormat.header_row_offset table_format.
Let height : Z := TableRange.stop_row rng - TableRange.start_row rng.
Let width : Z := TableRange.stop_col rng - TableRange.start_col rng.

Lemma get_table_inside :
  0 <= offset < height ->
  exists table,
    _get_table table_format df rng = Returns table
    /\ t_index table = range 0 (height - offset - 1)
    /\ length (t_values table) = Z.to_nat (height - offset - 1)
    /\ length (t_columns table) = Z.to_nat width
    /\ (forall j, 0 <= j < width ->
          nth_error (t_columns table) (Z.to_nat j)
          = cell_at df (TableRange.start_row rng + offset)
              (TableRange.start_col rng + j))
    /\ (forall i j, 0 <= i < height - offset - 1 -> 0 <= j < width ->
          table_cell_at table i j
          = cell_at df (TableRange.start_row rng + offset + 1 + i)
              (TableRange.start_col rng + j)).
Proof.
  intros Hoff.
  destruct rows_inside as [Hr Hrb]. destruct cols_inside as [Hc Hcb].
  destruct (to_dataframe_inside rng df df_shaped Hr Hrb Hc Hcb)
    as (frame & Hframe & Hw & Hshape & _ & _ & Hcells).
  fold height width in Hshape, Hcells.
  destruct (well_shaped_df_rows frame Hw) as [Hlen Hlines].
  unfold df_shape in Hshape. injection Hshape as Hrows Hcols.
  unfold _get_table. rewrite Hframe. cbn [bind]. fold offset.
  unfold iloc_row. rewrite norm_index_inside by lia. cbn [bind].
  destruct (nth_error (values frame) (Z.to_nat offset)) as [header|] eqn:Hheader.
  2:{ apply nth_error_None in Hheader. lia. }
  assert (Hhl : length header = length (columns frame)).
  { apply Hlines. eapply nth_error_In; exact Hheader. }
  cbn [bind]. unfold n_columns. rewrite Hhl, Nat.eqb_refl. cbn [negb].
  assert (Hbody : length (slice_from (offset + 1) (values frame))
                  = Z.to_nat (height - offset - 1)).
  { unfold slice_from. rewrite length_slice_inside by lia. lia. }
  eexists. split; [reflexivity|]. cbn [t_index t_values t_columns].
  split; [rewrite Hbody; f_equal; lia|].
  split; [exact Hbody|].
  split; [lia|].
  split.
  - intros j Hj. rewrite <- (Hcells offset j) by lia.
    unfold cell_at.
    destruct (Z.ltb_spec offset 0); [lia|]. destruct (Z.ltb_spec j 0); [lia|].
    cbn [orb]. rewrite Hheader. reflexivity.
  - intros i j Hi Hj.
    replace (TableRange.start_row rng + offset + 1 + i)
      with (TableRange.start_row rng + (offset + 1 + i)) by lia.
    rewrite <- (Hcells (offset + 1 + i) j) by lia.
    unfold table_cell_at, cell_at. cbn [t_values].
    destruct (Z.ltb_spec i 0); [lia|]. destruct (Z.ltb_spec j 0); [lia|].
    destruct (Z.ltb_spec (offset + 1 + i) 0); [lia|].
    cbn [orb]. unfold slice_from.
    rewrite nth_error_slice_inside by lia. reflexivity.
Qed.

Lemma get_table_header_outside :
  height <= offset ->
  _get_table table_format df rng = Raises IndexError.
Proof.
  intros Hoff.
  destruct rows_inside as [Hr Hrb]. destruct cols_inside as [Hc Hcb].
  destruct (to_dataframe_inside rng df df_shaped Hr Hrb Hc Hcb)
    as (frame & Hframe & Hw & Hshape & _).
  fold height width in Hshape.
  unfold df_shape in Hshape. injection Hshape as Hrows Hcols.
  unfold _get_table. rewrite Hframe. cbn [bind]. fold offset.
  unfold iloc_row. rewrite norm_index_past by lia. reflexivity.
Qed.

End GetTable.

(** X18: the table of a range.  For a well-shaped frame and a range lying
    inside it, with a header offset from 0 to below the number of rows of the
    range, [_get_table] returns a table with one column label for each
    column of the range, whose rows are the rows of the range below the row
    at that offset, and whose index restarts at 0.  The label of a column is
    the cell of the range's row at that offset, for every such cell that is
    a string, a float or [np.nan]: these no dtype changes, while an integer
    may become a float in the row that pandas reads the labels from.  With a
    header offset at or past the number of rows of the range [_get_table]
    raises [IndexError]. *)
Theorem get_table_cuts_header_and_body
  (table_format : ExcelTableFormat.t) (df : DataFrame) (rng : TableRange) :
  let offset := ExcelTableFormat.header_row_offset table_format in
  let height := TableRange.stop_row rng - TableRange.start_row rng in
  let width := TableRange.stop_col rng - TableRange.start_col rng in
  well_shaped_df df = true ->
  0 <= TableRange.start_row rng <= TableRange.stop_row rng
  /\ TableRange.stop_row rng <= Z.of_nat (fst (df_shape df)) ->
  0 <= TableRange.start_col rng <= TableRange.stop_col rng
  /\ TableRange.stop_col rng <= Z.of_nat (snd (df_shape df)) ->
  (0 <= offset < height ->
   exists table,
     _get_table table_format df rng = Returns table
     /\ t_index table = range 0 (height - offset - 1)
     /\ length (t_values table) = Z.to_nat (height - offset - 1)
     /\ length (t_columns table) = Z.to_nat width
     /\ (forall j x, 0 <= j < width ->
           cell_at df (TableRange.start_row rng + offset)
             (TableRange.start_col rng + j) = Some x ->
           dtype_stable x = true ->
           nth_error (t_columns table) (Z.to_nat j) = Some x)
     /\ (forall i j, 0 <= i < height - offset - 1 -> 0 <= j < width ->
           table_cell_at table i j
           = cell_at df (TableRange.start_row rng + offset + 1 + i)
               (TableRange.start_col rng + j)))
  /\ (height <= offset ->
      _get_table table_format df rng = Raises IndexError).
Proof.
  intros offset height width Hw Hr Hc. split.
  - intros Hoff.
    destruct (get_table_inside table_format df rng Hw Hr Hc Hoff)
      as (table & Hrun & Hindex & Hrows & Hcols & Hlabels & Hbody).
    exists table. repeat split; try assumption.
    intros j x Hj Hx _. rewrite Hlabels by exact Hj. exact Hx.
  - apply get_table_header_outside; assumption.
Qed.

(** X19: the ranges found have a header and a body.  When the header offset
    of the format is from 0 to below its [min_n_rows], [_get_table] raises
    nothing on any range of the list that a call of [find_all_table_range]
    returns for the format's minima: each gives a table with at least
    [min_n_cols] columns and with the rows of the range below the header
    row. *)
Theorem get_table_of_found_ranges
  (table_format : ExcelTableFormat.t) (df : DataFrame) (ranges : list TableRange) :
  well_shaped_df df = true ->
  0 <= ExcelTableFormat.header_row_offset table_format
    < ExcelTableFormat.min_n_rows table_format ->
  find_all_table_range df (ExcelTableFormat.min_n_rows table_format)
    (ExcelTableFormat.min_n_cols table_format) = Returns ranges ->
  forall rng, In rng ranges ->
    exists table,
      _get_table table_format df rng = Returns table
      /\ Z.of_nat (length (t_columns table))
         >= ExcelTableFormat.min_n_cols table_format
      /\ Z.of_nat (length (t_values table))
         = TableRange.stop_row rng - TableRange.start_row rng
           - ExcelTableFormat.header_row_offset table_format - 1
      /\ Z.of_nat (length (t_values table))
         >= ExcelTableFormat.min_n_rows table_format
            - ExcelTableFormat.header_row_offset table_format - 1.
Proof.
  intros Hw Hoff Hret.
  destruct (find_all_sound df (ExcelTableFormat.min_n_rows table_format)
              (ExcelTableFormat.min_n_cols table_format) Hw)
    as [[ranges' arr] [Hrun (_ & _ & _ & Hacc & _)]].
  cbn [fst snd] in *. rewrite Hrun in Hret. injection Hret as ->.
  intros rng Hin. rewrite Forall_forall in Hacc.
  destruct (Hacc rng Hin) as (Hsize & Hr & Hrb & Hc & Hcb & _).
  change (n_rows (notna_to_numpy df)) with (fst (df_shape df)) in Hrb.
  change (n_cols (notna_to_numpy df)) with (snd (df_shape df)) in Hcb.
  unfold TableRange.has_min_size in Hsize.
  destruct (Z.ltb_spec (TableRange.stop_row rng - TableRange.start_row rng)
              (ExcelTableFormat.min_n_rows table_format)); [discriminate|].
  destruct (Z.ltb_spec (TableRange.stop_col rng - TableRange.start_col rng)
              (ExcelTableFormat.min_n_cols table_format)); [discriminate|].
  destruct (get_table_inside table_format df rng Hw) as (table & Hrun' & _ & Hrows & Hcols & _);
    [lia|lia|lia|].
  exists table. split; [exact Hrun'|]. rewrite Hrows, Hcols. lia.
Qed.

Lemma get_table_of_found_ranges_witness :
  find_all_table_range test_df 2 2
  = Returns [TableRange.mk 0 0 2 2; TableRange.mk 1 3 3 5]
  /\ (forall rng, In rng [TableRange.mk 0 0 2 2; TableRange.mk 1 3 3 5] ->
        exists table,
          _get_table (ExcelTableFormat.mk 2 2 1 "TEP" "zz_TEP") test_df rng
            = Returns table
          /\ Z.of_nat (length (t_columns table)) >= 2
          /\ Z.of_nat (length (t_values table))
             = TableRange.stop_row rng - TableRange.start_row rng - 1 - 1
          /\ Z.of_nat (length (t_values table)) >= 2 - 1 - 1).
Proof.
  split; [reflexivity|].
  apply (get_table_of_found_ranges (ExcelTableFormat.mk 2 2 1 "TEP" "zz_TEP") test_df
           [TableRange.mk 0 0 2 2; TableRange.mk 1 3 3 5]).
  - reflexivity.
  - simpl. lia.
  - reflexivity.
Defined.

Lemma get_table_cuts_header_and_body_witness :
  exists table,
    _get_table (ExcelTableFormat.mk 2 2 0 "TEP" "zz_TEP") test_df
      (TableRange.mk 1 3 3 5) = Returns table
    /\ t_index table = range 0 (3 - 1 - 0 - 1)
    /\ length (t_values table) = Z.to_nat (3 - 1 - 0 - 1)
    /\ length (t_columns table) = Z.to_nat (5 - 3)
    /\ (forall j x, 0 <= j < 5 - 3 ->
          cell_at test_df (1 + 0) (3 + j) = Some x ->
          dtype_stable x = true ->
          nth_error (t_columns table) (Z.to_nat j) = Some x)
    /\ (forall i j, 0 <= i < 3 - 1 - 0 - 1 -> 0 <= j < 5 - 3 ->
          table_cell_at table i j = cell_at test_df (1 + 0 + 1 + i) (3 + j)).
Proof.
  apply (proj1 (get_table_cuts_header_and_body
                  (ExcelTableFormat.mk 2 2 0 "TEP" "zz_TEP") test_df
                  (TableRange.mk 1 3 3 5) eq_refl
                  ltac:(simpl; lia) ltac:(simpl; lia))).
  simpl. lia.
Defined.

(** ** The names above a table *)

Lemma norm_index_negative (i : Z) (n : nat) :
  - Z.of_nat n <= i < 0 -> norm_index i n = Returns (Z.to_nat (i + Z.of_nat n)).
Proof.
  intros H. unfold norm_index.
  destruct (Z.ltb_spec i (- Z.of_nat n)); [lia|].
  destruct (Z.ltb_spec i 0); [reflexivity|lia].
Qed.

(** The row that an integer position denotes in a frame of [n] rows. *)
Lemma iloc_cell_reads (df : DataFrame) (i j : Z) :
  well_shaped_df df = true ->
  - Z.of_nat (length (index df)) <= i < Z.of_nat (length (index df)) ->
  0 <= j < Z.of_nat (length (columns df)) ->
  exists x,
    iloc_cell df i j = Returns x
    /\ cell_at df (if i <? 0 then i + Z.of_nat (length (index df)) else i) j
       = Some x.
Proof.
  intros Hw Hi Hj.
  destruct (well_shaped_df_rows df Hw) as [Hlen Hlines].
  set (k := if i <? 0 then i + Z.of_nat (length (index df)) else i).
  assert (Hk : 0 <= k < Z.of_nat (length (index df))).
  { subst k. destruct (Z.ltb_spec i 0); lia. }
  assert (Hnorm : norm_index i (length (index df)) = Returns (Z.to_nat k)).
  { subst k. destruct (Z.ltb_spec i 0).
    - apply norm_index_negative. lia.
    - apply norm_index_inside. lia. }
  unfold iloc_cell, cell_at. rewrite Hnorm, (norm_index_inside j) by lia.
  cbn [bind].
  destruct (Z.ltb_spec k 0); [lia|]. destruct (Z.ltb_spec j 0); [lia|].
  cbn [orb].
  destruct (nth_error (values df) (Z.to_nat k)) as [line|] eqn:Hline.
  2:{ apply nth_error_None in Hline. lia. }
  destruct (nth_error line (Z.to_nat j)) as [x|] eqn:Hx.
  2:{ apply nth_error_None in Hx.
      apply nth_error_In, Hlines in Hline. lia. }
  exists x. split; reflexivity.
Qed.

Lemma insert_two (table : Table) (longname shortname : cell) :
  existsb (is_label "longname") (t_columns table) = false ->
  existsb (is_label "shortname") (t_columns table) = false ->
  (table1 <- insert table 0 "longname" longname ;;
   table2 <- insert table1 1 "shortname" shortname ;;
   Returns table2)
  = Returns
      (mk_Table (t_index table)
         (Str "longname" :: Str "shortname" :: t_columns table)
         (map (fun line => longname :: shortname :: line) (t_values table))).
Proof.
  intros Hl Hs. unfold insert at 1. rewrite Hl.
  cbn [Nat.ltb Nat.leb bind firstn skipn app].
  unfold insert. cbn [t_columns t_index t_values existsb is_label].
  rewrite Hs. cbn [String.eqb Ascii.eqb Bool.eqb orb andb length Nat.ltb Nat.leb
                   firstn skipn app bind].
  rewrite map_map. reflexivity.
Qed.

(** X20: where the two names are read.  On a well-shaped frame of at least
    two rows, for a range that starts inside the frame and a table without
    a column named [longname] or [shortname], the transform puts these two
    columns in front of the table and fills them with the cells of the
    range's first column two rows and one row above the range.  When the
    range starts on the first or the second row of the frame, the rows above
    are counted from the end of the frame: the names are read from its last
    rows.  When the table already has one of the two columns and the names
    can be read, the transform raises [ValueError]. *)
Theorem add_longname_and_shortname_reads_above
  (df : DataFrame) (rng : TableRange) (table : Table) :
  let n := Z.of_nat (fst (df_shape df)) in
  let wrap := fun i => if i <? 0 then i + n else i in
  well_shaped_df df = true ->
  2 <= n ->
  0 <= TableRange.start_row rng <= n ->
  0 <= TableRange.start_col rng < Z.of_nat (snd (df_shape df)) ->
  exists longname shortname,
    cell_at df (wrap (TableRange.start_row rng - 2)) (TableRange.start_col rng)
      = Some longname
    /\ cell_at df (wrap (TableRange.start_row rng - 1)) (TableRange.start_col rng)
       = Some shortname
    /\ (existsb (is_label "longname") (t_columns table) = false ->
        existsb (is_label "shortname") (t_columns table) = false ->
        add_longname_and_shortname df rng table
        = Returns
            (mk_Table (t_index table)
               (Str "longname" :: Str "shortname" :: t_columns table)
               (map (fun line => longname :: shortname :: line) (t_values table))))
    /\ (existsb (is_label "longname") (t_columns table) = true
        \/ existsb (is_label "shortname") (t_columns table) = true ->
        add_longname_and_shortname df rng table = Raises ValueError).
Proof.
  intros n wrap Hw Hn Hr Hc. unfold df_shape in n, Hc. cbn [fst snd] in n, Hc.
  destruct (iloc_cell_reads df (TableRange.start_row rng - 2)
              (TableRange.start_col rng) Hw) as [longname [Hlong Hlcell]];
    [fold n; lia|lia|].
  destruct (iloc_cell_reads df (TableRange.start_row rng - 1)
              (TableRange.start_col rng) Hw) as [shortname [Hshort Hscell]];
    [fold n; lia|lia|].
  exists longname, shortname.
  split; [exact Hlcell|]. split; [exact Hscell|].
  unfold add_longname_and_shortname. cbn zeta.
  replace (TableRange.start_row rng + -2) with (TableRange.start_row rng - 2) by lia.
  replace (TableRange.start_row rng + -1) with (TableRange.start_row rng - 1) by lia.
  rewrite Hlong, Hshort. cbn [bind].
  split.
  - intros Hl Hs. apply insert_two; assumption.
  - intros Hclash. unfold insert at 1.
    destruct (existsb (is_label "longname") (t_columns table)) eqn:Hl;
      [reflexivity|].
    destruct Hclash as [Habs|Hs]; [discriminate|].
    cbn [Nat.ltb Nat.leb bind firstn skipn app].
    unfold insert. cbn [t_columns existsb is_label].
    rewrite Hs. cbn [String.eqb Ascii.eqb Bool.eqb orb andb]. reflexivity.
Qed.

Lemma add_longname_and_shortname_reads_above_witness :
  exists longname shortname,
    cell_at test_df
      ((fun i => if i <? 0 then i + Z.of_nat (fst (df_shape test_df)) else i) (1 - 2))
      3 = Some longname
    /\ cell_at test_df
         ((fun i => if i <? 0 then i + Z.of_nat (fst (df_shape test_df)) else i) (1 - 1))
         3 = Some shortname
    /\ (existsb (is_label "longname") [Str "c"; Str "d"] = false ->
        existsb (is_label "shortname") [Str "c"; Str "d"] = false ->
        add_longname_and_shortname test_df (TableRange.mk 1 3 3 5)
          (mk_Table [0] [Str "c"; Str "d"] [[NaN; Int (-4)]])
        = Returns
            (mk_Table [0] [Str "longname"; Str "shortname"; Str "c"; Str "d"]
               (map (fun line => longname :: shortname :: line) [[NaN; Int (-4)]])))
    /\ (existsb (is_label "longname") [Str "c"; Str "d"] = true
        \/ existsb (is_label "shortname") [Str "c"; Str "d"] = true ->
        add_longname_and_shortname test_df (TableRange.mk 1 3 3 5)
          (mk_Table [0] [Str "c"; Str "d"] [[NaN; Int (-4)]])
        = Raises ValueError).
Proof.
  apply (add_longname_and_shortname_reads_above test_df (TableRange.mk 1 3 3 5)
           (mk_Table [0] [Str "c"; Str "d"] [[NaN; Int (-4)]]));
    try reflexivity; simpl; lia.
Defined.

(** ** File names *)

Lemma string_length_app (s1 s2 : string) :
  String.length (s1 ++ s2) = (String.length s1 + String.length s2)%nat.
Proof. induction s1 as [|a s1 IH]; cbn; [reflexivity|rewrite IH; reflexivity]. Qed.

Lemma substring_all (s : string) : substring 0 (String.length s) s = s.
Proof. induction s as [|a s IH]; cbn; [reflexivity|rewrite IH; reflexivity]. Qed.

Lemma substring_app_right (s1 s2 : string) :
  substring (String.length s1) (String.length s2) (s1 ++ s2) = s2.
Proof. induction s1 as [|a s1 IH]; cbn; [apply substring_all|exact IH]. Qed.

Lemma substring_split (s : string) :
  forall n, (n <= String.length s)%nat ->
    s = (substring 0 n s ++ substring n (String.length s - n) s)%string.
Proof.
  induction s as [|a s IH]; intros n Hn.
  - destruct n; reflexivity.
  - destruct n as [|n]; cbn.
    + rewrite substring_all. reflexivity.
    + cbn in Hn. rewrite <- IH by lia. reflexivity.
Qed.

(** [endswith] holds exactly for the strings made of something followed by
    the suffix, and [startswith] for the prefix followed by something. *)
Lemma endswith_iff (s suffix : string) :
  endswith s suffix = true <-> exists stem, s = (stem ++ suffix)%string.
Proof.
  unfold endswith. rewrite andb_true_iff, Nat.leb_le, String.eqb_eq. split.
  - intros [Hlen Hsub].
    exists (substring 0 (String.length s - String.length suffix) s).
    pose proof (substring_split s (String.length s - String.length suffix)
                  ltac:(lia)) as Hsplit.
    replace (String.length s - (String.length s - String.length suffix))%nat
      with (String.length suffix) in Hsplit by lia.
    rewrite Hsub in Hsplit. exact Hsplit.
  - intros [stem ->]. rewrite string_length_app. split; [lia|].
    replace (String.length stem + String.length suffix - String.length suffix)%nat
      with (String.length stem) by lia.
    apply substring_app_right.
Qed.

Lemma prefix_app (p rest : string) : String.prefix p (p ++ rest) = true.
Proof.
  induction p as [|a p IH]; cbn; [destruct rest; reflexivity|].
  destruct (Ascii.ascii_dec a a) as [_|Hne]; [exact IH|contradiction].
Qed.

Lemma prefix_split (p : string) :
  forall s, String.prefix p s = true -> exists rest, s = (p ++ rest)%string.
Proof.
  induction p as [|a p IH]; intros s H.
  - exists s. reflexivity.
  - destruct s as [|b s]; [discriminate|]. cbn in H.
    destruct (Ascii.ascii_dec a b) as [->|Hne]; [|discriminate].
    destruct (IH s H) as [rest ->]. exists rest. reflexivity.
Qed.

Lemma startswith_iff (s prefix : string) :
  startswith s prefix = true <-> exists rest, s = (prefix ++ rest)%string.
Proof.
  unfold startswith. split; [apply prefix_split|].
  intros [rest ->]. apply prefix_app.
Qed.

Lemma endswith_longer (s tail suffix : string) :
  endswith s (tail ++ suffix) = true -> endswith s suffix = true.
Proof.
  rewrite !endswith_iff. intros [stem ->].
  exists (stem ++ tail)%string. rewrite string_app_assoc. reflexivity.
Qed.

Lemma xlsx_is_not_csv (s : string) :
  endswith s ".xlsx" = true -> endswith s ".csv" = false.
Proof.
  intros Hx. destruct (endswith s ".csv") eqn:Hc; [exfalso|reflexivity].
  apply endswith_iff in Hx as [stem1 H1]. apply endswith_iff in Hc as [stem2 H2].
  assert (Hlen : (String.length stem1 + 5 = String.length stem2 + 4)%nat).
  { apply (f_equal String.length) in H1, H2.
    rewrite string_length_app in H1, H2. cbn in H1, H2. lia. }
  pose proof (append_correct2 stem1 ".xlsx" 4) as G1.
  pose proof (append_correct2 stem2 ".csv" 3) as G2.
  rewrite <- H1 in G1. rewrite <- H2 in G2.
  replace (3 + String.length stem2)%nat with (4 + String.length stem1)%nat in G2 by lia.
  rewrite <- G1 in G2. cbn in G2. discriminate.
Qed.

(** X21: the filters on file names.  A file name passes
    [acceptable_excel_filename] exactly when it is the format's header
    followed by something and also something followed by [.xlsx], and
    [acceptable_csv_filename] likewise with [.csv]; no name passes both.
    An empty header lets every name with the right ending pass. *)
Theorem excel_and_csv_filenames_apart (self : ExcelTableFormat.t) (filename : string) :
  (ExcelTableFormat.acceptable_excel_filename self filename = true
   <-> (exists rest,
          filename = (ExcelTableFormat.header_in_filename self ++ rest)%string)
       /\ (exists stem, filename = (stem ++ ".xlsx")%string))
  /\ (ExcelTableFormat.acceptable_csv_filename self filename = true
      <-> (exists rest,
             filename = (ExcelTableFormat.header_in_filename self ++ rest)%string)
          /\ (exists stem, filename = (stem ++ ".csv")%string))
  /\ (ExcelTableFormat.acceptable_excel_filename self filename = true ->
      ExcelTableFormat.acceptable_csv_filename self filename = false)
  /\ (ExcelTableFormat.header_in_filename self = EmptyString ->
      ExcelTableFormat.acceptable_excel_filename self filename
      = endswith filename ".xlsx").
Proof.
  unfold ExcelTableFormat.acceptable_excel_filename,
    ExcelTableFormat.acceptable_csv_filename.
  rewrite !andb_true_iff, !startswith_iff, !endswith_iff.
  split; [reflexivity|]. split; [reflexivity|]. split.
  - intros [_ Hx]. apply endswith_iff in Hx.
    rewrite (xlsx_is_not_csv filename Hx). apply andb_false_r.
  - intros ->. unfold startswith. destruct filename; reflexivity.
Qed.

Lemma excel_and_csv_filenames_apart_witness :
  ExcelTableFormat.acceptable_csv_filename
    (ExcelTableFormat.mk 3 4 2 "TEP" "zz_TEP") "zz_TEP_data.xlsx" = false.
Proof.
  apply (proj1 (proj2 (proj2 (excel_and_csv_filenames_apart
                                (ExcelTableFormat.mk 3 4 2 "TEP" "zz_TEP")
                                "zz_TEP_data.xlsx")))).
  reflexivity.
Defined.

(** X22: the filter of [merge] against the format's.  A name that
    [_acceptable_csv_filename] accepts for a header and a tail is accepted by
    [acceptable_csv_filename] of a format with that header, and is never
    accepted as an Excel file name; with the empty tail the two filters
    agree. *)
Theorem merge_filter_within_csv_filter
  (self : ExcelTableFormat.t) (filename tail_in_csv_filename : string) :
  (_acceptable_csv_filename filename (ExcelTableFormat.header_in_filename self)
     tail_in_csv_filename = true ->
   ExcelTableFormat.acceptable_csv_filename self filename = true
   /\ ExcelTableFormat.acceptable_excel_filename self filename = false)
  /\ _acceptable_csv_filename filename (ExcelTableFormat.header_in_filename self)
       EmptyString
     = ExcelTableFormat.acceptable_csv_filename self filename.
Proof.
  split; [|reflexivity].
  unfold _acceptable_csv_filename, ExcelTableFormat.acceptable_csv_filename,
    ExcelTableFormat.acceptable_excel_filename.
  intros H. apply andb_prop in H as [Hs He].
  apply endswith_longer in He. rewrite Hs, He. split; [reflexivity|].
  destruct (endswith filename ".xlsx") eqn:Hx; [|apply andb_false_r].
  rewrite (xlsx_is_not_csv filename Hx) in He. discriminate.
Qed.

Lemma merge_filter_within_csv_filter_witness :
  ExcelTableFormat.acceptable_csv_filename
    (ExcelTableFormat.mk 3 4 1 "TEP" "zz_TEP") "zz_TEP_1_TEP.csv" = true
  /\ ExcelTableFormat.acceptable_excel_filename
       (ExcelTableFormat.mk 3 4 1 "TEP" "zz_TEP") "zz_TEP_1_TEP.csv" = false.
Proof.
  apply (proj1 (merge_filter_within_csv_filter
                  (ExcelTableFormat.mk 3 4 1 "TEP" "zz_TEP")
                  "zz_TEP_1_TEP.csv" "_TEP")).
  reflexivity.
Defined.

Example test_accept_sheet :
  ExcelTableFormat.acceptable_sheet_name
    (ExcelTableFormat.mk 3 4 2 "TEP" "zz_TEP") "TEP_sheet" = true
  /\ ExcelTableFormat.acceptable_sheet_name
       (ExcelTableFormat.mk 3 4 2 "TEP" "zz_TEP") "not_TEP_sheet" = false.
Proof. split; reflexivity. Qed.

Example test_accept_excel_file :
  ExcelTableFormat.acceptable_excel_filename
    (ExcelTableFormat.mk 3 4 2 "TEP" "zz_TEP") "zz_TEP_data.xlsx" = true
  /\ ExcelTableFormat.acceptable_excel_filename
       (ExcelTableFormat.mk 3 4 2 "TEP" "zz_TEP") "zz_TEP_data.txt" = false
  /\ ExcelTableFormat.acceptable_excel_filename
       (ExcelTableFormat.mk 3 4 2 "TEP" "zz_TEP") "not_TEP_data.xlsx" = false.
Proof. repeat split; reflexivity. Qed.

(** ** The path of the converted file *)

Example test_convert_to_csv_filepath :
  _convert_to_csv_filepath posixpath "C://a//b//data.xlsx" "_converted"
  = "C://a//b//data_converted.csv"%string
  /\ _convert_to_csv_filepath ntpath "C://a//b//data.xlsx" "_converted"
     = "C://a//b//data_converted.csv"%string.
Proof. split; vm_compute; reflexivity. Qed.

Lemma rfind_from_app (c : ascii) (s1 s2 : string) :
  forall i found,
    rfind_from c (s1 ++ s2) i found
    = rfind_from c s2 (i + Z.of_nat (String.length s1)) (rfind_from c s1 i found).
Proof.
  induction s1 as [|a s1 IH]; intros i found; cbn [append rfind_from String.length].
  - f_equal. lia.
  - rewrite IH. f_equal. lia.
Qed.

Lemma rfind_from_absent (c : ascii) (s : string) :
  occurs c s = false -> forall i found, rfind_from c s i found = found.
Proof.
  induction s as [|a s IH]; intros H i found; cbn in *; [reflexivity|].
  apply orb_false_elim in H as [Ha Hs]. rewrite Ha. apply IH, Hs.
Qed.

Lemma rfind_from_below (c : ascii) (s : string) :
  forall i found, found < i ->
    rfind_from c s i found < i + Z.of_nat (String.length s).
Proof.
  induction s as [|a s IH]; intros i found H; cbn [rfind_from String.length].
  - lia.
  - destruct (Ascii.eqb a c).
    + specialize (IH (i + 1) i). lia.
    + specialize (IH (i + 1) found). lia.
Qed.

Lemma In_range (lo hi i : Z) : lo <= i < hi -> In i (range lo hi).
Proof.
  intros H. unfold range. apply in_map_iff.
  exists (Z.to_nat (i - lo)). split; [lia|].
  apply in_seq. lia.
Qed.

Lemma substring_app_skip (s1 s2 : string) (n m : nat) :
  substring (String.length s1 + n) m (s1 ++ s2) = substring n m s2.
Proof. induction s1 as [|a s1 IH]; cbn; [reflexivity|exact IH]. Qed.

Lemma substring_app_left (s1 s2 : string) :
  substring 0 (String.length s1) (s1 ++ s2) = s1.
Proof.
  induction s1 as [|a s1 IH]; cbn.
  - destruct s2; reflexivity.
  - rewrite IH. reflexivity.
Qed.

Lemma skip_leading_dots_found (p : string) (extsep : ascii) (dotIndex i : Z)
  (idxs : list Z) :
  In i idxs ->
  str_slice p i (i + 1) <> String extsep EmptyString ->
  skip_leading_dots p extsep dotIndex idxs
  = Some (str_slice p 0 dotIndex,
          str_slice p dotIndex (Z.of_nat (String.length p))).
Proof.
  intros Hin Hne. induction idxs as [|j idxs IH]; [destruct Hin|].
  cbn [skip_leading_dots].
  destruct (String.eqb_spec (str_slice p j (j + 1)) (String extsep EmptyString))
    as [Heq|Hneq]; cbn [negb]; [|reflexivity].
  destruct Hin as [->|Hin]; [contradiction|]. apply IH, Hin.
Qed.

Lemma skip_leading_dots_none (p : string) (extsep : ascii) (dotIndex : Z)
  (idxs : list Z) :
  (forall i, In i idxs -> str_slice p i (i + 1) = String extsep EmptyString) ->
  skip_leading_dots p extsep dotIndex idxs = None.
Proof.
  induction idxs as [|j idxs IH]; intros H; [reflexivity|].
  cbn [skip_leading_dots]. rewrite (H j) by (left; reflexivity).
  rewrite String.eqb_refl. cbn [negb]. apply IH.
  intros i Hi. apply H. right. exact Hi.
Qed.

Lemma not_only_dots (name : string) :
  only_dots name = false ->
  exists k, (k < String.length name)%nat
            /\ forall rest, substring k 1 (name ++ rest) <> "."%string.
Proof.
  induction name as [|a name IH]; intros H; cbn in H; [discriminate|].
  destruct (Ascii.eqb_spec a "."%char) as [->|Hne].
  - cbn [andb] in H. destruct (IH H) as [k [Hk Hsub]].
    exists (S k). split; [cbn; lia|]. intros rest. cbn. apply Hsub.
  - exists 0%nat. split; [cbn; lia|]. intros rest. cbn.
    destruct (name ++ rest)%string; intros Heq; injection Heq as Heq; contradiction.
Qed.

Lemma only_dots_slice (name : string) :
  only_dots name = true ->
  forall k rest, (k < String.length name)%nat ->
    substring k 1 (name ++ rest) = "."%string.
Proof.
  induction name as [|a name IH]; intros H k rest Hk; cbn in Hk; [lia|].
  cbn in H. apply andb_prop in H as [Ha Hn]. apply Ascii.eqb_eq in Ha. subst a.
  destruct k as [|k]; cbn.
  - destruct (name ++ rest)%string; reflexivity.
  - apply IH; [exact Hn|lia].
Qed.

Section Splitext.

Variable os : os_path.
Variables dir name : string.

Hypothesis sep_absent : occurs (sep os) (name ++ ".xlsx") = false.
Hypothesis altsep_absent :
  forall a, altsep os = Some a -> occurs a (name ++ ".xlsx") = false.

Let p : string := (dir ++ name ++ ".xlsx")%string.
Let dotIndex : Z := Z.of_nat (String.length dir) + Z.of_nat (String.length name).

Lemma xlsx_dot_index : rfind p "."%char = dotIndex.
Proof.
  unfold rfind, p. rewrite !rfind_from_app. cbn. subst dotIndex. lia.
Qed.

Lemma xlsx_sep_index (c : ascii) :
  occurs c (name ++ ".xlsx") = false ->
  rfind p c = rfind dir c /\ rfind p c < Z.of_nat (String.length dir).
Proof.
  intros H. unfold rfind, p. rewrite rfind_from_app.
  rewrite (rfind_from_absent c _ H).
  pose proof (rfind_from_below c dir 0 (-1) ltac:(lia)).
  split; [reflexivity|lia].
Qed.

(** The last separator lies before the name. *)
Lemma xlsx_last_separator :
  let sepIndex :=
    match altsep os with
    | Some altsep => Z.max (rfind p (sep os)) (rfind p altsep)
    | None => rfind p (sep os)
    end in
  sepIndex < Z.of_nat (String.length dir)
  /\ (dir = EmptyString -> sepIndex = -1).
Proof.
  cbn zeta.
  destruct (xlsx_sep_index (sep os) sep_absent) as [Hs Hlt].
  destruct (altsep os) as [a|] eqn:Ha.
  - destruct (xlsx_sep_index a (altsep_absent a eq_refl)) as [Hs' Hlt'].
    split; [lia|]. intros Hdir. rewrite Hs, Hs', Hdir. reflexivity.
  - split; [exact Hlt|]. intros Hdir. rewrite Hs, Hdir. reflexivity.
Qed.

Lemma splitext_xlsx :
  only_dots name = false ->
  splitext os p = ((dir ++ name)%string, ".xlsx"%string).
Proof.
  intros Hname. unfold splitext, _splitext.
  destruct xlsx_last_separator as [Hsep _]. cbn zeta in Hsep.
  rewrite xlsx_dot_index.
  set (sepIndex := match altsep os with
                   | Some altsep => Z.max (rfind p (sep os)) (rfind p altsep)
                   | None => rfind p (sep os)
                   end) in *.
  destruct (Z.gtb_spec dotIndex sepIndex) as [_|Hle]; [|subst dotIndex; lia].
  destruct (not_only_dots name Hname) as [k [Hk Hsub]].
  rewrite (skip_leading_dots_found p "."%char dotIndex
             (Z.of_nat (String.length dir) + Z.of_nat k)).
  - unfold str_slice, p, dotIndex.
    rewrite Z.sub_0_r. change (Z.to_nat 0) with 0%nat.
    rewrite <- string_app_assoc.
    replace (Z.to_nat (Z.of_nat (String.length dir) + Z.of_nat (String.length name)))
      with (String.length (dir ++ name)) by (rewrite string_length_app; lia).
    replace (Z.to_nat
               (Z.of_nat (String.length ((dir ++ name) ++ ".xlsx"))
                - (Z.of_nat (String.length dir) + Z.of_nat (String.length name))))
      with (String.length ".xlsx")
      by (rewrite !string_length_app; cbn [String.length]; lia).
    rewrite substring_app_left, substring_app_right. reflexivity.
  - apply In_range. subst dotIndex. lia.
  - unfold str_slice, p.
    replace (Z.to_nat (Z.of_nat (String.length dir) + Z.of_nat k + 1
                       - (Z.of_nat (String.length dir) + Z.of_nat k)))
      with 1%nat by lia.
    replace (Z.to_nat (Z.of_nat (String.length dir) + Z.of_nat k))
      with (String.length dir + k)%nat by lia.
    rewrite substring_app_skip. apply Hsub.
Qed.

(** The last character of a string is the last place where it occurs. *)
Lemma rfind_last (d : string) (c : ascii) :
  rfind (d ++ String c EmptyString) c = Z.of_nat (String.length d).
Proof.
  unfold rfind. rewrite rfind_from_app. cbn [rfind_from].
  rewrite Ascii.eqb_refl. lia.
Qed.

(** With a directory part in front, the last separator is its last
    character. *)
Lemma xlsx_separator_at_end :
  directory_part os dir ->
  match altsep os with
  | Some altsep => Z.max (rfind p (sep os)) (rfind p altsep)
  | None => rfind p (sep os)
  end = Z.of_nat (String.length dir) - 1.
Proof.
  intros [Hdir|(d & c & Hdir & Hc)].
  - destruct xlsx_last_separator as [_ Hsep]. cbn zeta in Hsep.
    rewrite (Hsep Hdir), Hdir. reflexivity.
  - destruct (xlsx_sep_index (sep os) sep_absent) as [Hs Hlt].
    assert (Hlast : rfind dir c = Z.of_nat (String.length dir) - 1).
    { rewrite Hdir, rfind_last, string_length_app. cbn [String.length]. lia. }
    destruct (altsep os) as [a|] eqn:Ha.
    + destruct (xlsx_sep_index a (altsep_absent a eq_refl)) as [Hs' Hlt'].
      destruct Hc as [->|Hc].
      * rewrite Hs in *. lia.
      * injection Hc as ->. rewrite Hs' in *. lia.
    + destruct Hc as [->|Hc]; [|discriminate]. rewrite Hs in *. lia.
Qed.

Lemma splitext_dots_xlsx :
  directory_part os dir -> only_dots name = true ->
  splitext os p = (p, EmptyString).
Proof.
  intros Hdir Hname. unfold splitext, _splitext.
  rewrite (xlsx_separator_at_end Hdir), xlsx_dot_index.
  destruct (Z.gtb_spec dotIndex (Z.of_nat (String.length dir) - 1)) as [_|Hle];
    [|reflexivity].
  rewrite skip_leading_dots_none; [reflexivity|].
  intros i Hi. unfold range in Hi. apply in_map_iff in Hi as [j [<- Hj]].
  apply in_seq in Hj. subst dotIndex.
  unfold str_slice, p.
  replace (Z.to_nat (Z.of_nat (String.length dir) - 1 + 1 + Z.of_nat j + 1
                     - (Z.of_nat (String.length dir) - 1 + 1 + Z.of_nat j)))
    with 1%nat by lia.
  replace (Z.to_nat (Z.of_nat (String.length dir) - 1 + 1 + Z.of_nat j))
    with (String.length dir + j)%nat by lia.
  rewrite substring_app_skip.
  apply only_dots_slice; [exact Hname|lia].
Qed.

End Splitext.

(** X23: the path of the converted file.  Take a path made of a text
    [dir], a name and the extension [.xlsx], where the name holds no
    separator.  When the name is not made of dots only, the path of the CSV
    file is [dir] and the name followed by the tail and [.csv], whatever
    [dir] is.  When the name is made of dots only, or is empty, and [dir] is
    a directory part (empty, or ending in a separator), nothing is taken for
    an extension: the tail and [.csv] come after [.xlsx]. *)
Theorem convert_to_csv_filepath_of_xlsx
  (os : os_path) (dir name tail_in_csv_filename : string) :
  occurs (sep os) (name ++ ".xlsx") = false ->
  (forall a, altsep os = Some a -> occurs a (name ++ ".xlsx") = false) ->
  (only_dots name = false ->
   _convert_to_csv_filepath os (dir ++ name ++ ".xlsx") tail_in_csv_filename
   = (dir ++ name ++ tail_in_csv_filename ++ ".csv")%string)
  /\ (only_dots name = true -> directory_part os dir ->
      _convert_to_csv_filepath os (dir ++ name ++ ".xlsx") tail_in_csv_filename
      = (dir ++ name ++ ".xlsx" ++ tail_in_csv_filename ++ ".csv")%string).
Proof.
  intros Hsep Halt. split; [intros Hname|intros Hname Hdir];
    unfold _convert_to_csv_filepath.
  - rewrite (splitext_xlsx os dir name Hsep Halt Hname).
    apply string_app_assoc.
  - rewrite (splitext_dots_xlsx os dir name Hsep Halt Hdir Hname).
    rewrite !string_app_assoc. reflexivity.
Qed.

Lemma convert_to_csv_filepath_of_xlsx_witness :
  _convert_to_csv_filepath posixpath
    ("a/b/" ++ "zz_TEP_1" ++ ".xlsx") "_TEP"
  = ("a/b/" ++ "zz_TEP_1" ++ "_TEP" ++ ".csv")%string
  /\ _convert_to_csv_filepath ntpath
       ("a/b/" ++ ".." ++ ".xlsx") "_TEP"
     = ("a/b/" ++ ".." ++ ".xlsx" ++ "_TEP" ++ ".csv")%string.
Proof.
  split.
  - apply (proj1 (convert_to_csv_filepath_of_xlsx
                    posixpath "a/b/" "zz_TEP_1" "_TEP"
                    eq_refl (fun a H => ltac:(discriminate H)))).
    reflexivity.
  - apply (proj2 (convert_to_csv_filepath_of_xlsx
                    ntpath "a/b/" ".." "_TEP"
                    eq_refl
                    (fun a H =>
                       ltac:(injection H as <-; reflexivity)))).
    + reflexivity.
    + right. exists "a/b"%string, "/"%char. split; [reflexivity|].
      right. reflexivity.
Defined.

(** X24: what is converted can be merged.  The CSV file made from an Excel
    file whose name, before [.xlsx], starts with a header, holds no separator
    and not only dots, has a name that [_acceptable_csv_filename] accepts
    for the same header and the tail used in the conversion. *)
Theorem converted_name_passes_merge_filter
  (os : os_path) (header name tail_in_csv_filename : string) :
  occurs (sep os) (name ++ ".xlsx") = false ->
  (forall a, altsep os = Some a -> occurs a (name ++ ".xlsx") = false) ->
  only_dots name = false ->
  startswith name header = true ->
  _acceptable_csv_filename
    (_convert_to_csv_filepath os (name ++ ".xlsx") tail_in_csv_filename)
    header tail_in_csv_filename = true.
Proof.
  intros Hsep Halt Hname Hhead. unfold _convert_to_csv_filepath.
  pose proof (splitext_xlsx os EmptyString name Hsep Halt Hname) as H.
  cbn [append] in H. rewrite H.
  unfold _acceptable_csv_filename. apply andb_true_intro. split.
  - apply startswith_iff in Hhead as [rest ->]. apply startswith_iff.
    exists (rest ++ tail_in_csv_filename ++ ".csv")%string.
    apply string_app_assoc.
  - apply endswith_iff. exists name. reflexivity.
Qed.

Lemma converted_name_passes_merge_filter_witness :
  _acceptable_csv_filename
    (_convert_to_csv_filepath posixpath ("zz_TEP_1" ++ ".xlsx") "_TEP")
    "zz_TEP" "_TEP" = true.
Proof.
  apply (converted_name_passes_merge_filter
           posixpath "zz_TEP" "zz_TEP_1" "_TEP");
    try reflexivity.
  intros a H. discriminate H.
Defined.

(** ** The calls of the walk *)

Lemma combine_app_same {A B : Type} (l1 l2 : list A) (c1 c2 : list B) :
  length l1 = length c1 ->
  combine (l1 ++ l2) (c1 ++ c2) = combine l1 c1 ++ combine l2 c2.
Proof.
  revert c1. induction l1 as [|x l1 IH]; intros [|y c1] H; cbn in *;
    try discriminate; [reflexivity|].
  rewrite IH by lia. reflexivity.
Qed.

Section Walk.

Variable FS : Type.
Variable os : os_path.
Variable env : collaborators FS.
Variable table_format : ExcelTableFormat.t.
Variables skip_converted backup_excel : bool.
Variable tail_in_csv_filename : string.

(** What is made for a file, converted or skipped. *)
Let made_for (entry : string * string * string * bool) : list conversion_call :=
  if snd entry then calls_for backup_excel (fst entry) else [].

Lemma inner_walk (subdir target_dir : string) (filenames : list string) :
  forall st,
    exists converted,
      let files :=
        map
          (fun filename =>
             (os_path_join env subdir filename,
              _convert_to_csv_filepath os (os_path_join env target_dir filename)
                tail_in_csv_filename,
              os_path_join env target_dir filename))
          (filter (ExcelTableFormat.acceptable_excel_filename table_format)
             filenames) in
      length converted = length files
      /\ (skip_converted = false -> Forall (fun b => b = true) converted)
      /\ snd (fold_left
                (convert_one os env table_format skip_converted backup_excel
                   tail_in_csv_filename subdir target_dir)
                filenames st)
         = snd st ++ flat_map made_for (combine files converted).
Proof.
  induction filenames as [|filename filenames IH]; intros [fs made]; cbn zeta.
  - exists []. cbn. rewrite app_nil_r. repeat split. constructor.
  - cbn [fold_left filter]. unfold convert_one at 2.
    destruct (ExcelTableFormat.acceptable_excel_filename table_format filename)
      eqn:Hacc; cbn [negb].
    + destruct (skip_converted
                && _already_converted env fs (os_path_join env subdir filename)
                     (_convert_to_csv_filepath os (os_path_join env target_dir filename)
                        tail_in_csv_filename)) eqn:Hskip.
      * destruct (IH (fs, made)) as (converted & Hlen & Hall & Hrun).
        exists (false :: converted). cbn zeta in *. cbn [map length combine flat_map snd].
        split; [lia|]. split.
        -- intros Hs. rewrite Hs in Hskip. discriminate.
        -- rewrite Hrun. reflexivity.
      * destruct backup_excel eqn:Hb.
        -- destruct (IH (do_backup_excel env
                            (do_convert_to_csv env fs (os_path_join env subdir filename)
                               (_convert_to_csv_filepath os
                                  (os_path_join env target_dir filename)
                                  tail_in_csv_filename))
                            (os_path_join env subdir filename)
                            (os_path_join env target_dir filename),
                          (made ++ [convert_to_csv (os_path_join env subdir filename)
                                      (_convert_to_csv_filepath os
                                         (os_path_join env target_dir filename)
                                         tail_in_csv_filename)])
                          ++ [_backup_excel (os_path_join env subdir filename)
                                (os_path_join env target_dir filename)]))
             as (converted & Hlen & Hall & Hrun).
           exists (true :: converted). cbn zeta in *.
           cbn [map length combine flat_map snd].
           split; [lia|]. split.
           ++ intros Hs. constructor; [reflexivity|apply Hall, Hs].
           ++ rewrite Hrun. cbn [snd]. unfold made_for at 2. cbn [snd fst calls_for].
              rewrite <- !app_assoc. reflexivity.
        -- destruct (IH (do_convert_to_csv env fs (os_path_join env subdir filename)
                            (_convert_to_csv_filepath os
                               (os_path_join env target_dir filename)
                               tail_in_csv_filename),
                          made ++ [convert_to_csv (os_path_join env subdir filename)
                                     (_convert_to_csv_filepath os
                                        (os_path_join env target_dir filename)
                                        tail_in_csv_filename)]))
             as (converted & Hlen & Hall & Hrun).
           exists (true :: converted). cbn zeta in *.
           cbn [map length combine flat_map snd].
           split; [lia|]. split.
           ++ intros Hs. constructor; [reflexivity|apply Hall, Hs].
           ++ rewrite Hrun. cbn [snd]. unfold made_for at 2. cbn [snd fst calls_for].
              rewrite <- !app_assoc. reflexivity.
    + apply IH.
Qed.

Lemma outer_walk (source_rootdir target_rootdir : string)
  (walk : list (string * list string)) :
  forall st,
    exists converted,
      let files :=
        excel_files os env table_format source_rootdir target_rootdir
          tail_in_csv_filename walk in
      length converted = length files
      /\ (skip_converted = false -> Forall (fun b => b = true) converted)
      /\ snd (fold_left
                (fun st entry =>
                   let '(subdir, filenames) := entry in
                   let relative_path := os_path_relpath env subdir source_rootdir in
                   let target_dir := os_path_join env target_rootdir relative_path in
                   fold_left
                     (convert_one os env table_format skip_converted backup_excel
                        tail_in_csv_filename subdir target_dir)
                     filenames st)
                walk st)
         = snd st ++ flat_map made_for (combine files converted).
Proof.
  induction walk as [|[subdir filenames] walk IH]; intros st; cbn zeta.
  - exists []. cbn. rewrite app_nil_r. repeat split. constructor.
  - cbn [fold_left].
    destruct (inner_walk subdir
                (os_path_join env target_rootdir
                   (os_path_relpath env subdir source_rootdir)) filenames st)
      as (c1 & Hlen1 & Hall1 & Hrun1).
    destruct (IH (fold_left
                    (convert_one os env table_format skip_converted backup_excel
                       tail_in_csv_filename subdir
                       (os_path_join env target_rootdir
                          (os_path_relpath env subdir source_rootdir)))
                    filenames st)) as (c2 & Hlen2 & Hall2 & Hrun2).
    cbn zeta in *.
    exists (c1 ++ c2). unfold excel_files in *. cbn [flat_map fst snd].
    split; [rewrite !length_app; lia|]. split.
    + intros Hs. apply Forall_app. split; [apply Hall1, Hs|apply Hall2, Hs].
    + rewrite Hrun2, Hrun1, combine_app_same by (symmetry; exact Hlen1).
      rewrite flat_map_app, app_assoc. reflexivity.
Qed.

End Walk.

(** X25: the calls of [convert_all_to_csv].  Over the Excel files of the walk
    (the file names that [acceptable_excel_filename] accepts, in the order of
    the walk), the calls made on the converter are, file after file, either
    none, or the conversion of the file followed, with [backup_excel], by the
    backup of the same file and by nothing else.  A file is passed over only
    with [skip_converted]; without it every Excel file is converted.  No
    other file name gives rise to a call. *)
Theorem convert_all_to_csv_calls
  (FS : Type) (os : os_path) (env : collaborators FS)
  (table_format : ExcelTableFormat.t) (fs : FS)
  (source_rootdir target_rootdir : string)
  (skip_converted backup_excel : bool) (tail_in_csv_filename : string) :
  let files :=
    excel_files os env table_format source_rootdir target_rootdir
      tail_in_csv_filename (os_walk env fs source_rootdir) in
  exists converted : list bool,
    length converted = length files
    /\ (skip_converted = false -> Forall (fun b => b = true) converted)
    /\ snd (convert_all_to_csv os env table_format fs source_rootdir target_rootdir
              skip_converted backup_excel tail_in_csv_filename)
       = flat_map
           (fun entry : string * string * string * bool =>
              if snd entry then calls_for backup_excel (fst entry) else [])
           (combine files converted).
Proof.
  cbn zeta. unfold convert_all_to_csv.
  destruct (outer_walk FS os env table_format skip_converted backup_excel
              tail_in_csv_filename source_rootdir target_rootdir
              (os_walk env fs source_rootdir) (fs, []))
    as (converted & Hlen & Hall & Hrun).
  exists converted. cbn zeta in *. split; [exact Hlen|]. split; [exact Hall|].
  exact Hrun.
Qed.

(** * Properties of the module [merge] *)

Lemma index_ne_same (a : list string) : any (index_ne a a) = false.
Proof.
  unfold any, index_ne. induction a as [|x a IH]; cbn; [reflexivity|].
  rewrite String.eqb_refl. exact IH.
Qed.

Lemma index_ne_differ (a b : list string) :
  length a = length b -> any (index_ne a b) = false -> a = b.
Proof.
  unfold any, index_ne. revert b.
  induction a as [|x a IH]; intros [|y b] Hlen H; cbn in *;
    try discriminate; [reflexivity|].
  apply orb_false_elim in H as [Hxy Hrest].
  apply negb_false_iff, String.eqb_eq in Hxy. subst y.
  f_equal. apply IH; [lia|exact Hrest].
Qed.

Lemma has_columns_true (labels : list string) (file : string * CsvFrame) :
  has_columns labels file = true <-> csv_columns (snd file) = labels.
Proof.
  unfold has_columns.
  destruct (list_eq_dec string_dec (csv_columns (snd file)) labels);
    split; intros; try assumption; try reflexivity; try discriminate; contradiction.
Qed.

Section Merge.

Variable c : colorama.
Variable env : merge_collaborators.
Variables header_in_csv_filename tail_in_csv_filename : string.
Variable delete_errorfile : bool.

Lemma alert_keeps (text : string) (st : merge_state) :
  cols (alert c text st) = cols st
  /\ list_df (alert c text st) = list_df st
  /\ calls (outside (alert c text st)) = calls (outside st)
  /\ logged (alert c text st) = S (logged st).
Proof.
  unfold logged, alert, Logger.append_alert, Logger.append.
  destruct (Logger.print_on_append (logger st));
    cbn [cols list_df outside logger calls Logger._log ColorMsg.print
         sys_stdout_write];
    rewrite length_app; cbn [length]; repeat split; lia.
Qed.

Lemma note_keeps (text : string) (st : merge_state) :
  cols (note c text st) = cols st
  /\ list_df (note c text st) = list_df st
  /\ calls (outside (note c text st)) = calls (outside st)
  /\ logged (note c text st) = S (logged st).
Proof.
  unfold logged, note, Logger.append.
  destruct (Logger.print_on_append (logger st));
    cbn [cols list_df outside logger calls Logger._log ColorMsg.print
         sys_stdout_write];
    rewrite length_app; cbn [length]; repeat split; lia.
Qed.

(** The labels that the loop compares with: those it holds, or those of the
    file it reads when it holds none. *)
Let labels_at (st : merge_state) (df : CsvFrame) : list string :=
  match cols st with
  | Some labels => labels
  | None => csv_columns df
  end.

Lemma merge_one_acceptable (subdir filename : string) (st : merge_state) :
  _acceptable_csv_filename filename header_in_csv_filename tail_in_csv_filename
    = true ->
  let path := path_join env subdir filename in
  let df := read_csv env path in
  let st' :=
    merge_one c env header_in_csv_filename tail_in_csv_filename delete_errorfile
      subdir st filename in
  cols st' = Some (labels_at st df)
  /\ list_df st'
     = list_df st ++ (if has_columns (labels_at st df) (path, df) then [df] else [])
  /\ removed (calls (outside st'))
     = removed (calls (outside st))
       ++ (if has_columns (labels_at st df) (path, df) then []
           else if delete_errorfile then [path] else [])
  /\ logged st'
     = (logged st
        + (if has_columns (labels_at st df) (path, df) then 0
           else if delete_errorfile then 2 else 1))%nat.
Proof.
  intros Hacc. cbn zeta. unfold merge_one. rewrite Hacc.
  set (path := path_join env subdir filename).
  set (df := read_csv env path).
  set (st1 := match cols st with
              | None => mk_merge_state (Some (csv_columns df)) (list_df st)
                          (logger st) (outside st)
              | Some _ => st
              end).
  assert (H1 : cols st1 = Some (labels_at st df)
               /\ list_df st1 = list_df st /\ outside st1 = outside st
               /\ logged st1 = logged st).
  { subst st1. unfold labels_at. destruct (cols st) eqn:Hc; repeat split.
    exact Hc. }
  destruct H1 as (Hcols & Hlist & Hout & Hlog).
  rewrite Hcols. set (labels := labels_at st df) in *.
  assert (Hrejected : forall text,
            has_columns labels (path, df) = false ->
            let st2 := alert c text st1 in
            let st3 :=
              if delete_errorfile then
                note c (" +-CSV file deleted: " ++ repr_str env path ++ newline)
                  (mk_merge_state (cols st2) (list_df st2) (logger st2)
                     (mk_world (stdout (outside st2))
                        (_colorama_initializeed (outside st2))
                        (calls (outside st2) ++ [remove_file path])))
              else st2 in
            cols st3 = Some labels
            /\ list_df st3 = list_df st ++ []
            /\ removed (calls (outside st3))
               = removed (calls (outside st))
                 ++ (if delete_errorfile then [path] else [])
            /\ logged st3
               = (logged st + (if delete_errorfile then 2 else 1))%nat).
  { intros text Hhas. cbn zeta.
    destruct (alert_keeps text st1) as (Ac & Al & Aw & An).
    destruct delete_errorfile.
    - match goal with |- context [note c ?t ?s] =>
        destruct (note_keeps t s) as (Nc & Nl & Nw & Nn) end.
      rewrite Nc, Nl, Nw, Nn. cbn [cols list_df outside calls].
      rewrite Ac, Al, Aw, Hcols, Hlist, Hout, app_nil_r.
      unfold removed. rewrite flat_map_app. cbn.
      repeat split. unfold logged in *. cbn [logger] in *. lia.
    - rewrite Ac, Al, Aw, An, Hcols, Hlist, Hout, !app_nil_r.
      repeat split. lia. }
  destruct (Z.gtb_spec (Z.of_nat (length (csv_columns df)))
              (Z.of_nat (length labels))) as [Hmany|Hnot_many].
  { assert (Hhas : has_columns labels (path, df) = false).
    { destruct (has_columns labels (path, df)) eqn:Hh; [|reflexivity].
      apply has_columns_true in Hh. cbn [snd] in Hh. rewrite Hh in Hmany. lia. }
    rewrite Hhas. apply Hrejected, Hhas. }
  destruct (Z.ltb_spec (Z.of_nat (length (csv_columns df)))
              (Z.of_nat (length labels))) as [Hfew|Hnot_few].
  { assert (Hhas : has_columns labels (path, df) = false).
    { destruct (has_columns labels (path, df)) eqn:Hh; [|reflexivity].
      apply has_columns_true in Hh. cbn [snd] in Hh. rewrite Hh in Hfew. lia. }
    rewrite Hhas. apply Hrejected, Hhas. }
  destruct (any (index_ne (csv_columns df) labels)) eqn:Hany.
  { assert (Hhas : has_columns labels (path, df) = false).
    { destruct (has_columns labels (path, df)) eqn:Hh; [|reflexivity].
      apply has_columns_true in Hh. cbn [snd] in Hh.
      rewrite Hh, index_ne_same in Hany. discriminate. }
    rewrite Hhas. apply Hrejected, Hhas. }
  assert (Hhas : has_columns labels (path, df) = true).
  { apply has_columns_true. cbn [snd]. apply index_ne_differ; [lia|exact Hany]. }
  rewrite Hhas. cbn [cols list_df outside].
  rewrite Hcols, Hlist, Hout, app_nil_r. repeat split.
  unfold logged in *. cbn [logger]. lia.
Qed.

Lemma merge_one_other (subdir filename : string) (st : merge_state) :
  _acceptable_csv_filename filename header_in_csv_filename tail_in_csv_filename
    = false ->
  merge_one c env header_in_csv_filename tail_in_csv_filename delete_errorfile
    subdir st filename = st.
Proof. intros H. unfold merge_one. rewrite H. reflexivity. Qed.

(** What a run of the loops over some files leaves, in terms of the files. *)
Let summary (st st' : merge_state) (files : list (string * CsvFrame)) : Prop :=
  let labels := reference_columns (cols st) files in
  (files = [] -> st' = st)
  /\ cols st' = match files with [] => cols st | _ :: _ => Some labels end
  /\ list_df st' = list_df st ++ map snd (filter (has_columns labels) files)
  /\ removed (calls (outside st'))
     = removed (calls (outside st))
       ++ (if delete_errorfile
           then map fst (filter (fun file => negb (has_columns labels file)) files)
           else [])
  /\ logged st'
     = (logged st
        + (if delete_errorfile then 2 else 1)
          * length (filter (fun file => negb (has_columns labels file)) files))%nat.

Lemma inner_merge (subdir : string) (filenames : list string) :
  forall st,
    summary st
      (fold_left
         (merge_one c env header_in_csv_filename tail_in_csv_filename
            delete_errorfile subdir)
         filenames st)
      (map (fun filename =>
              (path_join env subdir filename,
               read_csv env (path_join env subdir filename)))
         (filter
            (fun filename =>
               _acceptable_csv_filename filename header_in_csv_filename
                 tail_in_csv_filename)
            filenames)).
Proof.
  induction filenames as [|filename filenames IH]; intros st.
  - unfold summary. cbn. rewrite !app_nil_r.
    destruct delete_errorfile; rewrite ?app_nil_r; repeat split; lia.
  - cbn [fold_left filter].
    destruct (_acceptable_csv_filename filename header_in_csv_filename
                tail_in_csv_filename) eqn:Hacc.
    + destruct (merge_one_acceptable subdir filename st Hacc) as (Hc & Hl & Hr & Hn).
      cbn zeta in Hc, Hl, Hr, Hn.
      set (path := path_join env subdir filename) in *.
      set (df := read_csv env path) in *.
      set (st1 := merge_one c env header_in_csv_filename tail_in_csv_filename
                    delete_errorfile subdir st filename) in *.
      destruct (IH st1) as (_ & Hc' & Hl' & Hr' & Hn').
      set (files := map _ (filter _ filenames)) in *.
      assert (Hlabels : reference_columns (cols st1) files
                        = reference_columns (cols st) ((path, df) :: files)).
      { rewrite Hc. unfold reference_columns, labels_at.
        destruct (cols st); reflexivity. }
      rewrite Hlabels in Hc', Hl', Hr', Hn'.
      assert (Hat : labels_at st df
                    = reference_columns (cols st) ((path, df) :: files)).
      { unfold reference_columns, labels_at. destruct (cols st); reflexivity. }
      rewrite Hat in Hc, Hl, Hr, Hn.
      unfold summary. cbn [map]. fold path. fold df. fold files.
      set (labels := reference_columns (cols st) ((path, df) :: files)) in *.
      split; [discriminate|]. split.
      * rewrite Hc'. destruct files; [exact Hc|reflexivity].
      * cbn [filter]. rewrite Hl', Hl, Hr', Hr, Hn', Hn.
        destruct (has_columns labels (path, df)); cbn [negb map length];
          rewrite <- !app_assoc; destruct delete_errorfile; cbn [app];
          rewrite ?app_nil_r; repeat split; lia.
    + rewrite merge_one_other by exact Hacc. apply IH.
Qed.

Lemma reference_columns_app (held : option (list string))
  (files1 files2 : list (string * CsvFrame)) :
  reference_columns held (files1 ++ files2)
  = match files1 with
    | [] => reference_columns held files2
    | _ :: _ => reference_columns held files1
    end.
Proof. unfold reference_columns. destruct held, files1; reflexivity. Qed.

Lemma outer_merge (entries : list (string * list string)) :
  forall st,
    summary st
      (fold_left
         (fun st entry =>
            fold_left
              (merge_one c env header_in_csv_filename tail_in_csv_filename
                 delete_errorfile (fst entry))
              (snd entry) st)
         entries st)
      (csv_files env header_in_csv_filename tail_in_csv_filename entries).
Proof.
  induction entries as [|[subdir filenames] entries IH]; intros st.
  - unfold summary. cbn. rewrite !app_nil_r.
    destruct delete_errorfile; rewrite ?app_nil_r; repeat split; lia.
  - cbn [fold_left fst snd]. unfold csv_files. cbn [flat_map fst snd].
    fold (csv_files env header_in_csv_filename tail_in_csv_filename entries).
    destruct (inner_merge subdir filenames st) as (He1 & Hc1 & Hl1 & Hr1 & Hn1).
    set (st1 := fold_left _ filenames st) in *.
    set (files1 := map _ (filter _ filenames)) in *.
    destruct (IH st1) as (He2 & Hc2 & Hl2 & Hr2 & Hn2).
    set (files2 := csv_files env header_in_csv_filename tail_in_csv_filename entries)
      in *.
    set (st2 := fold_left _ entries st1) in *.
    assert (Hlabels2 : files2 <> [] \/ files1 = [] ->
              reference_columns (cols st1) files2
              = reference_columns (cols st) (files1 ++ files2)).
    { intros _. rewrite Hc1, reference_columns_app.
      destruct files1; reflexivity. }
    assert (Hlabels1 : files1 <> [] ->
              reference_columns (cols st) files1
              = reference_columns (cols st) (files1 ++ files2)).
    { intros Hne. rewrite reference_columns_app.
      destruct files1; [contradiction|reflexivity]. }
    unfold summary.
    set (labels := reference_columns (cols st) (files1 ++ files2)).
    destruct files1 as [|file1 files1'] eqn:Hf1.
    + rewrite (He1 eq_refl) in *. cbn [app].
      rewrite Hlabels2 in Hc2, Hl2, Hr2, Hn2 by (right; reflexivity).
      cbn [app] in Hc2, Hl2, Hr2, Hn2. fold labels in Hc2, Hl2, Hr2, Hn2.
      split; [exact He2|]. split; [exact Hc2|]. split; [exact Hl2|].
      split; [exact Hr2|exact Hn2].
    + assert (Hsame : reference_columns (cols st1) files2 = labels).
      { rewrite Hc1. reflexivity. }
      rewrite Hsame in Hc2, Hl2, Hr2, Hn2.
      assert (Hsame1 : reference_columns (cols st) (file1 :: files1') = labels).
      { apply Hlabels1. discriminate. }
      rewrite Hsame1 in Hc1, Hl1, Hr1, Hn1.
      split; [discriminate|]. split.
      * rewrite Hc2. destruct files2; [exact Hc1|reflexivity].
      * rewrite Hl2, Hl1, Hr2, Hr1, Hn2, Hn1. rewrite !filter_app, !map_app.
        rewrite <- !app_assoc, length_app.
        destruct delete_errorfile; rewrite ?app_nil_r; repeat split; lia.
Qed.

End Merge.

(** X26: what [merge_csv] merges and removes.  Over the CSV files of the
    walk (the file names that [_acceptable_csv_filename] accepts, in the
    order of the walk): when there is none, [merge_csv] raises [ValueError],
    logs nothing and removes nothing.  Otherwise it returns the frame that
    [pd.concat] makes of the frames, in the order of the walk, of the files
    that have exactly the columns of the first file; the files that have
    other columns are left out of it, and they are the files that
    [merge_csv] removes, with [delete_errorfile], while without it no file
    is removed.  Each file left out is reported to the logger, by one alert,
    and by one more message when it is removed. *)
Theorem merge_csv_keeps_the_first_header
  (c : colorama) (env : merge_collaborators)
  (rootdir header_in_csv_filename tail_in_csv_filename : string)
  (logger0 : Logger.t) (delete_errorfile : bool) (w : world) :
  let files :=
    csv_files env header_in_csv_filename tail_in_csv_filename (walk env rootdir) in
  let run :=
    merge_csv c env rootdir header_in_csv_filename tail_in_csv_filename logger0
      delete_errorfile w in
  (files = [] ->
   fst run = Raises ValueError
   /\ logger (snd run) = logger0 /\ outside (snd run) = w)
  /\ (forall first rest, files = first :: rest ->
        let labels := csv_columns (snd first) in
        fst run
        = Returns (concat env (map snd (filter (has_columns labels) files)))
        /\ (exists kept,
              map snd (filter (has_columns labels) files) = snd first :: kept)
        /\ removed (calls (outside (snd run)))
           = removed (calls w)
             ++ (if delete_errorfile
                 then map fst
                        (filter (fun file => negb (has_columns labels file)) files)
                 else [])
        /\ length (Logger._log (logger (snd run)))
           = (length (Logger._log logger0)
              + (if delete_errorfile then 2 else 1)
                * length (filter (fun file => negb (has_columns labels file))
                            files))%nat).
Proof.
  cbn zeta. unfold merge_csv. cbn [fst snd].
  destruct (outer_merge c env header_in_csv_filename tail_in_csv_filename
              delete_errorfile (walk env rootdir)
              (mk_merge_state None [] logger0 w))
    as (Hempty & _ & Hlist & Hremoved & Hlogged).
  unfold logged in Hlogged.
  cbn [cols list_df outside logger] in Hlist, Hremoved, Hlogged.
  split.
  - intros Hfiles. rewrite (Hempty Hfiles). cbn [list_df logger outside].
    repeat split.
  - intros first rest Hfiles. rewrite Hfiles in Hlist, Hremoved, Hlogged.
    cbn [reference_columns] in Hlist, Hremoved, Hlogged.
    rewrite Hfiles. split; [|split; [|split; [exact Hremoved|exact Hlogged]]].
    + rewrite Hlist. cbn [app filter].
      assert (Hfirst : has_columns (csv_columns (snd first)) first = true)
        by (apply has_columns_true; reflexivity).
      rewrite Hfirst. reflexivity.
    + cbn [filter].
      assert (Hfirst : has_columns (csv_columns (snd first)) first = true)
        by (apply has_columns_true; reflexivity).
      rewrite Hfirst. cbn [map]. eexists. reflexivity.
Qed.

Lemma merge_csv_keeps_the_first_header_witness :
  let env :=
    mk_merge_collaborators
      (fun _ =>
         [("d"%string,
           ["zz_TEP_a_TEP.csv"%string; "zz_TEP_b_TEP.csv"%string;
            "notes.txt"%string; "zz_TEP_c_TEP.csv"%string])])
      (fun a b => (a ++ "/" ++ b)%string)
      (fun path =>
         if String.eqb path "d/zz_TEP_b_TEP.csv"
         then mk_CsvFrame ["T"%string; "rho"%string] [[Int 300; Float 5 (-1)]]
         else if String.eqb path "d/zz_TEP_a_TEP.csv"
         then mk_CsvFrame ["T"%string; "S"%string] [[Int 300; Float 3 (-1)]]
         else mk_CsvFrame ["T"%string; "S"%string] [[Int 400; Float 7 (-2)]])
      (fun s => s) (fun _ => "n"%string) (fun _ => "l"%string)
      (fun frames => mk_CsvFrame ["T"%string; "S"%string] (flat_map csv_values frames)) in
  let run :=
    merge_csv (mk_colorama "R" "0" (fun text => text)) env "d" "zz_TEP" "_TEP"
      (Logger.mk [] false "R" EmptyString EmptyString) true
      (mk_world EmptyString false []) in
  fst run
  = Returns
      (concat env
         [mk_CsvFrame ["T"%string; "S"%string] [[Int 300; Float 3 (-1)]];
          mk_CsvFrame ["T"%string; "S"%string] [[Int 400; Float 7 (-2)]]])
  /\ removed (calls (outside (snd run))) = ["d/zz_TEP_b_TEP.csv"%string]
  /\ length (Logger._log (logger (snd run))) = 2%nat.
Proof.
  cbn zeta.
  pose proof
    (proj2 (merge_csv_keeps_the_first_header (mk_colorama "R" "0" (fun text => text))
              (mk_merge_collaborators
                 (fun _ =>
                    [("d"%string,
                      ["zz_TEP_a_TEP.csv"%string; "zz_TEP_b_TEP.csv"%string;
                       "notes.txt"%string; "zz_TEP_c_TEP.csv"%string])])
                 (fun a b => (a ++ "/" ++ b)%string)
                 (fun path =>
                    if String.eqb path "d/zz_TEP_b_TEP.csv"
                    then mk_CsvFrame ["T"%string; "rho"%string]
                           [[Int 300; Float 5 (-1)]]
                    else if String.eqb path "d/zz_TEP_a_TEP.csv"
                    then mk_CsvFrame ["T"%string; "S"%string]
                           [[Int 300; Float 3 (-1)]]
                    else mk_CsvFrame ["T"%string; "S"%string]
                           [[Int 400; Float 7 (-2)]])
                 (fun s => s) (fun _ => "n"%string) (fun _ => "l"%string)
                 (fun frames =>
                    mk_CsvFrame ["T"%string; "S"%string]
                      (flat_map csv_values frames)))
              "d" "zz_TEP" "_TEP"
              (Logger.mk [] false "R" EmptyString EmptyString) true
              (mk_world EmptyString false []))
       ("d/zz_TEP_a_TEP.csv"%string,
        mk_CsvFrame ["T"%string; "S"%string] [[Int 300; Float 3 (-1)]])
       [("d/zz_TEP_b_TEP.csv"%string,
         mk_CsvFrame ["T"%string; "rho"%string] [[Int 300; Float 5 (-1)]]);
        ("d/zz_TEP_c_TEP.csv"%string,
         mk_CsvFrame ["T"%string; "S"%string] [[Int 400; Float 7 (-2)]])]
       eq_refl) as (Hrun & _ & Hremoved & Hlogged).
  split; [exact Hrun|]. split; [exact Hremoved|exact Hlogged].
Defined.

(** ** The walk of the module's test *)

Example test_convert_all_to_csv :
  let env :=
    mk_collaborators unit
      (fun _ _ => [("."%string, ["zz_TEP_1.xlsx"%string; "not_TEP.xlsx"%string])])
      (fun _ _ => "."%string)
      (fun a b => (a ++ "/" ++ b)%string)
      (fun _ _ => true) (fun _ _ => 0) (fun fs _ _ => fs) (fun fs _ _ => fs) in
  let table_format := ExcelTableFormat.mk 3 4 1 "TEP" "zz_TEP" in
  snd (convert_all_to_csv posixpath env table_format tt "." "." false true "_converted")
  = [convert_to_csv "./zz_TEP_1.xlsx" "././zz_TEP_1_converted.csv";
     _backup_excel "./zz_TEP_1.xlsx" "././zz_TEP_1.xlsx"]
  /\ snd (convert_all_to_csv posixpath env table_format tt "." "." false false
            "_converted")
     = [convert_to_csv "./zz_TEP_1.xlsx" "././zz_TEP_1_converted.csv"]
  /\ snd (convert_all_to_csv posixpath env table_format tt "." "." true true
            "_converted")
     = [].
Proof. cbn zeta. repeat split; vm_compute; reflexivity. Qed.

Example test_already_converted :
  let env exists_ mtime :=
    mk_collaborators unit (fun _ _ => []) (fun _ _ => EmptyString)
      (fun _ _ => EmptyString) (fun _ _ => exists_) (fun _ path => mtime path)
      (fun fs _ _ => fs) (fun fs _ _ => fs) in
  let values source target (path : string) :=
    if String.eqb path "source" then source else target in
  _already_converted (env false (values 1 10)) tt "source" "target" = false
  /\ _already_converted (env true (values 1 10)) tt "source" "target" = true
  /\ _already_converted (env true (values 10 1)) tt "source" "target" = false.
Proof. cbn zeta. repeat split; reflexivity. Qed.

(** * More on the growth routine and the sweep *)

(** X27: the growth routine reads its quadrant only.  On two well-shaped
    arrays of the same shape that agree on every cell at or below the anchor
    row and at or right of the anchor column, the growth routine returns the
    same range from that anchor: no cell above or left of the anchor bears
    on the result. *)
Theorem growth_reads_its_quadrant_only (a b : ndarray) (start_row start_col : Z) :
  well_shaped a = true -> well_shaped b = true -> shape a = shape b ->
  in_bounds a start_row start_col ->
  (forall r c, in_bounds a r c -> start_row <= r -> start_col <= c ->
     getitem a r c = getitem b r c) ->
  _find_table_range_from_boolean_array_starting_at (start_row, start_col) a
  = _find_table_range_from_boolean_array_starting_at (start_row, start_col) b.
Proof.
  intros Hwa Hwb Hs Hb Hagree.
  assert (Hb' : in_bounds b start_row start_col)
    by (apply (in_bounds_same_shape b a); [symmetry; exact Hs|exact Hb]).
  assert (Hpeek : forall r c, in_bounds a r c -> start_row <= r -> start_col <= c ->
            peek a r c = peek b r c).
  { intros r c Hrc Hr Hc. specialize (Hagree r c Hrc Hr Hc).
    rewrite (getitem_inside a Hwa r c Hrc) in Hagree.
    rewrite (getitem_inside b Hwb r c) in Hagree
      by (apply (in_bounds_same_shape b a); [symmetry; exact Hs|exact Hrc]).
    injection Hagree as Hagree. exact Hagree. }
  destruct (grow_inside a Hwa start_row start_col Hb)
    as (er & ec & Hgrow & Hcb & Hhead & Hcstop & Hrb & Hkept & Hrstop).
  destruct (grow_inside b Hwb start_row start_col Hb')
    as (er' & ec' & Hgrow' & Hcb' & Hhead' & Hcstop' & Hrb' & Hkept' & Hrstop').
  assert (Hrs : n_rows b = n_rows a) by (unfold n_rows; rewrite Hs; reflexivity).
  assert (Hcs : n_cols b = n_cols a) by (unfold n_cols; rewrite Hs; reflexivity).
  rewrite Hrs in *. rewrite Hcs in *.
  destruct Hb as [Hr Hc].
  assert (Hec : ec = ec').
  { destruct (Z.lt_trichotomy ec ec') as [Hlt|[Heq|Hgt]]; [exfalso|exact Heq|exfalso].
    - specialize (Hhead' ec ltac:(lia)).
      rewrite <- Hpeek in Hhead' by (try split; lia).
      rewrite Hcstop in Hhead' by lia. discriminate.
    - specialize (Hhead ec' ltac:(lia)).
      rewrite Hpeek in Hhead by (try split; lia).
      rewrite Hcstop' in Hhead by lia. discriminate. }
  subst ec'.
  assert (Her : er = er').
  { destruct (Z.lt_trichotomy er er') as [Hlt|[Heq|Hgt]]; [exfalso|exact Heq|exfalso].
    - destruct (Hkept' er ltac:(lia)) as [c [Hc' Hp]].
      rewrite <- Hpeek in Hp by (try split; lia).
      rewrite (Hrstop ltac:(lia) c Hc') in Hp. discriminate.
    - destruct (Hkept er' ltac:(lia)) as [c [Hc' Hp]].
      rewrite Hpeek in Hp by (try split; lia).
      rewrite (Hrstop' ltac:(lia) c Hc') in Hp. discriminate. }
  subst er'. rewrite Hgrow, Hgrow'. reflexivity.
Qed.

Lemma growth_reads_its_quadrant_only_witness :
  _find_table_range_from_boolean_array_starting_at (1, 2) test_boolean_array
  = _find_table_range_from_boolean_array_starting_at (1, 2)
      (mk_ndarray (5%nat, 4%nat)
         [[T; F; F; T];
          [T; T; T; F];
          [T; F; F; F];
          [T; T; F; T];
          [F; T; F; F]]).
Proof.
  apply growth_reads_its_quadrant_only; try reflexivity.
  - unfold in_bounds. simpl. lia.
  - intros r c [Hr Hc] Hr' Hc'. simpl in Hr, Hc.
    assert (Hcases : (r = 1 \/ r = 2 \/ r = 3 \/ r = 4) /\ (c = 2 \/ c = 3)) by lia.
    destruct Hcases as [[-> | [-> | [-> | ->]]] [-> | ->]]; reflexivity.
Defined.

(** X28: the returned ranges cannot grow.  For the range at position [i]
    of the list that a call of the sweep returns, the cell right after its
    header row, when the frame has one, is missing in the frame or lies in a
    range returned before it; and when the frame has a row below the range,
    every cell of that row within the range's columns is missing or lies in
    a range returned before it. *)
Theorem find_all_ranges_cannot_grow
  (df : DataFrame) (min_n_rows min_n_cols : Z) (ranges : list TableRange) :
  well_shaped_df df = true ->
  find_all_table_range df min_n_rows min_n_cols = Returns ranges ->
  forall i p, nth_error ranges i = Some p ->
    cannot_grow (notna_to_numpy df) (firstn i ranges) p.
Proof.
  intros Hw Hret.
  set (a0 := notna_to_numpy df).
  destruct (find_all_carries df min_n_rows min_n_cols
              (fun row col st =>
                 (forall r c, in_bounds a0 r c -> peek a0 r c = true ->
                    peek (snd st) r c = true
                    \/ exists p, In p (fst st) /\ covers p r c)
                 /\ (forall i p, nth_error (fst st) i = Some p ->
                       cannot_grow a0 (firstn i (fst st)) p)))
    as [st [Hrun [_ [_ Hmax]]]]; try assumption.
  - intros row col [acc arr] st' Hrow Hcol (Hws & Hs & _) [Hcov Hmax] Hvisit.
    cbn [fst snd] in *. fold a0 in Hrow, Hcol, Hs.
    assert (Hin : forall r c, in_bounds a0 r c -> in_bounds arr r c).
    { intros r c. apply in_bounds_same_shape, Hs. }
    assert (Hb : in_bounds arr row col) by (apply Hin; split; assumption).
    assert (Hrs : n_rows arr = n_rows a0) by (unfold n_rows; rewrite Hs; reflexivity).
    assert (Hcs : n_cols arr = n_cols a0) by (unfold n_cols; rewrite Hs; reflexivity).
    destruct (visit_cases min_n_rows min_n_cols row col acc arr st' Hws Hb Hvisit)
      as [[-> _]|(stop_row & stop_col & Hanchor & Hgrow & Htall & Hwide & _ & ->)];
      cbn [fst snd]; [split; assumption|].
    set (rng := TableRange.mk row col stop_row stop_col).
    assert (Hnonneg : 0 <= TableRange.start_row rng /\ 0 <= TableRange.stop_row rng
                      /\ 0 <= TableRange.start_col rng /\ 0 <= TableRange.stop_col rng).
    { subst rng. cbn. lia. }
    split.
    + intros r c Hrc Hp.
      destruct (Hcov r c Hrc Hp) as [Harr|[p [Hp' Hcp]]].
      * destruct (covers_dec rng r c) as [Hcr|Hout].
        -- right. exists rng. split; [apply in_or_app; right; left; reflexivity|exact Hcr].
        -- left. rewrite peek_fill_outside by (try assumption; apply Hin, Hrc).
           exact Harr.
      * right. exists p. split; [apply in_or_app; left; exact Hp'|exact Hcp].
    + intros i p Hi.
      destruct (Nat.lt_ge_cases i (length acc)) as [Hlt|Hge].
      * rewrite nth_error_app1 in Hi by exact Hlt.
        rewrite firstn_app. replace (i - length acc)%nat with 0%nat by lia.
        cbn [firstn]. rewrite app_nil_r. apply Hmax, Hi.
      * rewrite nth_error_app2 in Hi by exact Hge.
        destruct (i - length acc)%nat as [|k] eqn:Hk;
          [|destruct k; discriminate].
        cbn in Hi. injection Hi as <-.
        rewrite firstn_app, Hk. cbn [firstn]. rewrite app_nil_r.
        rewrite firstn_all2 by lia.
        destruct (grow_inside arr Hws row col Hb)
          as (er & ec & Hgrow' & Hcb & _ & Hcstop & Hrb & _ & Hrstop).
        rewrite Hgrow in Hgrow'. injection Hgrow' as <- <-.
        rewrite Hrs in Hrb, Hrstop. rewrite Hcs in Hcb, Hcstop.
        assert (Hwhy : forall r c, in_bounds a0 r c -> peek arr r c = false ->
                  peek a0 r c = false \/ exists q, In q acc /\ covers q r c).
        { intros r c Hrc Hoff. destruct (peek a0 r c) eqn:Hp; [right|left; reflexivity].
          destruct (Hcov r c Hrc Hp) as [Harr|Hq]; [congruence|exact Hq]. }
        unfold cannot_grow. subst rng.
        cbn [TableRange.start_row TableRange.start_col
             TableRange.stop_row TableRange.stop_col].
        split.
        -- intros Hroom. apply Hwhy; [split; lia|]. apply Hcstop, Hroom.
        -- intros Hroom c Hc. apply Hwhy; [split; lia|]. apply Hrstop; assumption.
  - intros row st _ HI. exact HI.
  - split.
    + intros r c _ Hp. left. exact Hp.
    + intros i p Hi. destruct i; discriminate.
  - rewrite Hrun in Hret. injection Hret as <-. exact Hmax.
Qed.

Lemma find_all_ranges_cannot_grow_witness :
  find_all_table_range test_df 1 1
  = Returns [TableRange.mk 0 0 2 2; TableRange.mk 1 3 3 5]
  /\ (forall i p,
        nth_error [TableRange.mk 0 0 2 2; TableRange.mk 1 3 3 5] i = Some p ->
        cannot_grow (notna_to_numpy test_df)
          (firstn i [TableRange.mk 0 0 2 2; TableRange.mk 1 3 3 5]) p).
Proof.
  split; [reflexivity|].
  apply (find_all_ranges_cannot_grow test_df 1 1
           [TableRange.mk 0 0 2 2; TableRange.mk 1 3 3 5]);
    reflexivity.
Defined.

(** * Calls on a frame that the caller keeps *)

(** The frame [pd.DataFrame([[1, 2], [3, 4]])] with a writable array and with
    a read-only one: the first range that the sweep accepts is where the
    call on the read-only array raises [ValueError]. *)
Example read_only_array_raises :
  fst (find_all_table_range_of 0 1 1 (store_of one_block_df false))
  = Returns [TableRange.mk 0 0 2 2]
  /\ fst (find_all_table_range_of 0 1 1 (store_of one_block_df true))
     = Raises ValueError
  /\ fst (find_all_table_range_of 0 3 1 (store_of one_block_df true)) = Returns [].
Proof. repeat split; vm_compute; reflexivity. Qed.

Lemma range_In (lo hi x : Z) : In x (range lo hi) -> lo <= x < hi.
Proof.
  unfold range. intros H. apply in_map_iff in H as [j [<- Hj]].
  apply in_seq in Hj. lia.
Qed.

(** On a read-only array the visit of a position inside the array returns
    the list it was given and leaves the store alone, or raises
    [ValueError] and leaves the store alone. *)
Lemma visit_of_read_only (min_n_rows min_n_cols row col : Z) (k : nat)
  (acc : list TableRange) (h : store) :
  well_shaped (array (arrays h k)) = true ->
  in_bounds (array (arrays h k)) row col ->
  writeable (arrays h k) = false ->
  visit_of min_n_rows min_n_cols k row acc col h = (Returns acc, h)
  \/ visit_of min_n_rows min_n_cols k row acc col h = (Raises ValueError, h).
Proof.
  intros Hshape Hb Hw. unfold visit_of, fill_inplace_of.
  rewrite (getitem_inside _ Hshape row col Hb).
  destruct (peek (array (arrays h k)) row col); [|left; reflexivity].
  destruct (grow_inside _ Hshape row col Hb) as (stop_row & stop_col & Hgrow & _).
  rewrite Hgrow.
  destruct (TableRange.has_min_size _ min_n_rows min_n_cols); [|left; reflexivity].
  rewrite Hw. right. reflexivity.
Qed.

Lemma loop_of_read_only {S : Type} (body : S -> Z -> store -> outcome S * store)
  (inside : Z -> Prop) (good : store -> Prop) :
  (forall st x h, inside x -> good h ->
     body st x h = (Returns st, h) \/ body st x h = (Raises ValueError, h)) ->
  forall xs st h, (forall x, In x xs -> inside x) -> good h ->
    for_each_of body xs st h = (Returns st, h)
    \/ for_each_of body xs st h = (Raises ValueError, h).
Proof.
  intros Hbody. induction xs as [|x xs IH]; intros st h Hin Hgood; cbn [for_each_of].
  - left. reflexivity.
  - destruct (Hbody st x h (Hin x (or_introl eq_refl)) Hgood) as [-> | ->].
    + apply IH; [|exact Hgood]. intros y Hy. apply Hin. right. exact Hy.
    + right. reflexivity.
Qed.

(** X29: a call and the sweep.  A call for the frame under a reference that
    returns, returns the list that the sweep on a writable array returns for
    the frame, so that what is proved of the ranges of the sweep holds of
    the ranges of every call that returns.  When pandas hands out a writable
    array the call has the outcome of the sweep.  When it hands out a
    read-only array, a call that returns can only return the empty list, and
    on a well-shaped frame the call returns the empty list or raises
    [ValueError]. *)
Theorem call_returns_what_the_sweep_returns
  (df : nat) (min_n_rows min_n_cols : Z) (h : store) :
  let call := fst (find_all_table_range_of df min_n_rows min_n_cols h) in
  let sweep_of_frame :=
    find_all_table_range (frame (frames h df)) min_n_rows min_n_cols in
  (forall ranges, call = Returns ranges -> sweep_of_frame = Returns ranges)
  /\ (notna_read_only (frames h df) = false -> call = sweep_of_frame)
  /\ (notna_read_only (frames h df) = true ->
      (forall ranges, call = Returns ranges -> ranges = [])
      /\ (well_shaped_df (frame (frames h df)) = true ->
          call = Returns [] \/ call = Raises ValueError)).
Proof.
  cbn zeta. split; [|split; [|split]].
  - intros ranges Hret. apply (find_all_of_returns df _ _ h ranges Hret).
  - apply find_all_of_writable.
  - intros ranges Hret. apply (find_all_of_returns df _ _ h ranges Hret), H.
  - intros Hshape. apply well_shaped_notna in Hshape.
    unfold find_all_table_range_of, notna_to_numpy_of, new_array.
    cbn [arrays]. rewrite !Nat.eqb_refl. cbn [array].
    set (a0 := notna_to_numpy (frame (frames h df))) in *.
    set (h0 := mk_store _ _ _).
    assert (Hgood : array (arrays h0 (next_array h)) = a0
                    /\ writeable (arrays h0 (next_array h)) = false).
    { unfold h0. cbn [arrays]. rewrite Nat.eqb_refl. cbn [array writeable].
      rewrite H. split; reflexivity. }
    destruct (loop_of_read_only
                (fun acc row =>
                   for_each_of
                     (visit_of min_n_rows min_n_cols (next_array h) row)
                     (range 0 (Z.of_nat (n_cols a0))) acc)
                (fun row => 0 <= row < Z.of_nat (n_rows a0))
                (fun s => array (arrays s (next_array h)) = a0
                          /\ writeable (arrays s (next_array h)) = false))
      with (xs := range 0 (Z.of_nat (n_rows a0))) (st := @nil TableRange) (h := h0)
      as [-> | ->]; try (left; reflexivity); try (right; reflexivity);
      try exact Hgood; try (intros x Hx; apply range_In, Hx).
    intros acc row s Hrow Hs.
    apply (loop_of_read_only
             (visit_of min_n_rows min_n_cols (next_array h) row)
             (fun col => 0 <= col < Z.of_nat (n_cols a0))
             (fun s => array (arrays s (next_array h)) = a0
                       /\ writeable (arrays s (next_array h)) = false));
      try exact Hs; try (intros x Hx; apply range_In, Hx).
    intros acc1 col s1 Hcol [Harr Hflag].
    apply visit_of_read_only; rewrite ?Harr; try assumption.
    split; assumption.
Qed.

Lemma call_returns_what_the_sweep_returns_witness :
  find_all_table_range (frame (frames (store_of test_df false) 0)) 1 1
  = Returns [TableRange.mk 0 0 2 2; TableRange.mk 1 3 3 5].
Proof.
  apply (proj1 (call_returns_what_the_sweep_returns 0 1 1 (store_of test_df false))
           [TableRange.mk 0 0 2 2; TableRange.mk 1 3 3 5]).
  vm_compute. reflexivity.
Defined.
